(** * VidTok causal 3D video autoencoder: a shallow embedding

    The development follows
    [src/diffusers/models/autoencoders/autoencoder_vidtok.py].  Python
    integers are [Z] ([//] is [Z.div], [%] is [Z.modulo]), the Python
    floats that decide a tile size are IEEE 754 doubles, exact tensor values
    are canonical rationals [Qc], Python strings are [string], and partial
    operations of the tensor runtime return [option] or a result type
    carrying the exception that Python raises. *)

From Stdlib Require Import ZArith QArith Qcanon String Lia Bool.
From Stdlib Require Floats.SpecFloat.
From stdpp Require Import base list strings.

Local Open Scope string_scope.
Local Open Scope list_scope.
Local Open Scope Z_scope.

(** ** The tensor runtime along the time axis

    A tensor is read as the list of its frames along the time axis; what a
    frame holds (channels, height, width) stays abstract.  [pad_time] is
    [F.pad] restricted to the time axis, [conv_time] is the sliding window
    of [nn.Conv1d]/[nn.Conv3d] along time, with the kernel's action on one
    window of taps given as a function. *)
Module Torch.
Section time_axis.
Context {A : Type}.
Variable zero : A.

(** A negative amount crops, as [F.pad] does. *)
Definition crop_front (p : Z) (xs : list A) : option (list A) :=
  if - p <=? Z.of_nat (length xs) then Some (drop (Z.to_nat (- p)) xs) else None.

(** [F.pad(x, (p, 0), mode)] on the time axis. *)
Definition pad_front (mode : string) (p : Z) (xs : list A) : option (list A) :=
  if p <? 0 then crop_front p xs
  else if String.eqb mode "constant" then Some (replicate (Z.to_nat p) zero ++ xs)
  else if String.eqb mode "replicate" then
    match xs with
    | [] => None
    | x0 :: _ => Some (replicate (Z.to_nat p) x0 ++ xs)
    end
  else if String.eqb mode "reflect" then
    if p <? Z.of_nat (length xs)
    then Some (reverse (take (Z.to_nat p) (drop 1 xs)) ++ xs)
    else None
  else if String.eqb mode "circular" then
    if p <=? Z.of_nat (length xs)
    then Some (drop (length xs - Z.to_nat p) xs ++ xs)
    else None
  else None.

(** [F.pad(x, (0, p), mode="constant", value=0)] on the time axis, [0 <= p]. *)
Definition pad_back_constant (p : Z) (xs : list A) : list A :=
  xs ++ replicate (Z.to_nat p) zero.

(** The [k] taps of the window that starts at [start], [d] apart. *)
Definition taps (k d start : nat) (xs : list A) : list A :=
  (λ j, default zero (xs !! (start + j * d)%nat)) <$> seq 0 k.

(** Number of output positions of a convolution or pooling window. *)
Definition out_len (k d s n : nat) : option nat :=
  let span := (d * (k - 1) + 1)%nat in
  if decide (k = 0 ∨ d = 0 ∨ s = 0 ∨ n < span)%nat then None
  else Some ((n - span) / s + 1)%nat.

Definition slide {B : Type} (K : list A → B) (k d s : nat) (xs : list A)
  : option (list B) :=
  n ← out_len k d s (length xs);
  Some ((λ τ, K (taps k d (τ * s) xs)) <$> seq 0 n).

(** The convolution along time: kernel size [k], dilation [d], stride [s]. *)
Definition conv_time {B : Type} (K : list A → B) (k d s : Z) (xs : list A)
  : option (list B) :=
  if (k <=? 0) || (d <=? 0) || (s <=? 0) then None
  else slide K (Z.to_nat k) (Z.to_nat d) (Z.to_nat s) xs.

(** [F.interpolate(scale_factor=[2.0, 1.0, 1.0], mode="nearest")]. *)
Definition interpolate_nearest2 (xs : list A) : list A :=
  xs ≫= λ x, [x; x].
End time_axis.
End Torch.

(** ** Causal convolutions *)

(** [kernel_size], [dilation] and [stride] of the 3D layer are an [int] or
    a tuple of three. *)
Inductive int_or_tuple :=
  | PyInt (n : Z)
  | PyTuple (t : Z * Z * Z).

Module VidTokCausalConv1d.
Record t := {
  in_channels : Z;
  out_channels : Z;
  pad_mode : string;
  time_pad : Z;
  time_causal_padding : Z * Z;
  (* the parameters handed to [nn.Conv1d] *)
  kernel_size : Z;
  stride : Z;
  dilation : Z
}.

(** [__init__]; [dilation] and [stride] are the popped keyword arguments
    (both default to 1 at the call sites), a [padding] keyword is dropped. *)
Definition init (in_channels out_channels kernel_size : Z) (pad_mode : string)
    (dilation stride : Z) : t :=
  let time_pad := dilation * (kernel_size - 1) + (1 - stride) in
  {| in_channels := in_channels;
     out_channels := out_channels;
     pad_mode := pad_mode;
     time_pad := time_pad;
     time_causal_padding := (time_pad, 0);
     kernel_size := kernel_size;
     stride := stride;
     dilation := dilation |}.

(** The first line of [forward]: [x.shape[2]] is the time length. *)
Definition forward_pad_mode (self : t) (T : Z) : string :=
  if time_pad self <? T then pad_mode self else "constant".

Section forward.
Context {A B : Type}.
Variable zero : A.
Variable K : list A → B.

Definition forward (self : t) (x : list A) : option (list B) :=
  let pad_mode := forward_pad_mode self (Z.of_nat (length x)) in
  x ← Torch.pad_front zero pad_mode (time_causal_padding self).1 x;
  Torch.conv_time zero K (kernel_size self) (dilation self) (stride self) x.
End forward.
End VidTokCausalConv1d.

Module VidTokCausalConv3d.
Record t := {
  in_channels : Z;
  out_channels : Z;
  pad_mode : string;
  time_pad : Z;
  time_causal_padding : Z * Z * Z * Z * Z * Z;
  (* the parameters handed to [nn.Conv3d] *)
  kernel_size : Z * Z * Z;
  stride : Z * Z * Z;
  dilation : Z * Z * Z
}.

Definition cast_tuple (t : int_or_tuple) : Z * Z * Z :=
  match t with
  | PyTuple t => t
  | PyInt n => (n, n, n)
  end.

Definition init (in_channels out_channels : Z) (kernel_size : int_or_tuple)
    (pad_mode : string) (dilation stride : int_or_tuple) : t :=
  let kernel_size := cast_tuple kernel_size in
  let dilation := cast_tuple dilation in
  let stride := cast_tuple stride in
  let '(time_kernel_size, height_kernel_size, width_kernel_size) := kernel_size in
  let '(dilation0, dilation1, dilation2) := dilation in
  let '(stride0, stride1, stride2) := stride in
  let time_pad := dilation0 * (time_kernel_size - 1) + (1 - stride0) in
  let height_pad := dilation1 * (height_kernel_size - 1) + (1 - stride1) in
  let width_pad := dilation2 * (height_kernel_size - 1) + (1 - stride2) in
  {| in_channels := in_channels;
     out_channels := out_channels;
     pad_mode := pad_mode;
     time_pad := time_pad;
     time_causal_padding :=
       (width_pad / 2, width_pad - width_pad / 2,
        height_pad / 2, height_pad - height_pad / 2,
        time_pad, 0);
     kernel_size := kernel_size;
     stride := stride;
     dilation := dilation |}.

Definition forward_pad_mode (self : t) (T : Z) : string :=
  if time_pad self <? T then pad_mode self else "constant".

(** The entries of the [F.pad] tuple: last axis first. *)
Definition width_padding (self : t) : Z * Z :=
  let '(wl, wr, _, _, _, _) := time_causal_padding self in (wl, wr).
Definition height_padding (self : t) : Z * Z :=
  let '(_, _, hl, hr, _, _) := time_causal_padding self in (hl, hr).
Definition time_padding (self : t) : Z * Z :=
  let '(_, _, _, _, tl, tr) := time_causal_padding self in (tl, tr).

Section forward.
Context {A B : Type}.
Variable zero : A.
(** [F.pad] inside one frame: mode, width pads, height pads. *)
Variable spatial_pad : string → Z * Z → Z * Z → A → A.
Variable K : list A → B.

Definition forward (self : t) (x : list A) : option (list B) :=
  let pad_mode := forward_pad_mode self (Z.of_nat (length x)) in
  x ← Torch.pad_front zero pad_mode (time_padding self).1 x;
  let x := spatial_pad pad_mode (width_padding self) (height_padding self) <$> x in
  Torch.conv_time zero K (kernel_size self).1.1 (dilation self).1.1
    (stride self).1.1 x.
End forward.
End VidTokCausalConv3d.

(** The padding an axis needs from its own kernel size, dilation and stride. *)
Definition axis_pad (k d s : Z) : Z := d * (k - 1) + (1 - s).


(** The mode the spec words give for a call: constant exactly when the time
    padding exceeds the time length. *)
Definition exceeds_pad_mode (pad_mode : string) (time_pad T : Z) : string :=
  if time_pad >? T then "constant" else pad_mode.

(** A kernel for small runs: the sum of the taps. *)
Definition sumZ (l : list Z) : Z := foldr Z.add 0 l.

(** Strict causality in the spec's words: two inputs of one shape that agree
    at all time steps strictly before [t] give outputs that agree at all time
    steps strictly before [t]. *)
Definition strictly_causal {A B : Type} (f : list A → option (list B)) : Prop :=
  ∀ (xs ys : list A) (t : nat),
    length xs = length ys →
    take t xs = take t ys →
    take t <$> f xs = take t <$> f ys.

(** The same with a time stride [s]: output step [τ] stands for the input
    steps up to [s * τ + s - 1]. *)
Definition causal_at_stride {A B : Type} (s : nat) (f : list A → option (list B)) : Prop :=
  ∀ (xs ys : list A) (n : nat),
    length xs = length ys →
    take (n * s) xs = take (n * s) ys →
    take n <$> f xs = take n <$> f ys.

(** Pointwise combination of two lists of one length. *)
Fixpoint zip_exact {A B C : Type} (f : A → B → option C) (xs : list A) (ys : list B)
  : option (list C) :=
  match xs, ys with
  | [], [] => Some []
  | x :: xs, y :: ys => c ← f x y; cs ← zip_exact f xs ys; Some (c :: cs)
  | _, _ => None
  end.

(** ** Tensors with values

    A 5D tensor is a list of samples (batch axis), a sample a list of
    frames (time axis), a frame the flattened channel, height and width
    axes.  Values are exact rationals. *)
Module Tensor.
Abbreviation frame := (list Qc).
Abbreviation sample := (list (list Qc)).
Abbreviation tensor := (list (list (list Qc))).

Definition zeros_like (f : frame) : frame := replicate (length f) 0%Qc.

(** The frame that constant padding with value 0 adds to a sample. *)
Definition zero_frame (x : sample) : frame :=
  match x with
  | f :: _ => zeros_like f
  | [] => []
  end.

(** [x + y] for two tensors of one shape. *)
Definition add (x y : tensor) : option tensor :=
  zip_exact (zip_exact (zip_exact (λ a b, Some (a + b)%Qc))) x y.

(** [a * x] for a one-element tensor [a]. *)
Definition smul (a : Qc) (x : tensor) : tensor :=
  fmap (M:=list) (fmap (M:=list) (fmap (M:=list) (Qcmult a))) x.

Definition same_shape (x y : tensor) : Prop :=
  Forall2 (Forall2 (Forall2 (λ _ _ : Qc, True))) x y.

(** The mean of the three frames of a pooling window. *)
Definition avg3 (w : list frame) : frame :=
  match w with
  | [a; b; c] => (λ s, s / Q2Qc 3)%Qc <$> zip_with Qcplus (zip_with Qcplus a b) c
  | _ => []
  end.

(** [nn.AvgPool3d((3, 1, 1), stride=(2, 1, 1))]. *)
Definition avg_pool (x : tensor) : option tensor :=
  mapM (λ sx, Torch.slide (zero_frame sx) avg3 3 1 2 sx) x.

(** The values of a tensor as plain fractions in lowest terms. *)
Definition values (x : tensor) : list (list (list Q)) :=
  fmap (M:=list) (fmap (M:=list) (fmap (M:=list) this)) x.
End Tensor.

(** [nn.Conv3d] with zero padding [padding] on both sides of each axis. *)
Module Conv3d.
Record t := {
  in_channels : Z;
  out_channels : Z;
  kernel_size : Z * Z * Z;
  stride : Z * Z * Z;
  padding : Z * Z * Z;
  dilation : Z * Z * Z
}.

Section forward.
Context {A B : Type}.
Variable zero : A.
Variable spatial_pad : string → Z * Z → Z * Z → A → A.
Variable K : list A → B.

Definition forward (self : t) (x : list A) : option (list B) :=
  let '(pt, ph, pw) := padding self in
  x ← Torch.pad_front zero "constant" pt x;
  let x := Torch.pad_back_constant zero pt x in
  let x := spatial_pad "constant" (pw, pw) (ph, ph) <$> x in
  Torch.conv_time zero K (kernel_size self).1.1 (dilation self).1.1 (stride self).1.1 x.
End forward.
End Conv3d.

(** [make_conv_cls]: the causal layer or the plain one. *)
Inductive conv_cls :=
  | CausalConv (c : VidTokCausalConv3d.t)
  | PlainConv (c : Conv3d.t).

Section mixed_blocks.
(** The frame-level pieces of the runtime: padding inside a frame, the
    learned kernel's action on a window of frames, and [torch.sigmoid]. *)
Variable spatial_pad : string → Z * Z → Z * Z → Tensor.frame → Tensor.frame.
Variable K : list Tensor.frame → Tensor.frame.
Variable sigmoid : Qc → Qc.

Definition conv_forward (c : conv_cls) (x : Tensor.tensor) : option Tensor.tensor :=
  mapM (λ sx,
    match c with
    | CausalConv c => VidTokCausalConv3d.forward (Tensor.zero_frame sx) spatial_pad K c sx
    | PlainConv c => Conv3d.forward (Tensor.zero_frame sx) spatial_pad K c sx
    end) x.

(** [F.pad(x, (0, 0, 0, 0, 1, 0), mode="constant", value=0)] *)
Definition pad_time_front1 (x : Tensor.tensor) : option Tensor.tensor :=
  mapM (λ sx, Torch.pad_front (Tensor.zero_frame sx) "constant" 1 sx) x.

(** [F.pad(x, (0, 0, 0, 0, 0, 1), mode="constant", value=0)] *)
Definition pad_time_back1 (x : Tensor.tensor) : Tensor.tensor :=
  (λ sx, Torch.pad_back_constant (Tensor.zero_frame sx) 1 sx) <$> x.

Record VidTokDownsample3D := {
  down_is_causal : bool;
  down_conv : conv_cls;
  down_mix_factor : Qc
}.

Definition VidTokDownsample3D_init (in_channels out_channels : Z) (mix_factor : Qc)
    (is_causal : bool) : VidTokDownsample3D :=
  {| down_is_causal := is_causal;
     down_conv :=
       if is_causal
       then CausalConv (VidTokCausalConv3d.init in_channels out_channels (PyInt 3) "constant"
                          (PyInt 1) (PyTuple (2, 1, 1)))
       else PlainConv {| Conv3d.in_channels := in_channels; Conv3d.out_channels := out_channels;
                         Conv3d.kernel_size := (3, 3, 3); Conv3d.stride := (2, 1, 1);
                         Conv3d.padding := (0, 1, 1); Conv3d.dilation := (1, 1, 1) |};
     down_mix_factor := mix_factor |}.

(** [x1] of [VidTokDownsample3D.forward]: the average-pooling path. *)
Definition down_x1 (self : VidTokDownsample3D) (x : Tensor.tensor) : option Tensor.tensor :=
  if down_is_causal self
  then x ← pad_time_front1 x; Tensor.avg_pool x
  else Tensor.avg_pool (pad_time_back1 x).

(** [x2] of [VidTokDownsample3D.forward]: the convolution path. *)
Definition down_x2 (self : VidTokDownsample3D) (x : Tensor.tensor) : option Tensor.tensor :=
  if down_is_causal self
  then conv_forward (down_conv self) x
  else conv_forward (down_conv self) (pad_time_back1 x).

Definition VidTokDownsample3D_forward (self : VidTokDownsample3D) (x : Tensor.tensor)
  : option Tensor.tensor :=
  let alpha := sigmoid (down_mix_factor self) in
  x1 ← down_x1 self x;
  x2 ← down_x2 self x;
  Tensor.add (Tensor.smul alpha x1) (Tensor.smul (1 - alpha)%Qc x2).

Record VidTokUpsample3D := {
  up_conv : conv_cls;
  up_mix_factor : Qc
}.

Definition VidTokUpsample3D_init (in_channels out_channels : Z) (mix_factor : Qc)
    (is_causal : bool) : VidTokUpsample3D :=
  {| up_conv :=
       if is_causal
       then CausalConv (VidTokCausalConv3d.init in_channels out_channels (PyInt 3) "constant"
                          (PyInt 1) (PyInt 1))
       else PlainConv {| Conv3d.in_channels := in_channels; Conv3d.out_channels := out_channels;
                         Conv3d.kernel_size := (3, 3, 3); Conv3d.stride := (1, 1, 1);
                         Conv3d.padding := (1, 1, 1); Conv3d.dilation := (1, 1, 1) |};
     up_mix_factor := mix_factor |}.

(** The interpolated [x] of [VidTokUpsample3D.forward]: every sample on its
    own, then concatenated along the batch axis. *)
Definition up_x (x : Tensor.tensor) : Tensor.tensor :=
  let xlst := (λ sx, Torch.interpolate_nearest2 <$> [sx]) <$> x in
  concat xlst.

Definition VidTokUpsample3D_forward (self : VidTokUpsample3D) (x : Tensor.tensor)
  : option Tensor.tensor :=
  let alpha := sigmoid (up_mix_factor self) in
  let x := up_x x in
  x_ ← conv_forward (up_conv self) x;
  Tensor.add (Tensor.smul alpha x) (Tensor.smul (1 - alpha)%Qc x_).
End mixed_blocks.

(** Stand-ins for small runs: a sigmoid that saturates, a kernel that sums
    the frames of its window value by value, and no padding inside frames. *)
Definition saturating_sigmoid (m : Qc) : Qc :=
  if Qclt_le_dec m (Q2Qc (-100)) then 0%Qc
  else if Qclt_le_dec (Q2Qc 100) m then 1%Qc
  else Q2Qc (1 # 2).

Definition sum_frames (w : list Tensor.frame) : Tensor.frame :=
  match w with
  | [] => []
  | f :: fs => foldl (zip_with Qcplus) f fs
  end.

Definition no_spatial_pad (mode : string) (w h : Z * Z) (f : Tensor.frame) : Tensor.frame := f.

(** A tensor for small runs: one sample, four frames, one value per frame. *)
Definition ramp : Tensor.tensor :=
  [[[Q2Qc 1]; [Q2Qc 2]; [Q2Qc 3]; [Q2Qc 4]]].

(** ** Shapes

    A shape is the list of the axis sizes of a tensor, as [x.shape].  The
    layers are followed on shapes: a layer returns [None] where the runtime
    raises (channel mismatch, window larger than the padded input, operands
    of a sum with different shapes). *)
Module Shape.
Abbreviation shape := (list Z).

(** One axis under a window: kernel size, dilation, stride, padding before
    and after. *)
Definition axis_out (a : Z * Z * Z * Z * Z) (n : Z) : option Z :=
  let '(k, d, s, pl, pr) := a in
  let n' := n + pl + pr in
  if (k <=? 0) || (d <=? 0) || (s <=? 0) || (n' <? d * (k - 1) + 1) then None
  else Some ((n' - d * (k - 1) - 1) / s + 1).

(** A convolution as the shape sees it. *)
Record conv := {
  in_channels : Z;
  out_channels : Z;
  axes : list (Z * Z * Z * Z * Z)
}.

Definition conv_forward (c : conv) (x : shape) : option shape :=
  match x with
  | b :: ch :: dims =>
      if ch =? in_channels c
      then dims ← zip_exact (λ a n, axis_out a n) (axes c) dims;
           Some (b :: out_channels c :: dims)
      else None
  | _ => None
  end.

(** [nn.Conv1d], [nn.Conv2d], [nn.Conv3d] with one kernel size, stride and
    padding for all [n] axes. *)
Definition nn_conv (n : nat) (cin cout kernel_size stride padding : Z) : conv :=
  {| in_channels := cin; out_channels := cout;
     axes := replicate n (kernel_size, 1, stride, padding, padding) |}.

Definition of_causal1d (c : VidTokCausalConv1d.t) : conv :=
  {| in_channels := VidTokCausalConv1d.in_channels c;
     out_channels := VidTokCausalConv1d.out_channels c;
     axes := [(VidTokCausalConv1d.kernel_size c, VidTokCausalConv1d.dilation c,
               VidTokCausalConv1d.stride c,
               (VidTokCausalConv1d.time_causal_padding c).1,
               (VidTokCausalConv1d.time_causal_padding c).2)] |}.

Definition of_causal3d (c : VidTokCausalConv3d.t) : conv :=
  let '(kt, kh, kw) := VidTokCausalConv3d.kernel_size c in
  let '(dt, dh, dw) := VidTokCausalConv3d.dilation c in
  let '(st, sh, sw) := VidTokCausalConv3d.stride c in
  let '(wl, wr, hl, hr, tl, tr) := VidTokCausalConv3d.time_causal_padding c in
  {| in_channels := VidTokCausalConv3d.in_channels c;
     out_channels := VidTokCausalConv3d.out_channels c;
     axes := [(kt, dt, st, tl, tr); (kh, dh, sh, hl, hr); (kw, dw, sw, wl, wr)] |}.

Definition of_conv3d (c : Conv3d.t) : conv :=
  let '(kt, kh, kw) := Conv3d.kernel_size c in
  let '(dt, dh, dw) := Conv3d.dilation c in
  let '(st, sh, sw) := Conv3d.stride c in
  let '(pt, ph, pw) := Conv3d.padding c in
  {| in_channels := Conv3d.in_channels c;
     out_channels := Conv3d.out_channels c;
     axes := [(kt, dt, st, pt, pt); (kh, dh, sh, ph, ph); (kw, dw, sw, pw, pw)] |}.

Definition of_conv_cls (c : conv_cls) : conv :=
  match c with
  | CausalConv c => of_causal3d c
  | PlainConv c => of_conv3d c
  end.

(** Modelled from the spec: [VidTokLayerNorm] (module [..normalization], not
    among the sources), "a learned layer-normalization variant": it keeps the
    shape and normalises over the channel axis, whose size is [dim]. *)
Definition layer_norm (dim : Z) (x : shape) : option shape :=
  match x with
  | _ :: c :: _ => if c =? dim then Some x else None
  | _ => None
  end.

(** [a + b] for two tensors of one shape; sums that the runtime would
    only accept by broadcasting are not followed. *)
Definition add (a b : shape) : option shape :=
  if decide (a = b) then Some a else None.

(** [rearrange(x, "b c t h w -> (b t) c h w")] *)
Definition merge_bt (x : shape) : option shape :=
  match x with
  | [b; c; t; h; w] => Some [b * t; c; h; w]
  | _ => None
  end.

(** [rearrange(x, "(b t) c h w -> b c t h w", b=B, t=T)] *)
Definition split_bt (B T : Z) (x : shape) : option shape :=
  match x with
  | [bt; c; h; w] => if bt =? B * T then Some [B; c; T; h; w] else None
  | _ => None
  end.

(** [rearrange(x, "b c t h w -> (b h w) c t")] *)
Definition merge_bhw (x : shape) : option shape :=
  match x with
  | [b; c; t; h; w] => Some [b * h * w; c; t]
  | _ => None
  end.

(** [rearrange(x, "(b h w) c t -> b c t h w", b=B, h=H, w=W)] *)
Definition split_bhw (B H W : Z) (x : shape) : option shape :=
  match x with
  | [bhw; c; t] => if bhw =? B * H * W then Some [B; c; t; H; W] else None
  | _ => None
  end.

(** [nn.AvgPool3d((3, 1, 1), stride=(2, 1, 1))] *)
Definition avg_pool (x : shape) : option shape :=
  match x with
  | [b; c; t; h; w] => t ← axis_out (3, 1, 2, 0, 0) t; Some [b; c; t; h; w]
  | _ => None
  end.

(** [F.pad] by one frame on the time axis, at either end. *)
Definition pad_time1 (x : shape) : option shape :=
  match x with
  | [b; c; t; h; w] => Some [b; c; t + 1; h; w]
  | _ => None
  end.

Definition VidTokDownsample3D_forward (self : VidTokDownsample3D) (x : shape) : option shape :=
  if down_is_causal self then
    x1 ← pad_time1 x ≫= avg_pool;
    x2 ← conv_forward (of_conv_cls (down_conv self)) x;
    add x1 x2
  else
    x ← pad_time1 x;
    x1 ← avg_pool x;
    x2 ← conv_forward (of_conv_cls (down_conv self)) x;
    add x1 x2.

(** The interpolation doubles the time axis of every sample; [torch.cat]
    of the per-sample results needs at least one sample. *)
Definition VidTokUpsample3D_forward (self : VidTokUpsample3D) (x : shape) : option shape :=
  match x with
  | [b; c; t; h; w] =>
      if b <=? 0 then None
      else
        let x := [b; c; 2 * t; h; w] in
        x_ ← conv_forward (of_conv_cls (up_conv self)) x;
        add x x_
  | _ => None
  end.
End Shape.

(** Modelled from the spec: [VidTokDownsample2D] (module [..downsampling], not
    among the sources), "spatially downsample by 2×": a layer over
    [channels] channels that halves height and width of a 4D tensor. *)
Module VidTokDownsample2D.
Record t := { channels : Z }.

Definition forward_shape (self : t) (x : Shape.shape) : option Shape.shape :=
  match x with
  | [n; c; h; w] => if c =? channels self then Some [n; c; h / 2; w / 2] else None
  | _ => None
  end.
End VidTokDownsample2D.

(** Modelled from the spec: [VidTokUpsample2D] (module [..upsampling], not
    among the sources), "spatial upsample", the mirror of the downsampling
    by 2×: a layer over [channels] channels that doubles height and width of
    a 4D tensor. *)
Module VidTokUpsample2D.
Record t := { channels : Z }.

Definition forward_shape (self : t) (x : Shape.shape) : option Shape.shape :=
  match x with
  | [n; c; h; w] => if c =? channels self then Some [n; c; 2 * h; 2 * w] else None
  | _ => None
  end.
End VidTokUpsample2D.

(** The block types that pass the assertion [btype in ['1d', '2d', '3d']]. *)
Inductive btype := B1d | B2d | B3d.

Module VidTokResnetBlock.
Record t := {
  in_channels : Z;
  out_channels : Z;
  use_conv_shortcut : bool;
  norm1 : Z;
  conv1 : Shape.conv;
  norm2 : Z;
  conv2 : Shape.conv;
  conv_shortcut : option Shape.conv;
  nin_shortcut : option Shape.conv
}.

(** [make_conv_cls(cin, cout, kernel_size=k, stride=s, padding=p)]; the
    causal layers drop the [padding] keyword. *)
Definition make_conv_cls (bt : btype) (is_causal : bool)
    (cin cout kernel_size stride padding : Z) : Shape.conv :=
  match bt with
  | B2d => Shape.nn_conv 2 cin cout kernel_size stride padding
  | B1d =>
      if is_causal
      then Shape.of_causal1d (VidTokCausalConv1d.init cin cout kernel_size "constant" 1 stride)
      else Shape.nn_conv 1 cin cout kernel_size stride padding
  | B3d =>
      if is_causal
      then Shape.of_causal3d
             (VidTokCausalConv3d.init cin cout (PyInt kernel_size) "constant"
                (PyInt 1) (PyInt stride))
      else Shape.nn_conv 3 cin cout kernel_size stride padding
  end.

(** [__init__]; the time embedding has 0 channels everywhere in this model
    and dropout does not touch shapes, neither is kept. *)
Definition init (in_channels : Z) (out_channels : option Z) (conv_shortcut : bool)
    (bt : btype) (is_causal : bool) : t :=
  let out_channels := default in_channels out_channels in
  {| in_channels := in_channels;
     out_channels := out_channels;
     use_conv_shortcut := conv_shortcut;
     norm1 := in_channels;
     conv1 := make_conv_cls bt is_causal in_channels out_channels 3 1 1;
     norm2 := out_channels;
     conv2 := make_conv_cls bt is_causal out_channels out_channels 3 1 1;
     conv_shortcut :=
       if bool_decide (in_channels ≠ out_channels) && conv_shortcut
       then Some (make_conv_cls bt is_causal in_channels out_channels 3 1 1) else None;
     nin_shortcut :=
       if bool_decide (in_channels ≠ out_channels) && negb conv_shortcut
       then Some (make_conv_cls bt is_causal in_channels out_channels 1 1 0) else None |}.

(** [forward] with [temb = None]. *)
Definition forward_shape (self : t) (x : Shape.shape) : option Shape.shape :=
  h ← Shape.layer_norm (norm1 self) x;
  h ← Shape.conv_forward (conv1 self) h;
  h ← Shape.layer_norm (norm2 self) h;
  h ← Shape.conv_forward (conv2 self) h;
  x ← (if bool_decide (in_channels self ≠ out_channels self) then
         if use_conv_shortcut self
         then c ← conv_shortcut self; Shape.conv_forward c x
         else c ← nin_shortcut self; Shape.conv_forward c x
       else Some x);
  Shape.add x h.
End VidTokResnetBlock.

Module VidTokAttnBlockWrapper.
Record t := {
  in_channels : Z;
  norm : Z;
  q : Shape.conv;
  k : Shape.conv;
  v : Shape.conv;
  proj_out : Shape.conv
}.

Definition make_conv_cls (is_causal : bool) (cin cout kernel_size stride padding : Z)
  : Shape.conv :=
  if is_causal
  then Shape.of_causal3d
         (VidTokCausalConv3d.init cin cout (PyInt kernel_size) "constant"
            (PyInt 1) (PyInt stride))
  else Shape.nn_conv 3 cin cout kernel_size stride padding.

Definition init (in_channels : Z) (is_causal : bool) : t :=
  {| in_channels := in_channels;
     norm := in_channels;
     q := make_conv_cls is_causal in_channels in_channels 1 1 0;
     k := make_conv_cls is_causal in_channels in_channels 1 1 0;
     v := make_conv_cls is_causal in_channels in_channels 1 1 0;
     proj_out := make_conv_cls is_causal in_channels in_channels 1 1 0 |}.

(** [attention]: the attention output has the shape of [q]; [k] and [v]
    come from the same input with the same layer parameters. *)
Definition attention_shape (self : t) (h_ : Shape.shape) : option Shape.shape :=
  h_ ← Shape.layer_norm (norm self) h_;
  q_ ← Shape.conv_forward (q self) h_;
  k_ ← Shape.conv_forward (k self) h_;
  v_ ← Shape.conv_forward (v self) h_;
  match q_ with
  | [b; c; t; h; w] => if decide (k_ = q_ ∧ v_ = q_) then Some q_ else None
  | _ => None
  end.

Definition forward_shape (self : t) (x : Shape.shape) : option Shape.shape :=
  h_ ← attention_shape self x;
  h_ ← Shape.conv_forward (proj_out self) h_;
  Shape.add x h_.
End VidTokAttnBlockWrapper.

(** [spatial_temporal_resblk] with [temb = None]: the spatial block frame by
    frame, then the temporal block pixel column by pixel column. *)
Definition spatial_temporal_resblk_shape (x : Shape.shape)
    (block_s block_t : VidTokResnetBlock.t) : option Shape.shape :=
  match x with
  | [B; C; T; H; W] =>
      x ← Shape.merge_bt x;
      x ← VidTokResnetBlock.forward_shape block_s x;
      x ← Shape.split_bt B T x;
      x ← Shape.merge_bhw x;
      x ← VidTokResnetBlock.forward_shape block_t x;
      Shape.split_bhw B H W x
  | _ => None
  end.

(** ** Exceptions *)

Inductive exn :=
  | AssertionError
  | AttributeError (attribute : string)
  | UnboundLocalError (variable : string)
  | IndexError
  | OverflowError
  | ValueError (message : string).

Inductive result (A : Type) :=
  | Ok (a : A)
  | Raise (e : exn).
Arguments Ok {A} a.
Arguments Raise {A} e.

#[export] Instance result_ret : MRet result := λ A a, Ok a.
#[export] Instance result_bind : MBind result := λ A B f r,
  match r with
  | Ok a => f a
  | Raise e => Raise e
  end.

(** A loop over indices that threads a state and stops at the first failure. *)
Fixpoint loop {S : Type} (body : nat → S → option S) (indices : list nat) (s : S)
  : option S :=
  match indices with
  | [] => Some s
  | i :: indices => s ← body i s; loop body indices s
  end.

(** ** The encoder *)
Module VidTokEncoder3D.
Record level := {
  block : list VidTokResnetBlock.t;
  downsample : option VidTokDownsample2D.t
}.

Record level_temporal := {
  tblock : list VidTokResnetBlock.t;
  tdownsample : option VidTokDownsample3D
}.

Record t := {
  is_causal : bool;
  ch : Z;
  num_resolutions : Z;
  num_res_blocks : Z;
  in_channels : Z;
  conv_in : Shape.conv;
  down : list level;
  tempo_ds : list Z;
  down_temporal : list level_temporal;
  mid_block_1 : VidTokResnetBlock.t;
  mid_attn_1 : VidTokAttnBlockWrapper.t;
  mid_block_2 : VidTokResnetBlock.t;
  norm_out : Z;
  conv_out : Shape.conv
}.

(** The loop over [i_block]: the blocks of one level and the value of
    [block_in] after it. *)
Fixpoint init_blocks (n : nat) (block_in block_out : Z) (is_causal : bool)
  : list VidTokResnetBlock.t * list VidTokResnetBlock.t * Z :=
  match n with
  | O => ([], [], block_in)
  | S n =>
      let b := VidTokResnetBlock.init block_in (Some block_out) false B2d true in
      let bt := VidTokResnetBlock.init block_out (Some block_out) false B1d is_causal in
      let '(block, block_temporal, block_in) := init_blocks n block_out block_out is_causal in
      (b :: block, bt :: block_temporal, block_in)
  end.

(** One turn of the loop over [i_level]. *)
Definition init_level (ch : Z) (ch_mult : list Z) (num_res_blocks : Z) (is_causal : bool)
    (num_resolutions : Z) (tempo_ds : list Z) (i_level : nat)
  : level * level_temporal * Z :=
  let in_ch_mult := 1 :: ch_mult in
  let block_in := ch * default 0 (in_ch_mult !! i_level) in
  let block_out := ch * default 0 (ch_mult !! i_level) in
  let '(block, block_temporal, block_in) :=
    init_blocks (Z.to_nat num_res_blocks) block_in block_out is_causal in
  let not_last := bool_decide (Z.of_nat i_level ≠ num_resolutions - 1) in
  ({| block := block;
      downsample :=
        if not_last then Some {| VidTokDownsample2D.channels := block_in |} else None |},
   {| tblock := block_temporal;
      tdownsample :=
        if not_last && bool_decide (Z.of_nat i_level ∈ tempo_ds)
        then Some (VidTokDownsample3D_init block_in block_in (Q2Qc 2) is_causal)
        else None |},
   block_in).

(** [__init__].  With an empty [ch_mult] the level loop never binds
    [block_in] and the middle block's construction raises. *)
Definition init (in_channels ch : Z) (ch_mult : list Z) (num_res_blocks z_channels : Z)
    (double_z is_causal : bool) : result t :=
  let num_resolutions := Z.of_nat (length ch_mult) in
  let conv_in := VidTokResnetBlock.make_conv_cls B3d is_causal in_channels ch 3 1 1 in
  let tempo_ds := [num_resolutions - 2; num_resolutions - 3] in
  let levels :=
    init_level ch ch_mult num_res_blocks is_causal num_resolutions tempo_ds
      <$> seq 0 (length ch_mult) in
  match last levels with
  | None => Raise (UnboundLocalError "block_in")
  | Some (_, _, block_in) =>
      Ok {| is_causal := is_causal;
            ch := ch;
            num_resolutions := num_resolutions;
            num_res_blocks := num_res_blocks;
            in_channels := in_channels;
            conv_in := conv_in;
            down := (λ l, l.1.1) <$> levels;
            tempo_ds := tempo_ds;
            down_temporal := (λ l, l.1.2) <$> levels;
            mid_block_1 := VidTokResnetBlock.init block_in (Some block_in) false B3d is_causal;
            mid_attn_1 := VidTokAttnBlockWrapper.init block_in is_causal;
            mid_block_2 := VidTokResnetBlock.init block_in (Some block_in) false B3d is_causal;
            norm_out := block_in;
            conv_out :=
              VidTokResnetBlock.make_conv_cls B3d is_causal block_in
                (if double_z then 2 * z_channels else z_channels) 3 1 1 |}
  end.

(** One turn of the loop over [i_level] in [forward]; the state is the
    last entry of [hs] with the tracked [B] and [T]. *)
Definition level_forward (self : t) (i_level : nat) (st : Shape.shape * Z * Z)
  : option (Shape.shape * Z * Z) :=
  let '(h, B, T) := st in
  d ← down self !! i_level;
  dt ← down_temporal self !! i_level;
  h ← loop (λ i_block h,
              bs ← block d !! i_block;
              bt ← tblock dt !! i_block;
              spatial_temporal_resblk_shape h bs bt)
         (seq 0 (Z.to_nat (num_res_blocks self))) h;
  if bool_decide (Z.of_nat i_level ≠ num_resolutions self - 1) then
    htmp ← Shape.merge_bt h;
    ds ← downsample d;
    htmp ← VidTokDownsample2D.forward_shape ds htmp;
    htmp ← Shape.split_bt B T htmp;
    htmp ← (if bool_decide (Z.of_nat i_level ∈ tempo_ds self)
            then ds ← tdownsample dt; Shape.VidTokDownsample3D_forward ds htmp
            else Some htmp);
    match htmp with
    | [B; _; T; _; _] => Some (htmp, B, T)
    | _ => None
    end
  else Some (h, B, T).

Definition forward_shape (self : t) (x : Shape.shape) : option Shape.shape :=
  match x with
  | [B; _; T; H; W] =>
      h ← Shape.conv_forward (conv_in self) x;
      st ← loop (level_forward self) (seq 0 (Z.to_nat (num_resolutions self))) (h, B, T);
      let h := st.1.1 in
      h ← VidTokResnetBlock.forward_shape (mid_block_1 self) h;
      h ← VidTokAttnBlockWrapper.forward_shape (mid_attn_1 self) h;
      h ← VidTokResnetBlock.forward_shape (mid_block_2 self) h;
      h ← Shape.layer_norm (norm_out self) h;
      Shape.conv_forward (conv_out self) h
  | _ => None
  end.
End VidTokEncoder3D.

(** ** The decoder *)
Module VidTokDecoder3D.
Record level := {
  block : list VidTokResnetBlock.t;
  upsample : option VidTokUpsample2D.t
}.

Record level_temporal := {
  tblock : list VidTokResnetBlock.t;
  tupsample : option VidTokUpsample3D
}.

Record t := {
  is_causal : bool;
  ch : Z;
  num_resolutions : Z;
  num_res_blocks : Z;
  conv_in : Shape.conv;
  mid_block_1 : VidTokResnetBlock.t;
  mid_attn_1 : VidTokAttnBlockWrapper.t;
  mid_block_2 : VidTokResnetBlock.t;
  up : list level;
  tempo_us : list Z;
  up_temporal : list level_temporal;
  norm_out : Z;
  conv_out : Shape.conv
}.

Fixpoint init_blocks (n : nat) (bt : btype) (block_in block_out : Z) (is_causal : bool)
  : list VidTokResnetBlock.t * Z :=
  match n with
  | O => ([], block_in)
  | S n =>
      let b := VidTokResnetBlock.init block_in (Some block_out) false bt is_causal in
      let '(block, block_in) := init_blocks n bt block_out block_out is_causal in
      (b :: block, block_in)
  end.

(** The first loop over [reversed(range(num_resolutions))]; [up] is the
    list built so far by [self.up.insert(0, up)]. *)
Fixpoint init_up (levels : list nat) (ch : Z) (ch_mult : list Z) (num_res_blocks : Z)
    (block_in : Z) (up : list level) : list level * Z :=
  match levels with
  | [] => (up, block_in)
  | i_level :: levels =>
      let block_out := ch * default 0 (ch_mult !! i_level) in
      let '(block, block_in) :=
        init_blocks (Z.to_nat (num_res_blocks + 1)) B2d block_in block_out true in
      let l := {| block := block;
                  upsample :=
                    if bool_decide (i_level ≠ 0%nat)
                    then Some {| VidTokUpsample2D.channels := block_in |} else None |} in
      init_up levels ch ch_mult num_res_blocks block_in (l :: up)
  end.

(** The second loop, for the temporal blocks. *)
Fixpoint init_up_temporal (levels : list nat) (ch : Z) (ch_mult : list Z)
    (num_res_blocks : Z) (is_causal : bool) (tempo_us : list Z)
    (block_in : Z) (up_temporal : list level_temporal) : list level_temporal * Z :=
  match levels with
  | [] => (up_temporal, block_in)
  | i_level :: levels =>
      let block_in := ch * default 0 (ch_mult !! i_level) in
      let block_out := ch * default 0 (ch_mult !! i_level) in
      let '(block, block_in) :=
        init_blocks (Z.to_nat (num_res_blocks + 1)) B1d block_in block_out is_causal in
      let l := {| tblock := block;
                  tupsample :=
                    if bool_decide (Z.of_nat i_level ∈ tempo_us)
                    then Some (VidTokUpsample3D_init block_in block_in (Q2Qc 2) is_causal)
                    else None |} in
      init_up_temporal levels ch ch_mult num_res_blocks is_causal tempo_us block_in
        (l :: up_temporal)
  end.

(** [__init__]; [ch_mult[self.num_resolutions - 1]] fails on an empty list. *)
Definition init (ch : Z) (ch_mult : list Z) (num_res_blocks z_channels out_channels : Z)
    (is_causal : bool) : result t :=
  let num_resolutions := Z.of_nat (length ch_mult) in
  match last ch_mult with
  | None => Raise IndexError
  | Some m =>
      let block_in := ch * m in
      let conv_in := VidTokResnetBlock.make_conv_cls B3d is_causal z_channels block_in 3 1 1 in
      let mid_block_1 := VidTokResnetBlock.init block_in (Some block_in) false B3d is_causal in
      let mid_attn_1 := VidTokAttnBlockWrapper.init block_in is_causal in
      let mid_block_2 := VidTokResnetBlock.init block_in (Some block_in) false B3d is_causal in
      let tempo_us := [1; 2] in
      let levels := reverse (seq 0 (length ch_mult)) in
      let '(up, block_in) := init_up levels ch ch_mult num_res_blocks block_in [] in
      let '(up_temporal, block_in) :=
        init_up_temporal levels ch ch_mult num_res_blocks is_causal tempo_us block_in [] in
      Ok {| is_causal := is_causal;
            ch := ch;
            num_resolutions := num_resolutions;
            num_res_blocks := num_res_blocks;
            conv_in := conv_in;
            mid_block_1 := mid_block_1;
            mid_attn_1 := mid_attn_1;
            mid_block_2 := mid_block_2;
            up := up;
            tempo_us := tempo_us;
            up_temporal := up_temporal;
            norm_out := block_in;
            conv_out := VidTokResnetBlock.make_conv_cls B3d is_causal block_in out_channels 3 1 1 |}
  end.

Definition level_forward (self : t) (i_level : nat) (st : Shape.shape * Z * Z)
  : option (Shape.shape * Z * Z) :=
  let '(h, B, T) := st in
  u ← up self !! i_level;
  ut ← up_temporal self !! i_level;
  h ← loop (λ i_block h,
              bs ← block u !! i_block;
              bt ← tblock ut !! i_block;
              spatial_temporal_resblk_shape h bs bt)
         (seq 0 (Z.to_nat (num_res_blocks self + 1))) h;
  if bool_decide (i_level ≠ 0%nat) then
    h ← Shape.merge_bt h;
    us ← upsample u;
    h ← VidTokUpsample2D.forward_shape us h;
    h ← Shape.split_bt B T h;
    h ← (if bool_decide (Z.of_nat i_level ∈ tempo_us self)
         then us ← tupsample ut; Shape.VidTokUpsample3D_forward us h
         else Some h);
    match h with
    | [B; _; T; _; _] => Some (h, B, T)
    | _ => None
    end
  else Some (h, B, T).

Definition forward_shape (self : t) (z : Shape.shape) : option Shape.shape :=
  match z with
  | [B; _; T; H; W] =>
      h ← Shape.conv_forward (conv_in self) z;
      h ← VidTokResnetBlock.forward_shape (mid_block_1 self) h;
      h ← VidTokAttnBlockWrapper.forward_shape (mid_attn_1 self) h;
      h ← VidTokResnetBlock.forward_shape (mid_block_2 self) h;
      st ← loop (level_forward self)
              (reverse (seq 0 (Z.to_nat (num_resolutions self)))) (h, B, T);
      let h := st.1.1 in
      h ← Shape.layer_norm (norm_out self) h;
      Shape.conv_forward (conv_out self) h
  | _ => None
  end.
End VidTokDecoder3D.

(** ** Python integers, slices and ranges *)

(** *** Floats

    A Python [float] is an IEEE 754 double: 53 bits of precision, exponents
    up to 1024, every operation rounded to the nearest double, ties to
    even.  The operations are those of the standard library's
    specification of floating-point arithmetic. *)
Module Float.
Definition t : Type := SpecFloat.spec_float.
Definition prec : Z := 53.
Definition emax : Z := 1024.

Definition mul : t → t → t := SpecFloat.SFmul prec emax.
Definition sub : t → t → t := SpecFloat.SFsub prec emax.
Definition div : t → t → t := SpecFloat.SFdiv prec emax.

(** The double nearest to the fraction [n / d]. *)
Definition of_fraction (n : Z) (d : positive) : t :=
  match n with
  | Z0 => SpecFloat.S754_zero false
  | Zpos m => div (SpecFloat.S754_finite false m 0) (SpecFloat.S754_finite false d 0)
  | Zneg m => div (SpecFloat.S754_finite true m 0) (SpecFloat.S754_finite false d 0)
  end.

(** A float that is given by a rational number, as a literal gives it:
    the double nearest to the number. *)
Definition of_Q (q : Q) : t := of_fraction (Qnum q) (Qden q).

Definition one : t := of_Q 1.

Definition is_zero (x : t) : bool :=
  match x with
  | SpecFloat.S754_zero _ => true
  | _ => false
  end.

(** A result that has to be a number: not an infinity, not a NaN. *)
Definition finite (x : t) : option t :=
  match x with
  | SpecFloat.S754_zero _ | SpecFloat.S754_finite _ _ _ => Some x
  | _ => None
  end.

(** [float(a)], as the arithmetic converts an integer operand; an integer
    beyond the doubles raises [OverflowError]. *)
Definition of_int (a : Z) : option t :=
  finite (SpecFloat.binary_normalize prec emax a 0 false).

(** [a / b] for two integers: the double nearest to the quotient;
    [ZeroDivisionError] for [b = 0], [OverflowError] for a quotient beyond
    the doubles. *)
Definition truediv (a b : Z) : option t :=
  match b with
  | Z0 => None
  | Zpos d => finite (of_fraction a d)
  | Zneg d => finite (of_fraction (- a) d)
  end.

(** [2 ** e] for a negative integer [e]: a float. *)
Definition pow2_neg (e : Z) : t := SpecFloat.binary_normalize prec emax 1 e false.

(** [int(x)]: truncation towards zero; an infinity or a NaN raises. *)
Definition to_int (x : t) : option Z :=
  match x with
  | SpecFloat.S754_zero _ => Some 0
  | SpecFloat.S754_finite s m e =>
      let a := if 0 <=? e then Z.pos m * 2 ^ e else Z.pos m / 2 ^ (- e) in
      Some (if s then - a else a)
  | _ => None
  end.
End Float.

(** [int(a / 2 ** e)] for integers [a] and [e]: [2 ** e] is an integer for
    [0 <= e] and a float for [e < 0], [/] is the true division and [int]
    truncates towards zero.  [None] where Python raises: [OverflowError] for
    a quotient beyond the doubles ([ZeroDivisionError] once [2 ** e] has
    underflowed to [0.0], which no [e] that is one less than a length
    does). *)
Definition int_div_pow2 (a e : Z) : option Z :=
  if 0 <=? e then Float.truediv a (2 ^ e) ≫= Float.to_int
  else
    x ← Float.of_int a;
    if Float.is_zero (Float.pow2_neg e) then None
    else Float.to_int (Float.div x (Float.pow2_neg e)).

(** [int(tile_min * (1 - factor))] for an integer [tile_min] and a float
    [factor]: the distance between the starts of two tiles. *)
Definition tile_overlap (tile_min : Z) (factor : Q) : option Z :=
  x ← Float.of_int tile_min;
  Float.to_int (Float.mul x (Float.sub Float.one (Float.of_Q factor))).

(** [int(tile_min * factor)]: the number of rows or columns that are
    blended. *)
Definition tile_blend_extent (tile_min : Z) (factor : Q) : option Z :=
  x ← Float.of_int tile_min;
  Float.to_int (Float.mul x (Float.of_Q factor)).

(** [int(math.log(c, 8))] for [0 < c], in exact arithmetic: the largest [k]
    with [8 ^ k <= c].  (The double-precision quotient [log(c) / log(8)]
    truncates to the same integer for the codebook sizes in use; it can
    round up to the next integer just below a very large power of 8.) *)
Definition int_log8 (c : Z) : Z := Z.log2 c / 3.

(** The index [i] of a slice bound on an axis of length [n]. *)
Definition slice_bound (n i : Z) : Z :=
  if i <? 0 then Z.max 0 (n + i) else Z.min i n.

(** Length of [x[start:stop]] on an axis of length [n]. *)
Definition slice_len (n start stop : Z) : Z :=
  Z.max 0 (slice_bound n stop - slice_bound n start).

(** Length of [x[start:]] on an axis of length [n]. *)
Definition slice_from_len (n start : Z) : Z :=
  Z.max 0 (n - slice_bound n start).

(** [range(0, stop, step)]; a zero step raises. *)
Definition py_range (stop step : Z) : option (list Z) :=
  if step =? 0 then None
  else if 0 <? step then
    Some ((λ k, Z.of_nat k * step) <$> seq 0 (Z.to_nat ((stop + step - 1) / step)))
  else
    Some ((λ k, Z.of_nat k * step) <$> seq 0 (Z.to_nat ((- stop - step - 1) / (- step)))).

(** [a or b] for an optional integer [a], and for an optional float. *)
Definition or_int (a : option Z) (b : Z) : Z :=
  match a with
  | Some v => if v =? 0 then b else v
  | None => b
  end.

Definition or_float (a : option Q) (b : Q) : Q :=
  match a with
  | Some v => if Qeq_bool v 0 then b else v
  | None => b
  end.

(** ** The autoencoder *)

(** The constructor arguments; [dropout] touches neither shapes nor the
    checks and is left out. *)
Module Config.
Record t := {
  in_channels : Z;
  out_channels : Z;
  ch : Z;
  ch_mult : list Z;
  z_channels : Z;
  double_z : bool;
  num_res_blocks : Z;
  temporal_compression_ratio : Z;
  regularizer : string;
  codebook_size : Z;
  is_causal : bool;
  sample_height : Z;
  sample_width : Z
}.

(** The defaults of [__init__]. *)
Definition default : t :=
  {| in_channels := 3; out_channels := 3; ch := 128; ch_mult := [1; 2; 4; 4];
     z_channels := 4; double_z := true; num_res_blocks := 2;
     temporal_compression_ratio := 4; regularizer := "kl"; codebook_size := 262144;
     is_causal := true; sample_height := 256; sample_width := 256 |}.
End Config.

Module AutoencoderVidTok.
Record t := {
  config : Config.t;
  is_causal : bool;
  encoder : VidTokEncoder3D.t;
  decoder : VidTokDecoder3D.t;
  temporal_compression_ratio : Z;
  regularizer : string;
  (* the levels of the [FSQRegularizer], when there is one *)
  regularization : option (list Z);
  use_slicing : bool;
  use_tiling : bool;
  tile_sample_min_height : Z;
  tile_sample_min_width : Z;
  tile_latent_min_height : Z;
  tile_latent_min_width : Z;
  tile_overlap_factor_height : Q;
  tile_overlap_factor_width : Q
}.

(** The two assertions of [__init__].  The message of the first one is
    built from [self.regtype], an attribute the class never sets: when the
    assertion fails, formatting the message raises [AttributeError].
    [math.log] raises [ValueError] outside its domain. *)
Definition check_regularizer (regularizer : string) (z_channels codebook_size : Z)
    (double_z : bool) : result (option (list Z)) :=
  if bool_decide (regularizer ∈ ["kl"; "fsq"]) then
    if String.eqb regularizer "fsq" then
      if codebook_size <=? 0 then Raise (ValueError "math domain error")
      else if (z_channels =? int_log8 codebook_size) && negb double_z
           then Ok (Some (replicate (Z.to_nat z_channels) 8))
           else Raise AssertionError
    else Ok None
  else Raise (AttributeError "regtype").

(** The exception of a quotient [int(a / 2 ** e)] that does not return. *)
Definition or_overflow {A : Type} (o : option A) : result A :=
  match o with
  | Some a => Ok a
  | None => Raise OverflowError
  end.

(** [__init__] *)
Definition init (cfg : Config.t) : result t :=
  encoder ← VidTokEncoder3D.init (Config.in_channels cfg) (Config.ch cfg) (Config.ch_mult cfg)
               (Config.num_res_blocks cfg) (Config.z_channels cfg) (Config.double_z cfg)
               (Config.is_causal cfg);
  decoder ← VidTokDecoder3D.init (Config.ch cfg) (Config.ch_mult cfg)
               (Config.num_res_blocks cfg) (Config.z_channels cfg) (Config.out_channels cfg)
               (Config.is_causal cfg);
  regularization ← check_regularizer (Config.regularizer cfg) (Config.z_channels cfg)
                      (Config.codebook_size cfg) (Config.double_z cfg);
  let tile_sample_min_height := Config.sample_height cfg / 2 in
  let tile_sample_min_width := Config.sample_width cfg / 2 in
  let levels := Z.of_nat (length (Config.ch_mult cfg)) in
  tile_latent_min_height ← or_overflow (int_div_pow2 tile_sample_min_height (levels - 1));
  tile_latent_min_width ← or_overflow (int_div_pow2 tile_sample_min_width (levels - 1));
  Ok {| config := cfg;
        is_causal := Config.is_causal cfg;
        encoder := encoder;
        decoder := decoder;
        temporal_compression_ratio := Config.temporal_compression_ratio cfg;
        regularizer := Config.regularizer cfg;
        regularization := regularization;
        use_slicing := false;
        use_tiling := false;
        tile_sample_min_height := tile_sample_min_height;
        tile_sample_min_width := tile_sample_min_width;
        tile_latent_min_height := tile_latent_min_height;
        tile_latent_min_width := tile_latent_min_width;
        tile_overlap_factor_height := 1 # 8;
        tile_overlap_factor_width := 1 # 8 |}.

(** [enable_tiling]: the object after the call.  The assignments run in
    the order of the source; where a quotient [int(a / 2 ** e)] raises, the
    call ends there and the attributes assigned after it keep their
    values. *)
Definition enable_tiling (self : t)
    (tile_sample_min_height tile_sample_min_width : option Z)
    (tile_overlap_factor_height tile_overlap_factor_width : option Q) : t :=
  let tsmh := or_int tile_sample_min_height (AutoencoderVidTok.tile_sample_min_height self) in
  let tsmw := or_int tile_sample_min_width (AutoencoderVidTok.tile_sample_min_width self) in
  let levels := Z.of_nat (length (Config.ch_mult (config self))) in
  let tlmh : option Z := int_div_pow2 tsmh (levels - 1) in
  let tlmw : option Z := tlmh ≫= λ _, int_div_pow2 tsmw (levels - 1) in
  {| config := config self;
     is_causal := is_causal self;
     encoder := encoder self;
     decoder := decoder self;
     temporal_compression_ratio := temporal_compression_ratio self;
     regularizer := regularizer self;
     regularization := regularization self;
     use_slicing := use_slicing self;
     use_tiling := true;
     tile_sample_min_height := tsmh;
     tile_sample_min_width := tsmw;
     tile_latent_min_height := default (AutoencoderVidTok.tile_latent_min_height self) tlmh;
     tile_latent_min_width := default (AutoencoderVidTok.tile_latent_min_width self) tlmw;
     tile_overlap_factor_height :=
       match tlmw with
       | Some _ => or_float tile_overlap_factor_height
                     (AutoencoderVidTok.tile_overlap_factor_height self)
       | None => AutoencoderVidTok.tile_overlap_factor_height self
       end;
     tile_overlap_factor_width :=
       match tlmw with
       | Some _ => or_float tile_overlap_factor_width
                     (AutoencoderVidTok.tile_overlap_factor_width self)
       | None => AutoencoderVidTok.tile_overlap_factor_width self
       end |}.

(** Whether the call of [enable_tiling] raises [OverflowError]. *)
Definition enable_tiling_raises (self : t)
    (tile_sample_min_height tile_sample_min_width : option Z) : bool :=
  let tsmh := or_int tile_sample_min_height (AutoencoderVidTok.tile_sample_min_height self) in
  let tsmw := or_int tile_sample_min_width (AutoencoderVidTok.tile_sample_min_width self) in
  let levels := Z.of_nat (length (Config.ch_mult (config self))) in
  negb (bool_decide (is_Some (int_div_pow2 tsmh (levels - 1))) &&
        bool_decide (is_Some (int_div_pow2 tsmw (levels - 1)))).

Definition set_use_tiling (b : bool) (self : t) : t :=
  {| config := config self; is_causal := is_causal self; encoder := encoder self;
     decoder := decoder self; temporal_compression_ratio := temporal_compression_ratio self;
     regularizer := regularizer self; regularization := regularization self;
     use_slicing := use_slicing self; use_tiling := b;
     tile_sample_min_height := tile_sample_min_height self;
     tile_sample_min_width := tile_sample_min_width self;
     tile_latent_min_height := tile_latent_min_height self;
     tile_latent_min_width := tile_latent_min_width self;
     tile_overlap_factor_height := tile_overlap_factor_height self;
     tile_overlap_factor_width := tile_overlap_factor_width self |}.

Definition set_use_slicing (b : bool) (self : t) : t :=
  {| config := config self; is_causal := is_causal self; encoder := encoder self;
     decoder := decoder self; temporal_compression_ratio := temporal_compression_ratio self;
     regularizer := regularizer self; regularization := regularization self;
     use_slicing := b; use_tiling := use_tiling self;
     tile_sample_min_height := tile_sample_min_height self;
     tile_sample_min_width := tile_sample_min_width self;
     tile_latent_min_height := tile_latent_min_height self;
     tile_latent_min_width := tile_latent_min_width self;
     tile_overlap_factor_height := tile_overlap_factor_height self;
     tile_overlap_factor_width := tile_overlap_factor_width self |}.

Definition disable_tiling : t → t := set_use_tiling false.
Definition enable_slicing : t → t := set_use_slicing true.
Definition disable_slicing : t → t := set_use_slicing false.
(** *** Shapes through [encode], [decode] and [forward] *)

(** [torch.cat(xs, dim)]: at least one tensor, all of one shape away from
    [dim]. *)
Definition cat (dim : nat) (xs : list Shape.shape) : option Shape.shape :=
  match xs with
  | [] => None
  | x :: xs =>
      foldl (λ acc y,
               acc ← acc;
               n ← acc !! dim;
               m ← y !! dim;
               if decide (<[dim := 0]> acc = <[dim := 0]> y)
               then Some (<[dim := n + m]> acc) else None)
        (Some x) xs
  end.

(** [blend_v(a, b, blend_extent)] and [blend_h] return [b]; a positive
    extent combines slices of [a] and [b], which then agree on the other
    axes. *)
Definition blend_shape (dim : nat) (a b : Shape.shape) (blend_extent : Z)
  : option Shape.shape :=
  n ← a !! dim;
  m ← b !! dim;
  let blend_extent := Z.min (Z.min n m) blend_extent in
  if (blend_extent <=? 0) || bool_decide (<[dim := 0]> a = <[dim := 0]> b)
  then Some b else None.

(** [t[:, :, :, i : i + h, j : j + w]] *)
Definition crop_hw (x : Shape.shape) (i h j w : Z) : option Shape.shape :=
  match x with
  | [b; c; t; H; W] => Some [b; c; t; slice_len H i (i + h); slice_len W j (j + w)]
  | _ => None
  end.

(** The first loop nest of [tiled_encode] and [tiled_decode]. *)
Definition tile_rows (net : Shape.shape → option Shape.shape) (x : Shape.shape)
    (height width overlap_height overlap_width tile_height tile_width : Z)
  : option (list (list Shape.shape)) :=
  range_i ← py_range height overlap_height;
  range_j ← py_range width overlap_width;
  mapM (λ i, mapM (λ j, crop_hw x i tile_height j tile_width ≫= net) range_j) range_i.

(** The second loop nest: blend with the tile above and the tile on the
    left, crop, concatenate. *)
Definition stitch_rows (rows : list (list Shape.shape))
    (blend_extent_height blend_extent_width row_limit_height row_limit_width : Z)
  : option Shape.shape :=
  result_rows ←
    mapM (λ '(i, row),
       result_row ←
         mapM (λ '(j, tile),
            tile ← (if bool_decide (0 < i)%nat
                    then above ← (rows !! (i - 1)%nat) ≫= (.!! j);
                         blend_shape 3 above tile blend_extent_height
                    else Some tile);
            tile ← (if bool_decide (0 < j)%nat
                    then left ← row !! (j - 1)%nat;
                         blend_shape 4 left tile blend_extent_width
                    else Some tile);
            crop_hw tile 0 row_limit_height 0 row_limit_width)
           (imap pair row);
       cat 4 result_row)
      (imap pair rows);
  cat 3 result_rows.

Definition tiled_encode_shape (self : t) (x : Shape.shape) : option Shape.shape :=
  match x with
  | [_; _; _; height; width] =>
      overlap_height ←
        tile_overlap (tile_sample_min_height self) (tile_overlap_factor_height self);
      overlap_width ←
        tile_overlap (tile_sample_min_width self) (tile_overlap_factor_width self);
      blend_extent_height ←
        tile_blend_extent (tile_latent_min_height self) (tile_overlap_factor_height self);
      blend_extent_width ←
        tile_blend_extent (tile_latent_min_width self) (tile_overlap_factor_width self);
      let row_limit_height := tile_latent_min_height self - blend_extent_height in
      let row_limit_width := tile_latent_min_width self - blend_extent_width in
      rows ← tile_rows (VidTokEncoder3D.forward_shape (encoder self)) x height width
                overlap_height overlap_width
                (tile_sample_min_height self) (tile_sample_min_width self);
      stitch_rows rows blend_extent_height blend_extent_width row_limit_height row_limit_width
  | _ => None
  end.

Definition tiled_decode_shape (self : t) (z : Shape.shape) : option Shape.shape :=
  match z with
  | [_; _; _; height; width] =>
      overlap_height ←
        tile_overlap (tile_latent_min_height self) (tile_overlap_factor_height self);
      overlap_width ←
        tile_overlap (tile_latent_min_width self) (tile_overlap_factor_width self);
      blend_extent_height ←
        tile_blend_extent (tile_sample_min_height self) (tile_overlap_factor_height self);
      blend_extent_width ←
        tile_blend_extent (tile_sample_min_width self) (tile_overlap_factor_width self);
      let row_limit_height := tile_sample_min_height self - blend_extent_height in
      let row_limit_width := tile_sample_min_width self - blend_extent_width in
      rows ← tile_rows (VidTokDecoder3D.forward_shape (decoder self)) z height width
                overlap_height overlap_width
                (tile_latent_min_height self) (tile_latent_min_width self);
      stitch_rows rows blend_extent_height blend_extent_width row_limit_height row_limit_width
  | _ => None
  end.

Definition _encode_shape (self : t) (x : Shape.shape) : option Shape.shape :=
  match x with
  | [_; _; _; height; width] =>
      if use_tiling self &&
         ((width >? tile_sample_min_width self) || (height >? tile_sample_min_height self))
      then tiled_encode_shape self x
      else VidTokEncoder3D.forward_shape (encoder self) x
  | _ => None
  end.

Definition _decode_shape (self : t) (z : Shape.shape) : option Shape.shape :=
  match z with
  | [_; _; _; height; width] =>
      if use_tiling self &&
         ((width >? tile_latent_min_width self) || (height >? tile_latent_min_height self))
      then tiled_decode_shape self z
      else VidTokDecoder3D.forward_shape (decoder self) z
  | _ => None
  end.

(** [x.split(1)]: one slice of batch size 1 per sample. *)
Definition split1 (x : Shape.shape) : list Shape.shape :=
  match x with
  | b :: dims => replicate (Z.to_nat b) (1 :: dims)
  | [] => []
  end.

(** The tensor [z] of [encode], before the regularizer. *)
Definition encode_z_shape (self : t) (x : Shape.shape) : option Shape.shape :=
  b ← x !! 0%nat;
  if use_slicing self && (b >? 1)
  then encoded_slices ← mapM (_encode_shape self) (split1 x); cat 0 encoded_slices
  else _encode_shape self x.

Definition decode_shape (self : t) (z : Shape.shape) : option Shape.shape :=
  b ← z !! 0%nat;
  if use_slicing self && (b >? 1)
  then decoded_slices ← mapM (_decode_shape self) (split1 z); cat 0 decoded_slices
  else _decode_shape self z.

(** Modelled from the spec: [DiagonalGaussianDistribution] (module [.vae], not
    among the sources), "mean/log-variance packing" along the channel axis:
    [sample] and [mode] return a tensor with half the channels of the
    parameters. *)
Definition posterior_shape (parameters : Shape.shape) : option Shape.shape :=
  match parameters with
  | b :: c :: dims => if c mod 2 =? 0 then Some (b :: c / 2 :: dims) else None
  | _ => None
  end.

(** Modelled from the spec: [FSQRegularizer] (module [.vae], not among the
    sources), "returns the quantized tensor directly": the quantized tensor
    has the shape of the latent. *)
Definition quantized_shape (z : Shape.shape) : option Shape.shape := Some z.

(** [pad_at_dim(x, (time_padding, 0), dim=2, pad_mode="replicate")] *)
Definition pad_at_dim_time (x : Shape.shape) (time_padding : Z) : option Shape.shape :=
  match x with
  | [b; c; t; h; w] =>
      if (t <=? 0) || (t + time_padding <? 0) then None
      else Some [b; c; t + time_padding; h; w]
  | _ => None
  end.

(** [forward]: the shape of the returned sample.  Sampling and taking the
    mode give one shape. *)
Definition forward_shape (self : t) (sample : Shape.shape) : option Shape.shape :=
  let x := sample in
  t ← x !! 2%nat;
  if temporal_compression_ratio self =? 0 then None
  else
    xp ← (if negb (t mod temporal_compression_ratio self =? 0)
          then let time_padding :=
                 temporal_compression_ratio self - t mod temporal_compression_ratio self in
               x ← pad_at_dim_time x time_padding; Some (x, time_padding)
          else Some (x, 0));
    let '(x, time_padding) := xp in
    z ← (if String.eqb (regularizer self) "kl"
         then encode_z_shape self x ≫= posterior_shape
         else encode_z_shape self x ≫= quantized_shape);
    dec ← decode_shape self z;
    match dec with
    | [b; c; t; h; w] => Some [b; c; slice_from_len t time_padding; h; w]
    | _ => None
    end.

End AutoencoderVidTok.

(** The default configuration with another regularizer name. *)
Definition config_with_regularizer (regularizer : string) : Config.t :=
  {| Config.in_channels := 3; Config.out_channels := 3; Config.ch := 128;
     Config.ch_mult := [1; 2; 4; 4]; Config.z_channels := 4; Config.double_z := true;
     Config.num_res_blocks := 2; Config.temporal_compression_ratio := 4;
     Config.regularizer := regularizer; Config.codebook_size := 262144;
     Config.is_causal := true; Config.sample_height := 256; Config.sample_width := 256 |}.

(** ** Tiles and their blending

    A tile is read as its height × width plane at one batch, channel and
    time index: [blend_v] and [blend_h] act alike at every such index.  The
    list of lists [rows] of [tiled_encode] and [tiled_decode] is the store of
    the tile objects; a tile object is named by its place [(i, j)] in it,
    and an assignment into a tile is an update of the store at that place. *)
Module Tiles.
Abbreviation tile := (list (list Qc)).
Abbreviation store := (list (list (list (list Qc)))).

Definition get (s : store) (l : nat * nat) : option tile :=
  s !! l.1 ≫= (.!! l.2).

Definition set (s : store) (l : nat * nat) (t : tile) : store :=
  alter (<[l.2 := t]>) l.1 s.

(** [t.shape[3]] and [t.shape[4]] *)
Definition height (t : tile) : Z := Z.of_nat (length t).
Definition width (t : tile) : Z :=
  match t with
  | r :: _ => Z.of_nat (length r)
  | [] => 0
  end.

(** [a * (1 - y / blend_extent) + b * (y / blend_extent)] *)
Definition mix (y : nat) (blend_extent : Z) (a b : Qc) : Qc :=
  let w := Q2Qc (Z.of_nat y # Z.to_pos blend_extent) in
  (a * (1 - w) + b * w)%Qc.

(** One turn of the loop of [blend_v] on the values of the two tiles: row
    [y] of [b] is assigned. *)
Definition blend_v_row (ta : tile) (blend_extent : Z) (y : nat) (tb : tile) : option tile :=
  ra ← ta !! Z.to_nat (height ta - blend_extent + Z.of_nat y);
  rb ← tb !! y;
  r ← zip_exact (λ a b, Some (mix y blend_extent a b)) ra rb;
  Some (<[y := r]> tb).

(** One turn of the loop of [blend_h]: column [x] of [b] is assigned. *)
Definition blend_h_col (ta : tile) (blend_extent : Z) (x : nat) (tb : tile) : option tile :=
  zip_exact (λ ra rb,
       a ← ra !! Z.to_nat (width ta - blend_extent + Z.of_nat x);
       b ← rb !! x;
       Some (<[x := mix x blend_extent a b]> rb))
    ta tb.

(** [blend_v(a, b, blend_extent)] on the store: [a] and [b] name tile
    objects; every turn reads both objects and writes into [b].  The
    returned tensor is the object [b] itself. *)
Definition blend_v (s : store) (a b : nat * nat) (blend_extent : Z) : option store :=
  ta ← get s a;
  tb ← get s b;
  let blend_extent := Z.min (Z.min (height ta) (height tb)) blend_extent in
  loop (λ y s,
          ta ← get s a;
          tb ← get s b;
          tb ← blend_v_row ta blend_extent y tb;
          Some (set s b tb))
    (seq 0 (Z.to_nat blend_extent)) s.

Definition blend_h (s : store) (a b : nat * nat) (blend_extent : Z) : option store :=
  ta ← get s a;
  tb ← get s b;
  let blend_extent := Z.min (Z.min (width ta) (width tb)) blend_extent in
  loop (λ x s,
          ta ← get s a;
          tb ← get s b;
          tb ← blend_h_col ta blend_extent x tb;
          Some (set s b tb))
    (seq 0 (Z.to_nat blend_extent)) s.

(** [tile[:, :, :, :row_limit_height, :row_limit_width]] *)
Definition crop (row_limit_height row_limit_width : Z) (t : tile) : tile :=
  take (Z.to_nat (slice_bound (width t) row_limit_width))
    <$> take (Z.to_nat (slice_bound (height t) row_limit_height)) t.

(** [torch.cat(tiles, dim=4)]: side by side. *)
Definition cat_w (tiles : list tile) : option tile :=
  match tiles with
  | [] => None
  | t :: tiles =>
      foldl (λ acc t', acc ← acc; zip_exact (λ r r', Some (r ++ r')) acc t') (Some t) tiles
  end.

(** [torch.cat(tiles, dim=3)]: one below the other. *)
Definition cat_h (tiles : list tile) : option tile :=
  match tiles with
  | [] => None
  | t :: tiles' =>
      if forallb (λ t', width t' =? width t) tiles' then Some (concat tiles) else None
  end.

Section stitch.
Variables blend_extent_height blend_extent_width row_limit_height row_limit_width : Z.

(** The body of the loop over [j, tile]: [tile] is the object at
    [(i, j)]. *)
Definition stitch_tile (i j : nat) (s : store) : option store :=
  s ← (if bool_decide (0 < i)%nat
       then blend_v s ((i - 1)%nat, j) (i, j) blend_extent_height
       else Some s);
  if bool_decide (0 < j)%nat
  then blend_h s (i, (j - 1)%nat) (i, j) blend_extent_width
  else Some s.

(** The body of the loop over [i, row].  [result_row] holds views of the
    tiles of the row, read when [torch.cat] copies them. *)
Definition stitch_row (i : nat) (st : store * list tile) : option (store * list tile) :=
  let '(s, result_rows) := st in
  row ← s !! i;
  s ← loop (stitch_tile i) (seq 0 (length row)) s;
  row ← s !! i;
  result_row ← cat_w (crop row_limit_height row_limit_width <$> row);
  Some (s, result_rows ++ [result_row]).

(** The second loop nest of [tiled_encode] and of [tiled_decode], from the
    tiles in [rows]: the store at the end, and the stitched tensor. *)
Definition stitch (rows : store) : option (store * tile) :=
  st ← loop stitch_row (seq 0 (length rows)) (rows, []);
  enc ← cat_h st.2;
  Some (st.1, enc).

(** *** The same on values

    [blend_v] and [blend_h] as functions of the values of two tiles. *)
Definition blend_v_val (ta tb : tile) (blend_extent : Z) : option tile :=
  let blend_extent := Z.min (Z.min (height ta) (height tb)) blend_extent in
  loop (blend_v_row ta blend_extent) (seq 0 (Z.to_nat blend_extent)) tb.

Definition blend_h_val (ta tb : tile) (blend_extent : Z) : option tile :=
  let blend_extent := Z.min (Z.min (width ta) (width tb)) blend_extent in
  loop (blend_h_col ta blend_extent) (seq 0 (Z.to_nat blend_extent)) tb.

(** A row of tiles blended from left to right: [above] is the row of
    tiles handed to [blend_v] (none for the first row), [left] the blended
    tile on the left (none for the first column). *)
Fixpoint blended_row (above : option (list tile)) (left : option tile) (j : nat)
    (row : list tile) : option (list tile) :=
  match row with
  | [] => Some []
  | t :: row =>
      t ← match above with
          | Some above => a ← above !! j; blend_v_val a t blend_extent_height
          | None => Some t
          end;
      t ← match left with
          | Some l => blend_h_val l t blend_extent_width
          | None => Some t
          end;
      rest ← blended_row above (Some t) (S j) row;
      Some (t :: rest)
  end.

(** The claim's reading: the row handed to [blend_v] is the finished
    (top- and left-blended) row above. *)
Fixpoint blended_rows (above : option (list tile)) (rows : store)
  : option (store * list tile) :=
  match rows with
  | [] => Some ([], [])
  | row :: rows =>
      brow ← blended_row above None 0 row;
      result_row ← cat_w (crop row_limit_height row_limit_width <$> brow);
      rest ← blended_rows (Some brow) rows;
      Some (brow :: rest.1, result_row :: rest.2)
  end.

Definition stitch_blended_above (rows : store) : option (store * tile) :=
  st ← blended_rows None rows;
  enc ← cat_h st.2;
  Some (st.1, enc).

(** The other reading: the row handed to [blend_v] is the row above as the
    network returned it. *)
Fixpoint raw_above_rows (above : option (list tile)) (rows : store)
  : option (store * list tile) :=
  match rows with
  | [] => Some ([], [])
  | row :: rows =>
      brow ← blended_row above None 0 row;
      result_row ← cat_w (crop row_limit_height row_limit_width <$> brow);
      rest ← raw_above_rows (Some row) rows;
      Some (brow :: rest.1, result_row :: rest.2)
  end.

Definition stitch_raw_above (rows : store) : option (store * tile) :=
  st ← raw_above_rows None rows;
  enc ← cat_h st.2;
  Some (st.1, enc).
End stitch.

(** A 2 × 2 grid of tiles of height 1 and width 2 for small runs. *)
Definition grid22 : store :=
  [[[[Q2Qc 1; Q2Qc 1]]; [[Q2Qc 2; Q2Qc 2]]];
   [[[Q2Qc 3; Q2Qc 3]]; [[Q2Qc 4; Q2Qc 4]]]].

Definition tile_values (t : tile) : list (list Q) := fmap (M:=list) (fmap (M:=list) this) t.
End Tiles.

(** ** Batches and slicing

    Here a tensor is the list of its samples along the batch axis, with the
    last two entries of its shape; what a sample holds stays abstract. *)
Module Batch.
Record tensor (A : Type) := {
  hw : Z * Z;
  samples : list A
}.
Arguments hw {A} _.
Arguments samples {A} _.

(** [x.split(1)] *)
Definition split1 {A : Type} (x : tensor A) : list (tensor A) :=
  (λ s, {| hw := hw x; samples := [s] |}) <$> samples x.

(** [torch.cat(xs)] along the batch axis: at least one tensor, all of one
    shape away from the batch axis. *)
Definition cat {A : Type} (xs : list (tensor A)) : option (tensor A) :=
  match xs with
  | [] => None
  | x :: rest =>
      if forallb (λ y, bool_decide (hw y = hw x)) rest
      then Some {| hw := hw x; samples := concat (samples <$> xs) |}
      else None
  end.

Section encode.
Context {sample latent : Type}.
(** The networks [self.encoder] and [self.tiled_encode] and the quantizer
    [self.regularization(z)[0]] on tensors; [tiled_encode] is given the six
    tile settings it reads from [self]. *)
Variable encoder : tensor sample → tensor latent.
Variable tiled_encode : Z * Z * Z * Z * Q * Q → tensor sample → tensor latent.
Variable quantize : tensor latent → tensor latent.

Definition tile_settings (self : AutoencoderVidTok.t) : Z * Z * Z * Z * Q * Q :=
  (AutoencoderVidTok.tile_sample_min_height self,
   AutoencoderVidTok.tile_sample_min_width self,
   AutoencoderVidTok.tile_latent_min_height self,
   AutoencoderVidTok.tile_latent_min_width self,
   AutoencoderVidTok.tile_overlap_factor_height self,
   AutoencoderVidTok.tile_overlap_factor_width self).








End encode.
End Batch.


(** ** The pyramid's temporal levels *)

(** The levels of a constructed encoder that have a temporal downsampling
    block, the levels of a constructed decoder at which [forward] runs a
    temporal upsampling block, and the factors they make. *)
Definition temporal_down_levels (enc : VidTokEncoder3D.t) : list nat :=
  filter (λ i, is_Some (VidTokEncoder3D.down_temporal enc !! i
                        ≫= VidTokEncoder3D.tdownsample))
    (seq 0 (Z.to_nat (VidTokEncoder3D.num_resolutions enc))).

Definition temporal_down_factor (enc : VidTokEncoder3D.t) : Z :=
  2 ^ Z.of_nat (length (temporal_down_levels enc)).

Definition temporal_up_levels (dec : VidTokDecoder3D.t) : list nat :=
  filter (λ i, i ≠ 0%nat ∧ Z.of_nat i ∈ VidTokDecoder3D.tempo_us dec)
    (seq 0 (Z.to_nat (VidTokDecoder3D.num_resolutions dec))).

Definition temporal_up_factor (dec : VidTokDecoder3D.t) : Z :=
  2 ^ Z.of_nat (length (temporal_up_levels dec)).

(** The levels named by the spec's set: [L - 2] and [L - 3]. *)
Definition spec_temporal_levels (L : Z) : list Z := [L - 2; L - 3].

Definition pow2 (n : nat) : Z := 2 ^ Z.of_nat n.

(** A configuration as [forward] needs it to return the input's shape: one
    channel count in and out, at least one residual block per level, the
    mean and log-variance packed for the continuous regularizer, and a
    temporal compression ratio equal to the pyramid's temporal factor. *)
Record round_trip_config (cfg : Config.t) (m : AutoencoderVidTok.t) : Prop := {
  rt_channels : Config.in_channels cfg = Config.out_channels cfg;
  rt_blocks : 1 ≤ Config.num_res_blocks cfg;
  rt_double_z : Config.regularizer cfg = "kl" → Config.double_z cfg = true;
  rt_ratio : Config.temporal_compression_ratio cfg
             = temporal_down_factor (AutoencoderVidTok.encoder m)
}.

(** A video tensor for a pyramid of [L] levels: a batch of at least one
    sample, at least one frame, height and width positive multiples of the
    spatial factor [2 ^ (L - 1)]. *)
Definition video_shape (cfg : Config.t) (x : Shape.shape) : Prop :=
  ∃ B T H W : Z,
    1 ≤ B ∧ 1 ≤ T ∧ 1 ≤ H ∧ 1 ≤ W ∧
    x = [B; Config.in_channels cfg; T;
         pow2 (length (Config.ch_mult cfg) - 1) * H;
         pow2 (length (Config.ch_mult cfg) - 1) * W].

(** Whether level [i] of [L] is one of the spec's temporal levels. *)
Definition temporal_level (L i : nat) : bool :=
  bool_decide (Z.of_nat i ∈ spec_temporal_levels (Z.of_nat L)).

(** The rank a block type works on, beyond batch and channels. *)
Definition rank_of (bt : btype) : nat :=
  match bt with
  | B1d => 1
  | B2d => 2
  | B3d => 3
  end.

(** The entries of [up] and [up_temporal] for level [i] of [n], as the two
    construction loops of the decoder make them when the first loop is
    entered with [block_in]. *)
Definition up_level (ch : Z) (ch_mult : list Z) (num_res_blocks : Z) (n : nat)
    (block_in : Z) (i : nat) : VidTokDecoder3D.level :=
  let block_out := ch * default 0 (ch_mult !! i) in
  let block_in :=
    if bool_decide (S i = n) then block_in else ch * default 0 (ch_mult !! S i) in
  let '(block, block_in) :=
    VidTokDecoder3D.init_blocks (Z.to_nat (num_res_blocks + 1)) B2d block_in block_out true in
  {| VidTokDecoder3D.block := block;
     VidTokDecoder3D.upsample :=
       if bool_decide (i ≠ 0%nat)
       then Some {| VidTokUpsample2D.channels := block_in |} else None |}.

Definition up_temporal_level (ch : Z) (ch_mult : list Z) (num_res_blocks : Z)
    (is_causal : bool) (tempo_us : list Z) (i : nat) : VidTokDecoder3D.level_temporal :=
  let block_out := ch * default 0 (ch_mult !! i) in
  let '(block, block_in) :=
    VidTokDecoder3D.init_blocks (Z.to_nat (num_res_blocks + 1)) B1d block_out block_out
      is_causal in
  {| VidTokDecoder3D.tblock := block;
     VidTokDecoder3D.tupsample :=
       if bool_decide (Z.of_nat i ∈ tempo_us)
       then Some (VidTokUpsample3D_init block_in block_in (Q2Qc 2) is_causal) else None |}.

(** The configuration of [test.py]. *)
Definition test_config : Config.t :=
  {| Config.in_channels := 3; Config.out_channels := 3; Config.ch := 128;
     Config.ch_mult := [1; 2; 4; 4]; Config.z_channels := 16; Config.double_z := true;
     Config.num_res_blocks := 2; Config.temporal_compression_ratio := 4;
     Config.regularizer := "kl"; Config.codebook_size := 262144;
     Config.is_causal := true; Config.sample_height := 256; Config.sample_width := 256 |}.

(** The default configuration with other channel multipliers and another
    temporal compression ratio. *)
Definition config_with_pyramid (ch_mult : list Z) (temporal_compression_ratio : Z)
  : Config.t :=
  {| Config.in_channels := 3; Config.out_channels := 3; Config.ch := 128;
     Config.ch_mult := ch_mult; Config.z_channels := 4; Config.double_z := true;
     Config.num_res_blocks := 2; Config.temporal_compression_ratio := temporal_compression_ratio;
     Config.regularizer := "kl"; Config.codebook_size := 262144;
     Config.is_causal := true; Config.sample_height := 256; Config.sample_width := 256 |}.

(** The default configuration with another sample size. *)
Definition config_with_sample_size (sample_height sample_width : Z) : Config.t :=
  {| Config.in_channels := 3; Config.out_channels := 3; Config.ch := 128;
     Config.ch_mult := [1; 2; 4; 4]; Config.z_channels := 4; Config.double_z := true;
     Config.num_res_blocks := 2; Config.temporal_compression_ratio := 4;
     Config.regularizer := "kl"; Config.codebook_size := 262144;
     Config.is_causal := true; Config.sample_height := sample_height;
     Config.sample_width := sample_width |}.

(** Tile settings that fit a pyramid of spatial factor [s] along one axis:
    a sample tile is [s] times a latent tile; the sample tiles of
    [tiled_encode] are [s] times the kept rows of a latent tile apart, at
    least one row of a latent tile is kept; the kept rows of a sample tile
    in [tiled_decode] are [s] times the distance of the latent tiles, which
    is at least 1 and at most a tile.  The distances and the blended extents
    are the integers that the float products of the source give. *)
Record tile_axis_fits (s sample_min latent_min : Z) (factor : Q) : Prop := {
  fits_tile : sample_min = s * latent_min;
  fits_encode :
    ∃ blend_extent : Z,
      tile_blend_extent latent_min factor = Some blend_extent ∧
      tile_overlap sample_min factor = Some (s * (latent_min - blend_extent)) ∧
      1 ≤ latent_min - blend_extent ≤ latent_min;
  fits_decode :
    ∃ overlap blend_extent : Z,
      tile_overlap latent_min factor = Some overlap ∧
      tile_blend_extent sample_min factor = Some blend_extent ∧
      sample_min - blend_extent = s * overlap ∧
      1 ≤ overlap ≤ latent_min
}.

(** ** [pad_at_dim] *)

(** The padding tuple that [pad_at_dim] hands to [F.pad] for a tensor of
    [ndim] axes, [zeros] followed by [pad], as the list of its pairs; a
    tuple repeated a negative number of times is empty. *)
Definition pad_at_dim_pairs (ndim : Z) (pad : Z * Z) (dim : Z) : list (Z * Z) :=
  let dims_from_right := if dim <? 0 then - dim - 1 else ndim - dim - 1 in
  let zeros := replicate (Z.to_nat dims_from_right) (0, 0) in
  zeros ++ [pad].

(** [F.pad(t, pairs, value=value)] in constant mode, on the shape: pair [j]
    pads axis [ndim - 1 - j] before and after, a negative amount crops; more
    pairs than axes, or an axis left with a negative size, are refused. *)
Definition F_pad_constant (pairs : list (Z * Z)) (x : Shape.shape) : option Shape.shape :=
  if bool_decide (length pairs ≤ length x)%nat then
    let padded :=
      imap (λ i n, let '(before, after) := default (0, 0) (pairs !! (length x - 1 - i)%nat) in
                   n + before + after) x in
    if forallb (Z.leb 0) padded then Some padded else None
  else None.

(** [pad_at_dim(t, pad, dim, pad_mode="constant")] on the shape. *)
Definition pad_at_dim_constant (x : Shape.shape) (pad : Z * Z) (dim : Z)
  : option Shape.shape :=
  F_pad_constant (pad_at_dim_pairs (Z.of_nat (length x)) pad dim) x.

(** ** Decoding batches *)
Module BatchDecode.
Section decode.
Context {latent sample : Type}.
(** The networks [self.decoder] and [self.tiled_decode] on tensors. *)
Variable decoder : Batch.tensor latent → Batch.tensor sample.
Variable tiled_decode : Z * Z * Z * Z * Q * Q → Batch.tensor latent → Batch.tensor sample.


End decode.
End BatchDecode.
(** * Properties *)

(** ** Causal convolutions: padding amounts *)

Example conv1d_run :
  VidTokCausalConv1d.forward 0 sumZ (VidTokCausalConv1d.init 1 1 3 "constant" 1 1)
    [1; 2; 3; 4] = Some [1; 3; 6; 9].
Proof. reflexivity. Qed.

Example conv1d_stride2_run :
  VidTokCausalConv1d.forward 0 sumZ (VidTokCausalConv1d.init 1 1 3 "constant" 1 2)
    [1; 2; 3; 4] = Some [3; 9].
Proof. reflexivity. Qed.

Example conv1d_reflect_run :
  VidTokCausalConv1d.forward 0 sumZ (VidTokCausalConv1d.init 1 1 3 "reflect" 1 1)
    [1; 20; 300; 4000] = Some [321; 41; 321; 4320].
Proof. reflexivity. Qed.

Example conv3d_padding_run :
  VidTokCausalConv3d.time_causal_padding
    (VidTokCausalConv3d.init 1 1 (PyInt 3) "constant" (PyInt 1) (PyTuple (2, 1, 1)))
  = (1, 1, 1, 1, 1, 0).
Proof. reflexivity. Qed.

Lemma conv1d_time_pad cin cout k mode d s :
  VidTokCausalConv1d.time_causal_padding (VidTokCausalConv1d.init cin cout k mode d s)
  = (axis_pad k d s, 0).
Proof. reflexivity. Qed.

Lemma conv3d_time_pad cin cout kt kh kw mode dt dh dw st sh sw :
  VidTokCausalConv3d.time_padding
    (VidTokCausalConv3d.init cin cout (PyTuple (kt, kh, kw)) mode
       (PyTuple (dt, dh, dw)) (PyTuple (st, sh, sw)))
  = (axis_pad kt dt st, 0).
Proof. reflexivity. Qed.

Lemma conv3d_height_pad cin cout kt kh kw mode dt dh dw st sh sw :
  let p := axis_pad kh dh sh in
  VidTokCausalConv3d.height_padding
    (VidTokCausalConv3d.init cin cout (PyTuple (kt, kh, kw)) mode
       (PyTuple (dt, dh, dw)) (PyTuple (st, sh, sw)))
  = (p / 2, p - p / 2).
Proof. reflexivity. Qed.

(** The width amount is computed with the height kernel size. *)
Lemma conv3d_width_pad cin cout kt kh kw mode dt dh dw st sh sw :
  let p := axis_pad kh dw sw in
  VidTokCausalConv3d.width_padding
    (VidTokCausalConv3d.init cin cout (PyTuple (kt, kh, kw)) mode
       (PyTuple (dt, dh, dw)) (PyTuple (st, sh, sw)))
  = (p / 2, p - p / 2).
Proof. reflexivity. Qed.

(** With equal height and width kernel sizes the width amount is the
    width axis's own. *)
Lemma conv3d_width_pad_square cin cout kt k mode dt dh dw st sh sw :
  let p := axis_pad k dw sw in
  VidTokCausalConv3d.width_padding
    (VidTokCausalConv3d.init cin cout (PyTuple (kt, k, k)) mode
       (PyTuple (dt, dh, dw)) (PyTuple (st, sh, sw)))
  = (p / 2, p - p / 2).
Proof. reflexivity. Qed.

(** The two sides of a non-time axis are equal exactly for an even amount. *)
Lemma split_pad_even p : p / 2 = p - p / 2 ↔ p mod 2 = 0.
Proof. pose proof (Z.div_mod p 2). lia. Qed.

(** C3: a [VidTokCausalConv3d] built with kernel size (3, 3, 5), dilation 1
    and stride 1 pads the time axis by 2 on the leading side only and the
    height axis by 1 + 1, but pads the width axis by 1 + 1 as well, where the
    width axis's own kernel size 5 asks for 4 = 2 + 2: the width amount is
    computed from the height kernel size. *)
Theorem conv3d_width_pad_from_height_kernel :
  let conv := VidTokCausalConv3d.init 1 1 (PyTuple (3, 3, 5)) "constant" (PyInt 1) (PyInt 1) in
  VidTokCausalConv3d.time_padding conv = (axis_pad 3 1 1, 0) ∧
  VidTokCausalConv3d.height_padding conv = (axis_pad 3 1 1 / 2, axis_pad 3 1 1 / 2) ∧
  VidTokCausalConv3d.width_padding conv = (1, 1) ∧
  (axis_pad 5 1 1 / 2, axis_pad 5 1 1 - axis_pad 5 1 1 / 2) = (2, 2).
Proof. cbv. auto. Qed.

(** ** Causal convolutions: the padding mode of a call *)

(** C7, as stated, fails: a layer with kernel size 3 and replicate padding
    needs a time padding of 2; on an input of 2 time steps the padding does
    not exceed the time length, yet the call pads in constant mode. *)
Lemma pad_mode_fallback_at_equal_length :
  let conv := VidTokCausalConv1d.init 1 1 3 "replicate" 1 1 in
  VidTokCausalConv1d.time_pad conv = 2 ∧
  VidTokCausalConv1d.forward_pad_mode conv 2 = "constant" ∧
  exceeds_pad_mode (VidTokCausalConv1d.pad_mode conv) (VidTokCausalConv1d.time_pad conv) 2
    = "replicate" ∧
  VidTokCausalConv1d.forward_pad_mode conv 2 ≠
  exceeds_pad_mode (VidTokCausalConv1d.pad_mode conv) (VidTokCausalConv1d.time_pad conv) 2.
Proof. cbv. repeat split; discriminate. Qed.

(** C7 (amended): a causal convolution call, 1D or 3D, pads in constant mode
    exactly when the time padding is at least the input's time length, and in
    the configured mode when the time padding is strictly smaller. *)
Theorem pad_mode_fallback_iff_not_shorter :
  (∀ (self : VidTokCausalConv1d.t) (T : Z),
     VidTokCausalConv1d.forward_pad_mode self T =
       if T <=? VidTokCausalConv1d.time_pad self then "constant"
       else VidTokCausalConv1d.pad_mode self) ∧
  (∀ (self : VidTokCausalConv3d.t) (T : Z),
     VidTokCausalConv3d.forward_pad_mode self T =
       if T <=? VidTokCausalConv3d.time_pad self then "constant"
       else VidTokCausalConv3d.pad_mode self).
Proof.
  split; intros self T.
  - unfold VidTokCausalConv1d.forward_pad_mode.
    destruct (Z.ltb_spec (VidTokCausalConv1d.time_pad self) T),
      (Z.leb_spec T (VidTokCausalConv1d.time_pad self)); auto; lia.
  - unfold VidTokCausalConv3d.forward_pad_mode.
    destruct (Z.ltb_spec (VidTokCausalConv3d.time_pad self) T),
      (Z.leb_spec T (VidTokCausalConv3d.time_pad self)); auto; lia.
Qed.

(** ** Causal convolutions: causality along the time axis *)

Section causality.
Context {A B : Type} (zero : A) (K : list A → B).

Lemma prefix_lookup (xs ys : list A) (m i : nat) :
  take m xs = take m ys → (i < m)%nat → xs !! i = ys !! i.
Proof.
  intros Hpre Hi.
  assert (take m xs !! i = take m ys !! i) as H by (by rewrite Hpre).
  rewrite !lookup_take in H. by destruct (decide (i < m)%nat).
Qed.

(** A window that ends before [m] reads the same taps from two inputs that
    agree before [m]. *)
Lemma taps_prefix (k d start m : nat) (xs ys : list A) :
  take m xs = take m ys →
  (start + (k - 1) * d < m)%nat →
  Torch.taps zero k d start xs = Torch.taps zero k d start ys.
Proof.
  intros Hpre Hm. unfold Torch.taps.
  apply list_fmap_ext. intros i j Hj.
  apply lookup_seq in Hj as [-> Hi]. simpl.
  rewrite (prefix_lookup xs ys m); [done | done |].
  assert (i * d ≤ (k - 1) * d)%nat by (apply Nat.mul_le_mono_r; lia).
  lia.
Qed.

Lemma slide_prefix (k d s n m : nat) (xs ys : list A) :
  length xs = length ys →
  take m xs = take m ys →
  (n = 0 ∨ (n - 1) * s + (k - 1) * d < m)%nat →
  take n <$> Torch.slide zero K k d s xs = take n <$> Torch.slide zero K k d s ys.
Proof.
  intros Hlen Hpre Hm. unfold Torch.slide. rewrite Hlen.
  destruct (Torch.out_len k d s (length ys)) as [N|]; [simpl | done].
  f_equal. rewrite <- !fmap_take, take_seq.
  apply list_fmap_ext. intros i τ Hτ.
  apply lookup_seq in Hτ as [-> Hi]. simpl. f_equal.
  destruct Hm as [-> | Hm]; [lia |].
  apply (taps_prefix k d _ m); [done |].
  assert (i * s ≤ (n - 1) * s)%nat by (apply Nat.mul_le_mono_r; lia).
  lia.
Qed.

(** Padding the front in constant or replicate mode keeps agreement of
    prefixes, shifted by the amount. *)
Lemma pad_front_prefix (mode : string) (p : Z) (m : nat) (xs ys : list A) :
  mode = "constant" ∨ mode = "replicate" →
  length xs = length ys →
  take m xs = take m ys →
  match Torch.pad_front zero mode p xs, Torch.pad_front zero mode p ys with
  | Some px, Some py =>
      length px = length py ∧
      ((0 < m)%nat → take (Z.to_nat (Z.of_nat m + p)) px = take (Z.to_nat (Z.of_nat m + p)) py)
  | None, None => True
  | _, _ => False
  end.
Proof.
  intros Hmode Hlen Hpre. unfold Torch.pad_front, Torch.crop_front.
  destruct (Z.ltb_spec p 0) as [Hp | Hp].
  - rewrite Hlen. destruct (Z.leb_spec (- p) (Z.of_nat (length ys))); [| done].
    split; [by rewrite !length_drop, Hlen |].
    intros _. destruct (Z.leb_spec (Z.of_nat m + p) 0) as [Hle | Hgt].
    + replace (Z.to_nat (Z.of_nat m + p)) with 0%nat by lia. by rewrite !take_0.
    + rewrite !take_drop_commute.
      replace (Z.to_nat (- p) + Z.to_nat (Z.of_nat m + p))%nat with m by lia.
      by rewrite Hpre.
  - assert (Hz : ∀ (z : A) (l : list A),
        take (Z.to_nat (Z.of_nat m + p)) (replicate (Z.to_nat p) z ++ l)
        = replicate (Z.to_nat p) z ++ take m l).
    { intros z l. replace (Z.to_nat (Z.of_nat m + p)) with (Z.to_nat p + m)%nat by lia.
      apply take_app_add'. by rewrite length_replicate. }
    destruct Hmode as [-> | ->]; simpl.
    + split; [by rewrite !length_app, !length_replicate, Hlen |].
      intros _. by rewrite !Hz, Hpre.
    + destruct xs as [|x0 xs'], ys as [|y0 ys']; try done.
      split; [by rewrite !length_app, !length_replicate, Hlen |].
      intros Hm. rewrite !Hz, Hpre. f_equal. f_equal.
      destruct m as [|m']; [lia |]. simpl in Hpre. congruence.
Qed.
End causality.

Section causal_layers.
Context {A B : Type} (zero : A) (K : list A → B).
Context (spatial_pad : string → Z * Z → Z * Z → A → A).

Lemma fallback_mode_ok (mode : string) (b : bool) :
  mode = "constant" ∨ mode = "replicate" →
  (if b then mode else "constant") = "constant" ∨
  (if b then mode else "constant") = "replicate".
Proof. destruct b; auto. Qed.

Lemma window_end_lt (k d s : Z) (n : nat) :
  0 < k → 0 < d → 0 < s → (0 < n)%nat →
  ((n - 1) * Z.to_nat s + (Z.to_nat k - 1) * Z.to_nat d
   < Z.to_nat (Z.of_nat (n * Z.to_nat s) + axis_pad k d s))%nat.
Proof.
  intros Hk Hd Hs Hn. unfold axis_pad.
  apply Nat2Z.inj_lt.
  rewrite Z2Nat.id by nia.
  rewrite Nat2Z.inj_add, !Nat2Z.inj_mul, !Nat2Z.inj_sub, !Z2Nat.id by lia.
  nia.
Qed.

Lemma conv1d_causal (cin cout k d s : Z) (mode : string) :
  mode = "constant" ∨ mode = "replicate" →
  causal_at_stride (Z.to_nat s)
    (VidTokCausalConv1d.forward zero K (VidTokCausalConv1d.init cin cout k mode d s)).
Proof.
  intros Hmode xs ys n Hlen Hpre.
  unfold VidTokCausalConv1d.forward. rewrite Hlen. simpl.
  set (pm := VidTokCausalConv1d.forward_pad_mode _ _).
  assert (Hpm : pm = "constant" ∨ pm = "replicate") by (by apply fallback_mode_ok).
  pose proof (pad_front_prefix zero pm (axis_pad k d s) _ xs ys Hpm Hlen Hpre) as Hpad.
  fold (axis_pad k d s).
  destruct (Torch.pad_front zero pm (axis_pad k d s) xs) as [px|],
    (Torch.pad_front zero pm (axis_pad k d s) ys) as [py|]; try done.
  destruct Hpad as [Hl Hp]. simpl. unfold Torch.conv_time.
  destruct ((k <=? 0) || (d <=? 0) || (s <=? 0)) eqn:Hpos; [done |].
  apply orb_false_elim in Hpos as [Hpos Hs].
  apply orb_false_elim in Hpos as [Hk Hd].
  apply Z.leb_gt in Hk, Hd, Hs.
  destruct n as [|n'].
  - apply (slide_prefix zero K _ _ _ 0%nat 0%nat); [done | done | by left].
  - eapply slide_prefix; [done | apply Hp; nia | right].
    apply window_end_lt; lia.
Qed.

Lemma conv3d_causal (cin cout : Z) (kernel_size dilation stride : int_or_tuple)
    (mode : string) :
  mode = "constant" ∨ mode = "replicate" →
  causal_at_stride (Z.to_nat (VidTokCausalConv3d.cast_tuple stride).1.1)
    (VidTokCausalConv3d.forward zero spatial_pad K
       (VidTokCausalConv3d.init cin cout kernel_size mode dilation stride)).
Proof.
  intros Hmode xs ys n Hlen Hpre.
  unfold VidTokCausalConv3d.forward, VidTokCausalConv3d.init.
  destruct (VidTokCausalConv3d.cast_tuple kernel_size) as [[k kh] kw].
  destruct (VidTokCausalConv3d.cast_tuple dilation) as [[d dh] dw].
  destruct (VidTokCausalConv3d.cast_tuple stride) as [[s sh] sw].
  rewrite Hlen. simpl in *.
  set (pm := VidTokCausalConv3d.forward_pad_mode _ _).
  assert (Hpm : pm = "constant" ∨ pm = "replicate") by (by apply fallback_mode_ok).
  fold (axis_pad k d s).
  pose proof (pad_front_prefix zero pm (axis_pad k d s) _ xs ys Hpm Hlen Hpre) as Hpad.
  destruct (Torch.pad_front zero pm (axis_pad k d s) xs) as [px|],
    (Torch.pad_front zero pm (axis_pad k d s) ys) as [py|]; try done.
  destruct Hpad as [Hl Hp]. simpl. unfold Torch.conv_time.
  destruct ((k <=? 0) || (d <=? 0) || (s <=? 0)) eqn:Hpos; [done |].
  apply orb_false_elim in Hpos as [Hpos Hs].
  apply orb_false_elim in Hpos as [Hk Hd].
  apply Z.leb_gt in Hk, Hd, Hs.
  destruct n as [|n'].
  - apply (slide_prefix zero K _ _ _ 0%nat 0%nat);
      [by rewrite !length_fmap | done | by left].
  - eapply slide_prefix; [by rewrite !length_fmap | | right; apply window_end_lt; lia].
    rewrite <- !fmap_take. f_equal. apply Hp. nia.
Qed.
End causal_layers.

(** C5, as stated, fails.  The causal convolution of the temporal
    downsampling block (kernel 3, time stride 2, constant padding) is not
    strictly causal on time indices: its output step 0 reads input step 1.
    A causal convolution configured with reflect padding is not strictly
    causal either, at stride 1: the padding frames mirror later frames. *)
Lemma strided_or_reflect_conv_not_strictly_causal :
  ¬ strictly_causal
      (VidTokCausalConv3d.forward 0 (λ _ _ _ x, x) sumZ
         (VidTokCausalConv3d.init 1 1 (PyInt 3) "constant" (PyInt 1) (PyTuple (2, 1, 1)))) ∧
  ¬ strictly_causal
      (VidTokCausalConv1d.forward 0 sumZ (VidTokCausalConv1d.init 1 1 3 "reflect" 1 1)).
Proof.
  split; intros H; specialize (H [0; 0; 0; 0] [0; 1; 0; 0] 1%nat eq_refl eq_refl);
    vm_compute in H; discriminate.
Qed.

(** C5 (amended): a causal convolution, 1D or 3D, whose configured padding
    mode is constant or replicate and whose time stride is [s], maps two
    inputs of one shape that agree at all time steps before [s * n] to
    outputs that agree at all time steps before [n]. *)
Theorem causal_conv_causal_at_stride :
  ∀ {A B : Type} (zero : A) (K : list A → B)
    (spatial_pad : string → Z * Z → Z * Z → A → A) (mode : string),
    mode = "constant" ∨ mode = "replicate" →
    (∀ cin cout k d s : Z,
       causal_at_stride (Z.to_nat s)
         (VidTokCausalConv1d.forward zero K (VidTokCausalConv1d.init cin cout k mode d s))) ∧
    (∀ (cin cout : Z) (kernel_size dilation stride : int_or_tuple),
       causal_at_stride (Z.to_nat (VidTokCausalConv3d.cast_tuple stride).1.1)
         (VidTokCausalConv3d.forward zero spatial_pad K
            (VidTokCausalConv3d.init cin cout kernel_size mode dilation stride))).
Proof.
  intros A B zero K spatial_pad mode Hmode. split.
  - intros cin cout k d s. by apply conv1d_causal.
  - intros cin cout kernel_size dilation stride. by apply conv3d_causal.
Qed.

(** At time stride 1 this is strict causality. *)
Corollary causal_conv_stride1_strictly_causal
    {A B : Type} (zero : A) (K : list A → B) (cin cout k d : Z) (mode : string) :
  mode = "constant" ∨ mode = "replicate" →
  strictly_causal (VidTokCausalConv1d.forward zero K (VidTokCausalConv1d.init cin cout k mode d 1)).
Proof.
  intros Hmode xs ys t Hlen Hpre.
  apply (conv1d_causal zero K cin cout k d 1 mode Hmode xs ys t Hlen).
  by rewrite Nat.mul_1_r.
Qed.

Lemma causal_conv_causal_at_stride_witness :
  ("constant" = "constant" ∨ "constant" = "replicate") ∧
  take 1 <$> VidTokCausalConv1d.forward 0 sumZ (VidTokCausalConv1d.init 1 1 3 "constant" 1 2)
               [1; 2; 3; 4]
  = take 1 <$> VidTokCausalConv1d.forward 0 sumZ (VidTokCausalConv1d.init 1 1 3 "constant" 1 2)
               [1; 2; 7; 8].
Proof.
  split; [by left |].
  exact (proj1 (causal_conv_causal_at_stride 0 sumZ (λ _ _ _ x, x) "constant"
                  (or_introl eq_refl)) 1 1 3 1 2 [1; 2; 3; 4] [1; 2; 7; 8] 1%nat
           eq_refl eq_refl).
Defined.

(** ** Mixed downsample and upsample blocks: the ends of the blend *)

Lemma zip_exact_right {A A' B B' : Type} (R : A → B → Prop)
    (f : A' → B' → option B) (g : A → A') (h : B → B') (xs : list A) (ys : list B) :
  Forall2 R xs ys →
  (∀ x y, R x y → f (g x) (h y) = Some y) →
  zip_exact f (g <$> xs) (h <$> ys) = Some ys.
Proof.
  intros HR Hf. induction HR as [|x y xs ys Hxy _ IH]; [done |].
  rewrite !fmap_cons. cbn [zip_exact]. rewrite (Hf _ _ Hxy).
  cbn [mbind option_bind]. by rewrite IH.
Qed.

Lemma zip_exact_left {A A' B B' : Type} (R : A → B → Prop)
    (f : A' → B' → option A) (g : A → A') (h : B → B') (xs : list A) (ys : list B) :
  Forall2 R xs ys →
  (∀ x y, R x y → f (g x) (h y) = Some x) →
  zip_exact f (g <$> xs) (h <$> ys) = Some xs.
Proof.
  intros HR Hf. induction HR as [|x y xs ys Hxy _ IH]; [done |].
  rewrite !fmap_cons. cbn [zip_exact]. rewrite (Hf _ _ Hxy).
  cbn [mbind option_bind]. by rewrite IH.
Qed.

(** With weight 0 the blend is its second operand. *)
Lemma blend_weight_0 (x1 x2 : Tensor.tensor) :
  Tensor.same_shape x1 x2 →
  Tensor.add (Tensor.smul 0%Qc x1) (Tensor.smul (1 - 0)%Qc x2) = Some x2.
Proof.
  intros Hs. unfold Tensor.add, Tensor.smul.
  eapply zip_exact_right; [exact Hs |]. intros s1 s2 Hs12.
  eapply zip_exact_right; [exact Hs12 |]. intros f1 f2 Hf12.
  eapply zip_exact_right; [exact Hf12 |]. intros a b _. f_equal. ring.
Qed.

(** With weight 1 the blend is its first operand. *)
Lemma blend_weight_1 (x1 x2 : Tensor.tensor) :
  Tensor.same_shape x1 x2 →
  Tensor.add (Tensor.smul 1%Qc x1) (Tensor.smul (1 - 1)%Qc x2) = Some x1.
Proof.
  intros Hs. unfold Tensor.add, Tensor.smul.
  eapply zip_exact_left; [exact Hs |]. intros s1 s2 Hs12.
  eapply zip_exact_left; [exact Hs12 |]. intros f1 f2 Hf12.
  eapply zip_exact_left; [exact Hf12 |]. intros a b _. f_equal. ring.
Qed.

Example down_x1_run :
  Tensor.values <$> down_x1 (VidTokDownsample3D_init 1 1 (Q2Qc 2) true) ramp
  = Some [[[1%Q]; [3%Q]]].
Proof. vm_compute. reflexivity. Qed.

Example down_x2_run :
  Tensor.values <$> down_x2 no_spatial_pad sum_frames (VidTokDownsample3D_init 1 1 (Q2Qc 2) true) ramp
  = Some [[[3%Q]; [9%Q]]].
Proof. vm_compute. reflexivity. Qed.

Example down_forward_run :
  Tensor.values <$>
    VidTokDownsample3D_forward no_spatial_pad sum_frames saturating_sigmoid
      (VidTokDownsample3D_init 1 1 (Q2Qc 0) true) ramp
  = Some [[[2%Q]; [6%Q]]].
Proof. vm_compute. reflexivity. Qed.

Example up_forward_run :
  Tensor.values <$>
    VidTokUpsample3D_forward no_spatial_pad sum_frames saturating_sigmoid
      (VidTokUpsample3D_init 1 1 (Q2Qc 0) true) [[[Q2Qc 1]; [Q2Qc 2]]]
  = Some [[[1%Q]; [3 # 2]; [3%Q]; [7 # 2]]].
Proof. vm_compute. reflexivity. Qed.

(** C2, as stated, fails: with the sigmoid of the mix parameter at 0 the
    causal downsample block returns its convolution path (values 3, 9 on the
    ramp), not its average-pooling path (values 1, 3). *)
Lemma mix_weight_0_gives_conv_path :
  let self := VidTokDownsample3D_init 1 1 (Q2Qc (-1000)) true in
  let out := VidTokDownsample3D_forward no_spatial_pad sum_frames saturating_sigmoid self ramp in
  saturating_sigmoid (down_mix_factor self) = 0%Qc ∧
  Tensor.values <$> out = Some [[[3%Q]; [9%Q]]] ∧
  Tensor.values <$> down_x1 self ramp = Some [[[1%Q]; [3%Q]]] ∧
  out = down_x2 no_spatial_pad sum_frames self ramp ∧
  out ≠ down_x1 self ramp.
Proof.
  cbv zeta. repeat split.
  - intros H. apply (f_equal (fmap Tensor.values)) in H. vm_compute in H. discriminate.
Qed.

(** C2 (amended): in both mixed blocks the output is
    [alpha * A + (1 - alpha) * B] with [alpha] the sigmoid of the mix
    parameter, [A] the averaging or interpolation path and [B] the
    convolution path; so with the sigmoid at 0 the output is exactly the
    convolution path [B], and with the sigmoid at 1 it is exactly the
    averaging or interpolation path [A]. *)
Theorem mixed_block_blend_ends :
  ∀ (spatial_pad : string → Z * Z → Z * Z → Tensor.frame → Tensor.frame)
    (K : list Tensor.frame → Tensor.frame) (sigmoid : Qc → Qc),
    (∀ (self : VidTokDownsample3D) (x x1 x2 : Tensor.tensor),
       down_x1 self x = Some x1 →
       down_x2 spatial_pad K self x = Some x2 →
       Tensor.same_shape x1 x2 →
       (sigmoid (down_mix_factor self) = 0%Qc →
        VidTokDownsample3D_forward spatial_pad K sigmoid self x = Some x2) ∧
       (sigmoid (down_mix_factor self) = 1%Qc →
        VidTokDownsample3D_forward spatial_pad K sigmoid self x = Some x1)) ∧
    (∀ (self : VidTokUpsample3D) (x x_ : Tensor.tensor),
       conv_forward spatial_pad K (up_conv self) (up_x x) = Some x_ →
       Tensor.same_shape (up_x x) x_ →
       (sigmoid (up_mix_factor self) = 0%Qc →
        VidTokUpsample3D_forward spatial_pad K sigmoid self x = Some x_) ∧
       (sigmoid (up_mix_factor self) = 1%Qc →
        VidTokUpsample3D_forward spatial_pad K sigmoid self x = Some (up_x x))).
Proof.
  intros spatial_pad K sigmoid. split.
  - intros self x x1 x2 H1 H2 Hs. unfold VidTokDownsample3D_forward.
    rewrite H1, H2. cbn [mbind option_bind].
    split; intros ->; [by apply blend_weight_0 | by apply blend_weight_1].
  - intros self x x_ H2 Hs. unfold VidTokUpsample3D_forward.
    cbv zeta. rewrite H2. cbn [mbind option_bind].
    split; intros ->; [by apply blend_weight_0 | by apply blend_weight_1].
Qed.

Lemma mixed_block_blend_ends_witness :
  let self := VidTokDownsample3D_init 1 1 (Q2Qc (-1000)) true in
  ∃ x1 x2 : Tensor.tensor,
    down_x1 self ramp = Some x1 ∧
    down_x2 no_spatial_pad sum_frames self ramp = Some x2 ∧
    Tensor.same_shape x1 x2 ∧
    saturating_sigmoid (down_mix_factor self) = 0%Qc ∧
    VidTokDownsample3D_forward no_spatial_pad sum_frames saturating_sigmoid self ramp = Some x2.
Proof.
  cbv zeta.
  eexists. eexists.
  split; [vm_compute; reflexivity |].
  split; [vm_compute; reflexivity |].
  split; [repeat constructor |].
  split; [reflexivity |].
  refine (proj1 (proj1 (mixed_block_blend_ends no_spatial_pad sum_frames saturating_sigmoid)
                   _ ramp _ _ _ _ _) _).
  - vm_compute; reflexivity.
  - vm_compute; reflexivity.
  - repeat constructor.
  - reflexivity.
Defined.

(** ** Construction: the regularizer checks *)

Lemma check_regularizer_kl z c dz :
  AutoencoderVidTok.check_regularizer "kl" z c dz = Ok None.
Proof. reflexivity. Qed.

(** For the discrete regularizer the second assertion passes exactly when
    [z_channels] is the truncated base-8 logarithm of the codebook size and
    [double_z] is false. *)
Lemma check_regularizer_fsq z c dz :
  0 < c →
  AutoencoderVidTok.check_regularizer "fsq" z c dz =
    if decide (z = int_log8 c ∧ dz = false)
    then Ok (Some (replicate (Z.to_nat z) 8))
    else Raise AssertionError.
Proof.
  intros Hc. unfold AutoencoderVidTok.check_regularizer. simpl.
  destruct (Z.leb_spec c 0); [lia |].
  destruct (Z.eqb_spec z (int_log8 c)), dz; simpl;
    destruct (decide _) as [[? ?] | Hn]; try done; exfalso; apply Hn; auto.
Qed.

(** The truncated logarithm accepts codebook sizes that are no power of 8. *)
Example check_regularizer_fsq_100 :
  AutoencoderVidTok.check_regularizer "fsq" 2 100 false = Ok (Some [8; 8]).
Proof. reflexivity. Qed.

Lemma check_regularizer_invalid r z c dz :
  r ∉ ["kl"; "fsq"] →
  AutoencoderVidTok.check_regularizer r z c dz = Raise (AttributeError "regtype").
Proof.
  intros Hr. unfold AutoencoderVidTok.check_regularizer.
  by rewrite bool_decide_eq_false_2.
Qed.

Example init_default_ok : ∃ m, AutoencoderVidTok.init Config.default = Ok m.
Proof. eexists. vm_compute. reflexivity. Qed.

(** C8: constructing the autoencoder from the default arguments with the
    regularizer name "vq" does not end in an assertion error: the failing
    assertion builds its message from [self.regtype], which does not exist,
    and the construction ends in an attribute error. *)
Theorem init_invalid_regularizer_attribute_error :
  AutoencoderVidTok.init (config_with_regularizer "vq") = Raise (AttributeError "regtype") ∧
  AutoencoderVidTok.init (config_with_regularizer "vq") ≠ Raise AssertionError.
Proof. split; [vm_compute; reflexivity | vm_compute; discriminate]. Qed.

(** ** Tiling switches *)

(** C9: [enable_tiling] switches tiling on whatever its arguments are, and
    an argument that is [0], [0.0] or [None] leaves the stored tile size or
    overlap factor as it was. *)
Theorem enable_tiling_falsy_argument_keeps_setting :
  ∀ (self : AutoencoderVidTok.t) (h w : option Z) (fh fw : option Q),
    AutoencoderVidTok.use_tiling (AutoencoderVidTok.enable_tiling self h w fh fw) = true ∧
    (∀ a, a = Some 0 ∨ a = None →
       AutoencoderVidTok.tile_sample_min_height (AutoencoderVidTok.enable_tiling self a w fh fw)
       = AutoencoderVidTok.tile_sample_min_height self) ∧
    (∀ a, a = Some 0 ∨ a = None →
       AutoencoderVidTok.tile_sample_min_width (AutoencoderVidTok.enable_tiling self h a fh fw)
       = AutoencoderVidTok.tile_sample_min_width self) ∧
    (∀ a, a = Some 0%Q ∨ a = None →
       AutoencoderVidTok.tile_overlap_factor_height (AutoencoderVidTok.enable_tiling self h w a fw)
       = AutoencoderVidTok.tile_overlap_factor_height self) ∧
    (∀ a, a = Some 0%Q ∨ a = None →
       AutoencoderVidTok.tile_overlap_factor_width (AutoencoderVidTok.enable_tiling self h w fh a)
       = AutoencoderVidTok.tile_overlap_factor_width self).
Proof.
  intros self h w fh fw. split; [reflexivity |].
  split; [| split; [| split]].
  - intros a [-> | ->]; reflexivity.
  - intros a [-> | ->]; reflexivity.
  - intros a [-> | ->]; cbn [AutoencoderVidTok.enable_tiling
      AutoencoderVidTok.tile_overlap_factor_height]; by destruct (_ ≫= _).
  - intros a [-> | ->]; cbn [AutoencoderVidTok.enable_tiling
      AutoencoderVidTok.tile_overlap_factor_width]; by destruct (_ ≫= _).
Qed.

(** A non-zero argument is stored. *)
Lemma enable_tiling_nonzero_argument self v w fh fw :
  v ≠ 0 →
  AutoencoderVidTok.tile_sample_min_height
    (AutoencoderVidTok.enable_tiling self (Some v) w fh fw) = v.
Proof. intros Hv. simpl. by destruct (Z.eqb_spec v 0). Qed.

Lemma enable_tiling_falsy_argument_keeps_setting_witness :
  ∃ m, AutoencoderVidTok.init Config.default = Ok m ∧
    AutoencoderVidTok.use_tiling (AutoencoderVidTok.enable_tiling m (Some 0) None (Some 0%Q) None)
      = true ∧
    AutoencoderVidTok.tile_sample_min_height
      (AutoencoderVidTok.enable_tiling m (Some 0) None (Some 0%Q) None) = 128 ∧
    AutoencoderVidTok.tile_overlap_factor_height
      (AutoencoderVidTok.enable_tiling m (Some 0) None (Some 0%Q) None) = (1 # 8)%Q.
Proof.
  eexists. split; [vm_compute; reflexivity |].
  pose proof (enable_tiling_falsy_argument_keeps_setting) as H.
  split; [| split].
  - apply H.
  - match goal with |- AutoencoderVidTok.tile_sample_min_height
                         (AutoencoderVidTok.enable_tiling ?m _ _ _ _) = _ =>
      rewrite (proj1 (proj2 (H m None None (Some 0%Q) None)) (Some 0) (or_introl eq_refl))
    end. reflexivity.
  - match goal with |- AutoencoderVidTok.tile_overlap_factor_height
                         (AutoencoderVidTok.enable_tiling ?m _ _ _ _) = _ =>
      rewrite (proj1 (proj2 (proj2 (proj2 (H m (Some 0) None None None))))
                 (Some 0%Q) (or_introl eq_refl))
    end. reflexivity.
Defined.

(** The quotients and products that give the tile sizes are those of the
    doubles: [int(100 * 0.29)] is 28, not 29, a tile size beyond [2 ^ 53] is
    rounded by the true division, and beyond the doubles the division
    raises. *)
Example tile_sizes_follow_the_doubles :
  tile_blend_extent 100 (29 # 100) = Some 28 ∧
  tile_overlap 100 (29 # 100) = Some 71 ∧
  tile_overlap 128 (1 # 8) = Some 112 ∧
  int_div_pow2 (- 100) 3 = Some (- 12) ∧
  int_div_pow2 (2 ^ 53 + 1) 0 = Some (2 ^ 53) ∧
  int_div_pow2 (10 ^ 30) 3 = Some 125000000000000002485578104832 ∧
  int_div_pow2 (2 ^ 1024) 0 = None ∧
  int_div_pow2 3 (- 1) = Some 6.
Proof. repeat split; vm_compute; reflexivity. Qed.

(** A tile size beyond the doubles: the call of [enable_tiling] raises after
    it has switched tiling on and stored the tile size. *)
Example enable_tiling_overflow (self : AutoencoderVidTok.t) :
  length (Config.ch_mult (AutoencoderVidTok.config self)) = 1%nat →
  let self' := AutoencoderVidTok.enable_tiling self (Some (2 ^ 1024)) None (Some (1 # 4)) None in
  AutoencoderVidTok.enable_tiling_raises self (Some (2 ^ 1024)) None = true ∧
  AutoencoderVidTok.use_tiling self' = true ∧
  AutoencoderVidTok.tile_sample_min_height self' = 2 ^ 1024 ∧
  AutoencoderVidTok.tile_latent_min_height self'
  = AutoencoderVidTok.tile_latent_min_height self ∧
  AutoencoderVidTok.tile_overlap_factor_height self'
  = AutoencoderVidTok.tile_overlap_factor_height self.
Proof.
  intros HL. cbv zeta.
  unfold AutoencoderVidTok.enable_tiling_raises, AutoencoderVidTok.enable_tiling.
  cbn [AutoencoderVidTok.use_tiling AutoencoderVidTok.tile_sample_min_height
       AutoencoderVidTok.tile_latent_min_height AutoencoderVidTok.tile_overlap_factor_height
       or_int].
  rewrite HL. change (Z.of_nat 1 - 1) with 0.
  assert (Hover : int_div_pow2 (2 ^ 1024) 0 = None) by (vm_compute; reflexivity).
  change (2 ^ 1024 =? 0) with false. cbn match. rewrite Hover.
  cbn [mbind option_bind default]. rewrite bool_decide_eq_false_2 by (by intros [? ?]).
  done.
Qed.

(** ** Tiled stitching: blending in place *)

Example stitch_grid22_run :
  (λ r, Tiles.tile_values r.2) <$> Tiles.stitch 1 2 1 2 Tiles.grid22
  = Some [[1; 1; 1; 3 # 2]; [1; 1; 1; 5 # 4]]%Q.
Proof. vm_compute. reflexivity. Qed.

Example stitch_raw_above_grid22_run :
  (λ r, Tiles.tile_values r.2) <$> Tiles.stitch_raw_above 1 2 1 2 Tiles.grid22
  = Some [[1; 1; 1; 3 # 2]; [1; 1; 1; 3 # 2]]%Q.
Proof. vm_compute. reflexivity. Qed.

Lemma tiles_get_set_eq (s : Tiles.store) (l : nat * nat) (t0 t : Tiles.tile) :
  Tiles.get s l = Some t0 → Tiles.get (Tiles.set s l t) l = Some t.
Proof.
  destruct l as [i j]. unfold Tiles.get, Tiles.set. simpl.
  rewrite list_lookup_alter_eq. destruct (s !! i) as [row|]; [simpl | done].
  intros H. apply list_lookup_insert_eq. by eapply lookup_lt_Some.
Qed.

Lemma tiles_get_set_ne (s : Tiles.store) (l l' : nat * nat) (t : Tiles.tile) :
  l ≠ l' → Tiles.get (Tiles.set s l t) l' = Tiles.get s l'.
Proof.
  destruct l as [i j], l' as [i' j']. unfold Tiles.get, Tiles.set. simpl.
  intros Hne. destruct (decide (i = i')) as [-> | Hi].
  - rewrite list_lookup_alter_eq. destruct (s !! i') as [row|]; [simpl | done].
    apply list_lookup_insert_ne. congruence.
  - by rewrite list_lookup_alter_ne.
Qed.

Lemma tiles_set_set (s : Tiles.store) (l : nat * nat) (t t' : Tiles.tile) :
  Tiles.set (Tiles.set s l t) l t' = Tiles.set s l t'.
Proof.
  unfold Tiles.set. rewrite list_alter_alter_eq.
  apply list_alter_ext; [| done]. intros row _. simpl.
  apply list_insert_insert_eq.
Qed.

Lemma tiles_set_get_id (s : Tiles.store) (l : nat * nat) (t : Tiles.tile) :
  Tiles.get s l = Some t → Tiles.set s l t = s.
Proof.
  destruct l as [i j]. unfold Tiles.get, Tiles.set. simpl. intros H.
  destruct (s !! i) as [row|] eqn:Hrow; [simpl in H | done].
  apply list_eq. intros k. rewrite list_lookup_alter.
  destruct (decide (i = k)) as [<- | _]; [| done].
  rewrite Hrow. simpl. f_equal. by apply list_insert_id.
Qed.

(** A loop that reads the objects [a] and [b] from the store on every turn
    and writes into [b] computes, for two different objects, what the same
    loop computes on the values, and leaves the result in the store at [b]. *)
Lemma loop_in_place (f : Tiles.tile → nat → Tiles.tile → option Tiles.tile)
    (a b : nat * nat) (ta : Tiles.tile) (ys : list nat) :
  a ≠ b →
  ∀ (s : Tiles.store) (tb : Tiles.tile),
    Tiles.get s a = Some ta →
    Tiles.get s b = Some tb →
    loop (λ y s,
            ta ← Tiles.get s a;
            tb ← Tiles.get s b;
            tb ← f ta y tb;
            Some (Tiles.set s b tb)) ys s
    = tb' ← loop (f ta) ys tb; Some (Tiles.set s b tb').
Proof.
  intros Hab. induction ys as [|y ys IH]; intros s tb Ha Hb; simpl.
  - by rewrite tiles_set_get_id.
  - rewrite Ha, Hb. simpl. destruct (f ta y tb) as [tb1|]; [simpl | done].
    rewrite (IH (Tiles.set s b tb1) tb1).
    + destruct (loop (f ta) ys tb1); [simpl | done]. by rewrite tiles_set_set.
    + by rewrite tiles_get_set_ne.
    + by eapply tiles_get_set_eq.
Qed.

Lemma blend_v_in_place (s : Tiles.store) (a b : nat * nat) (ta tb : Tiles.tile) (e : Z) :
  a ≠ b →
  Tiles.get s a = Some ta →
  Tiles.get s b = Some tb →
  Tiles.blend_v s a b e = tb' ← Tiles.blend_v_val ta tb e; Some (Tiles.set s b tb').
Proof.
  intros Hab Ha Hb. unfold Tiles.blend_v, Tiles.blend_v_val. rewrite Ha, Hb. simpl.
  by apply (loop_in_place (λ ta, Tiles.blend_v_row ta _)).
Qed.

Lemma blend_h_in_place (s : Tiles.store) (a b : nat * nat) (ta tb : Tiles.tile) (e : Z) :
  a ≠ b →
  Tiles.get s a = Some ta →
  Tiles.get s b = Some tb →
  Tiles.blend_h s a b e = tb' ← Tiles.blend_h_val ta tb e; Some (Tiles.set s b tb').
Proof.
  intros Hab Ha Hb. unfold Tiles.blend_h, Tiles.blend_h_val. rewrite Ha, Hb. simpl.
  by apply (loop_in_place (λ ta, Tiles.blend_h_col ta _)).
Qed.

Section stitching.
Context (beh bew rlh rlw : Z).

Lemma store_get_cell (done rest : Tiles.store) (rowdone rowrest : list Tiles.tile)
    (t : Tiles.tile) :
  Tiles.get (done ++ (rowdone ++ t :: rowrest) :: rest) (length done, length rowdone) = Some t.
Proof.
  unfold Tiles.get. simpl. rewrite list_lookup_middle by done. simpl.
  by apply list_lookup_middle.
Qed.

Lemma store_set_cell (done rest : Tiles.store) (rowdone rowrest : list Tiles.tile)
    (t t' : Tiles.tile) :
  Tiles.set (done ++ (rowdone ++ t :: rowrest) :: rest) (length done, length rowdone) t'
  = done ++ (rowdone ++ t' :: rowrest) :: rest.
Proof.
  unfold Tiles.set. simpl.
  replace (length done) with (length done + 0)%nat at 1 by lia.
  rewrite alter_app_r. simpl. do 2 f_equal.
  replace (length rowdone) with (length rowdone + 0)%nat at 1 by lia.
  by rewrite insert_app_r.
Qed.

Lemma store_get_above (done rest : Tiles.store) (above row : list Tiles.tile) (j : nat) :
  Tiles.get ((done ++ [above]) ++ row :: rest) ((length (done ++ [above]) - 1)%nat, j)
  = above !! j.
Proof.
  unfold Tiles.get. simpl. rewrite length_app. simpl.
  replace (length done + 1 - 1)%nat with (length done) by lia.
  rewrite <- app_assoc. simpl. by rewrite list_lookup_middle.
Qed.

Lemma store_get_left (done rest : Tiles.store) (rowdone rowrest : list Tiles.tile)
    (l t : Tiles.tile) :
  Tiles.get (done ++ ((rowdone ++ [l]) ++ t :: rowrest) :: rest)
    (length done, (length (rowdone ++ [l]) - 1)%nat) = Some l.
Proof.
  unfold Tiles.get. simpl. rewrite list_lookup_middle by done. simpl.
  rewrite length_app. simpl.
  replace (length rowdone + 1 - 1)%nat with (length rowdone) by lia.
  rewrite <- app_assoc. simpl. by rewrite list_lookup_middle.
Qed.

(** The tiles of one row: the loop on the store finds above it the finished
    row, on its left the finished tile. *)
Lemma stitch_tiles_of_row (done rest : Tiles.store) (rowrest rowdone : list Tiles.tile) :
  loop (Tiles.stitch_tile beh bew (length done)) (seq (length rowdone) (length rowrest))
    (done ++ (rowdone ++ rowrest) :: rest)
  = brow ← Tiles.blended_row beh bew (last done) (last rowdone) (length rowdone) rowrest;
    Some (done ++ (rowdone ++ brow) :: rest).
Proof.
  revert rowdone. induction rowrest as [|t rowrest IH]; intros rowdone; [done |].
  cbn [length seq loop Tiles.blended_row].
  assert (Hunfold : ∀ i j s,
    Tiles.stitch_tile beh bew i j s =
    s ← (if bool_decide (0 < i)%nat
         then Tiles.blend_v s ((i - 1)%nat, j) (i, j) beh else Some s);
    if bool_decide (0 < j)%nat
    then Tiles.blend_h s (i, (j - 1)%nat) (i, j) bew else Some s) by reflexivity.
  rewrite Hunfold. clear Hunfold.
  (* the blend with the tile above *)
  assert (Hv :
    (if bool_decide (0 < length done)%nat
     then Tiles.blend_v (done ++ (rowdone ++ t :: rowrest) :: rest)
            ((length done - 1)%nat, length rowdone) (length done, length rowdone) beh
     else Some (done ++ (rowdone ++ t :: rowrest) :: rest))
    = t1 ← match last done with
           | Some above => a ← above !! length rowdone; Tiles.blend_v_val a t beh
           | None => Some t
           end;
      Some (done ++ (rowdone ++ t1 :: rowrest) :: rest)).
  { induction done as [|r done' _] using rev_ind; [done |].
    rewrite last_snoc. rewrite bool_decide_eq_true_2 by (rewrite length_app; simpl; lia).
    destruct (r !! length rowdone) as [a|] eqn:Ha; simpl.
    - rewrite (blend_v_in_place _ _ _ a t).
      + destruct (Tiles.blend_v_val a t beh); [simpl | done].
        by rewrite store_set_cell.
      + intros [= H]. rewrite length_app in H. simpl in H. lia.
      + by rewrite store_get_above.
      + apply store_get_cell.
    - unfold Tiles.blend_v. by rewrite store_get_above, Ha. }
  rewrite Hv. clear Hv.
  destruct (match last done with
            | Some above => a ← above !! length rowdone; Tiles.blend_v_val a t beh
            | None => Some t
            end) as [t1|]; [simpl | done].
  (* the blend with the tile on the left *)
  assert (Hh :
    (if bool_decide (0 < length rowdone)%nat
     then Tiles.blend_h (done ++ (rowdone ++ t1 :: rowrest) :: rest)
            (length done, (length rowdone - 1)%nat) (length done, length rowdone) bew
     else Some (done ++ (rowdone ++ t1 :: rowrest) :: rest))
    = t2 ← match last rowdone with
           | Some l => Tiles.blend_h_val l t1 bew
           | None => Some t1
           end;
      Some (done ++ (rowdone ++ t2 :: rowrest) :: rest)).
  { induction rowdone as [|l rowdone' _] using rev_ind; [done |].
    rewrite last_snoc. rewrite bool_decide_eq_true_2 by (rewrite length_app; simpl; lia).
    rewrite (blend_h_in_place _ _ _ l t1).
    - destruct (Tiles.blend_h_val l t1 bew); [simpl | done].
      by rewrite store_set_cell.
    - intros [= H]. rewrite length_app in H. simpl in H. lia.
    - apply store_get_left.
    - apply store_get_cell. }
  rewrite Hh. clear Hh.
  destruct (match last rowdone with
            | Some l => Tiles.blend_h_val l t1 bew
            | None => Some t1
            end) as [t2|]; [simpl | done].
  specialize (IH (rowdone ++ [t2])).
  rewrite length_app, last_snoc in IH. simpl in IH.
  rewrite Nat.add_1_r in IH. rewrite <- app_assoc in IH. simpl in IH.
  rewrite IH.
  destruct (Tiles.blended_row beh bew (last done) (Some t2) (S (length rowdone)) rowrest)
    as [brow|]; [simpl | done].
  by rewrite <- app_assoc.
Qed.

(** The rows: the loop on the store hands to [blend_v] the finished row. *)
Lemma stitch_rows_of_store (rest done : Tiles.store) (result_rows : list Tiles.tile) :
  loop (Tiles.stitch_row beh bew rlh rlw) (seq (length done) (length rest))
    (done ++ rest, result_rows)
  = st ← Tiles.blended_rows beh bew rlh rlw (last done) rest;
    Some (done ++ st.1, result_rows ++ st.2).
Proof.
  revert done result_rows. induction rest as [|row rest IH]; intros done result_rows.
  - simpl. by rewrite !app_nil_r.
  - cbn [length seq loop Tiles.blended_rows].
    assert (Hunfold : ∀ i s rr,
      Tiles.stitch_row beh bew rlh rlw i (s, rr) =
      row ← s !! i;
      s ← loop (Tiles.stitch_tile beh bew i) (seq 0 (length row)) s;
      row ← s !! i;
      result_row ← Tiles.cat_w (Tiles.crop rlh rlw <$> row);
      Some (s, rr ++ [result_row])) by reflexivity.
    rewrite Hunfold. clear Hunfold.
    rewrite list_lookup_middle by done. cbn [mbind option_bind].
    pose proof (stitch_tiles_of_row done rest row []) as Hrow. simpl in Hrow.
    rewrite Hrow. clear Hrow.
    destruct (Tiles.blended_row beh bew (last done) None 0 row) as [brow|]; [simpl | done].
    rewrite list_lookup_middle by done. simpl.
    destruct (Tiles.cat_w _) as [result_row|]; [simpl | done].
    specialize (IH (done ++ [brow]) (result_rows ++ [result_row])).
    rewrite length_app, last_snoc in IH. simpl in IH.
    rewrite Nat.add_1_r in IH. rewrite <- !app_assoc in IH. simpl in IH.
    rewrite IH.
    destruct (Tiles.blended_rows beh bew rlh rlw (Some brow) rest) as [st|]; [simpl | done].
    by rewrite <- !app_assoc.
Qed.

Lemma stitch_is_blended_above (rows : Tiles.store) :
  Tiles.stitch beh bew rlh rlw rows = Tiles.stitch_blended_above beh bew rlh rlw rows.
Proof.
  unfold Tiles.stitch, Tiles.stitch_blended_above.
  pose proof (stitch_rows_of_store rows [] []) as H. simpl in H. rewrite H.
  by destruct (Tiles.blended_rows beh bew rlh rlw None rows) as [[s rr]|].
Qed.
End stitching.

(** C10: the second loop nest of [tiled_encode] and [tiled_decode], run on
    the store of tile objects with [blend_v] and [blend_h] assigning into
    the current tile, leaves in the store, and returns stitched, what the
    blending computes when the tile above handed to [blend_v] is the
    finished, top- and left-blended tile of the row above; on the 2 × 2
    grid this differs from blending with the tiles above as the network
    returned them. *)
Theorem stitch_blends_with_finished_row_above :
  (∀ (blend_extent_height blend_extent_width row_limit_height row_limit_width : Z)
     (rows : Tiles.store),
     Tiles.stitch blend_extent_height blend_extent_width row_limit_height row_limit_width rows
     = Tiles.stitch_blended_above blend_extent_height blend_extent_width
         row_limit_height row_limit_width rows) ∧
  Tiles.stitch 1 2 1 2 Tiles.grid22 ≠ Tiles.stitch_raw_above 1 2 1 2 Tiles.grid22.
Proof.
  split.
  - intros. apply stitch_is_blended_above.
  - intros H.
    apply (f_equal (fmap (λ r : Tiles.store * Tiles.tile, Tiles.tile_values r.2))) in H.
    vm_compute in H. discriminate.
Qed.

(** ** Slicing *)


Section slicing.
Context {sample latent : Type}.
Context (encoder : Batch.tensor sample → Batch.tensor latent).
Context (tiled_encode : Z * Z * Z * Z * Q * Q → Batch.tensor sample → Batch.tensor latent).
Context (quantize : Batch.tensor latent → Batch.tensor latent).







End slicing.






(** ** Shapes through the layers *)

(** Integer division and remainder by constants are handed to [lia]. *)
Ltac Zify.zify_post_hook ::= Z.to_euclidean_division_equations.

Lemma pow2_S (n : nat) : pow2 (S n) = 2 * pow2 n.
Proof. unfold pow2. rewrite Nat2Z.inj_succ, Z.pow_succ_r; lia. Qed.

Lemma pow2_pos (n : nat) : 1 ≤ pow2 n.
Proof. unfold pow2. pose proof (Z.pow_pos_nonneg 2 (Z.of_nat n)). lia. Qed.

Ltac case_ltb :=
  match goal with |- context [?a <? ?b] => destruct (Z.ltb_spec a b) end.

Lemma axis_out_same (k p : Z) (n : Z) :
  1 ≤ n → (k, p) = (3, 1) ∨ (k, p) = (1, 0) →
  Shape.axis_out (k, 1, 1, p, p) n = Some n.
Proof.
  intros Hn [[= -> ->] | [= -> ->]]; unfold Shape.axis_out; simpl.
  - case_ltb; [lia | f_equal; rewrite Z.div_1_r; lia].
  - case_ltb; [lia | f_equal; rewrite Z.div_1_r; lia].
Qed.

Lemma axis_out_causal (n : Z) :
  1 ≤ n → Shape.axis_out (3, 1, 1, 2, 0) n = Some n.
Proof.
  intros Hn. unfold Shape.axis_out. simpl.
  case_ltb; [lia | f_equal; rewrite Z.div_1_r; lia].
Qed.

Lemma axis_out_halve_causal (m : Z) :
  1 ≤ m → Shape.axis_out (3, 1, 2, 1, 0) (2 * m) = Some m.
Proof.
  intros Hm. unfold Shape.axis_out. simpl.
  case_ltb; [lia | f_equal; lia].
Qed.

Lemma axis_out_halve_padded (m : Z) :
  1 ≤ m → Shape.axis_out (3, 1, 2, 0, 0) (2 * m + 1) = Some m.
Proof.
  intros Hm. unfold Shape.axis_out. simpl.
  case_ltb; [lia | f_equal; lia].
Qed.

Ltac axis_steps :=
  repeat first
    [ rewrite axis_out_causal by lia
    | rewrite (axis_out_same 3 1) by (lia || auto)
    | rewrite (axis_out_same 1 0) by (lia || auto)
    | rewrite axis_out_halve_causal by lia
    | rewrite axis_out_halve_padded by lia ];
  cbn [mbind option_bind].

(** The convolutions of the blocks (kernel 3 with padding 1, or kernel 1
    with padding 0, stride 1) change the channel count only. *)
Lemma make_conv_keeps (bt : btype) (causal : bool) (cin cout k p N : Z) (dims : list Z) :
  (k, p) = (3, 1) ∨ (k, p) = (1, 0) →
  length dims = rank_of bt →
  Forall (λ n, 1 ≤ n) dims →
  Shape.conv_forward (VidTokResnetBlock.make_conv_cls bt causal cin cout k 1 p)
    (N :: cin :: dims) = Some (N :: cout :: dims).
Proof.
  intros Hk Hlen Hdims.
  destruct bt; simpl in Hlen;
    repeat (destruct dims as [|? dims]; simpl in Hlen; try lia);
    repeat match goal with H : Forall _ (_ :: _) |- _ => apply Forall_cons in H as [? H] end;
    destruct Hk as [[= -> ->] | [= -> ->]], causal;
    unfold Shape.conv_forward;
    cbn [VidTokResnetBlock.make_conv_cls Shape.nn_conv Shape.of_causal1d Shape.of_causal3d
         Shape.in_channels Shape.out_channels Shape.axes replicate zip_exact
         VidTokCausalConv1d.init VidTokCausalConv3d.init VidTokCausalConv3d.cast_tuple
         VidTokCausalConv1d.in_channels VidTokCausalConv1d.out_channels
         VidTokCausalConv1d.kernel_size VidTokCausalConv1d.dilation VidTokCausalConv1d.stride
         VidTokCausalConv1d.time_causal_padding
         VidTokCausalConv3d.in_channels VidTokCausalConv3d.out_channels
         VidTokCausalConv3d.kernel_size VidTokCausalConv3d.dilation VidTokCausalConv3d.stride
         VidTokCausalConv3d.time_causal_padding fst snd];
    rewrite Z.eqb_refl;
    change (1 * (3 - 1) + (1 - 1)) with 2;
    change (1 * (1 - 1) + (1 - 1)) with 0;
    change (2 / 2) with 1; change (2 - 1) with 1;
    change (0 / 2) with 0; change (0 - 0) with 0;
    axis_steps; reflexivity.
Qed.

Lemma layer_norm_ok (c N : Z) (dims : list Z) :
  Shape.layer_norm c (N :: c :: dims) = Some (N :: c :: dims).
Proof. simpl. by rewrite Z.eqb_refl. Qed.

Lemma shape_add_same (x : Shape.shape) : Shape.add x x = Some x.
Proof. unfold Shape.add. by rewrite decide_True. Qed.

(** A residual block changes the channel count only. *)
Lemma resnet_block_forward (bt : btype) (causal : bool) (cin cout N : Z) (dims : list Z) :
  length dims = rank_of bt →
  Forall (λ n, 1 ≤ n) dims →
  VidTokResnetBlock.forward_shape (VidTokResnetBlock.init cin (Some cout) false bt causal)
    (N :: cin :: dims) = Some (N :: cout :: dims).
Proof.
  intros Hlen Hdims. unfold VidTokResnetBlock.forward_shape, VidTokResnetBlock.init.
  cbn [VidTokResnetBlock.norm1 VidTokResnetBlock.conv1 VidTokResnetBlock.norm2
       VidTokResnetBlock.conv2 VidTokResnetBlock.in_channels VidTokResnetBlock.out_channels
       VidTokResnetBlock.use_conv_shortcut VidTokResnetBlock.conv_shortcut
       VidTokResnetBlock.nin_shortcut default from_option].
  rewrite layer_norm_ok. cbn [mbind option_bind].
  rewrite make_conv_keeps by auto. cbn [mbind option_bind].
  rewrite layer_norm_ok. cbn [mbind option_bind].
  rewrite make_conv_keeps by auto. cbn [mbind option_bind].
  destruct (decide (cin = cout)) as [-> | Hne].
  - rewrite bool_decide_eq_false_2 by auto. cbn [mbind option_bind].
    apply shape_add_same.
  - rewrite bool_decide_eq_true_2 by auto. cbn [andb negb mbind option_bind].
    rewrite make_conv_keeps by auto. cbn [mbind option_bind].
    apply shape_add_same.
Qed.

Lemma spatial_temporal_resblk_forward (c1 c2 : bool) (B C C' T H W : Z) :
  1 ≤ T → 1 ≤ H → 1 ≤ W →
  spatial_temporal_resblk_shape [B; C; T; H; W]
    (VidTokResnetBlock.init C (Some C') false B2d c1)
    (VidTokResnetBlock.init C' (Some C') false B1d c2)
  = Some [B; C'; T; H; W].
Proof.
  intros HT HH HW. unfold spatial_temporal_resblk_shape.
  cbn [Shape.merge_bt mbind option_bind].
  rewrite (resnet_block_forward B2d) by (auto; repeat constructor; lia).
  cbn [mbind option_bind Shape.split_bt]. rewrite Z.eqb_refl.
  cbn [mbind option_bind Shape.merge_bhw].
  rewrite (resnet_block_forward B1d) by (auto; repeat constructor; lia).
  cbn [mbind option_bind Shape.split_bhw]. by rewrite Z.eqb_refl.
Qed.

Lemma attention_forward (causal : bool) (B C T H W : Z) :
  1 ≤ T → 1 ≤ H → 1 ≤ W →
  VidTokAttnBlockWrapper.forward_shape (VidTokAttnBlockWrapper.init C causal) [B; C; T; H; W]
  = Some [B; C; T; H; W].
Proof.
  intros HT HH HW.
  assert (Hconv : Shape.conv_forward (VidTokAttnBlockWrapper.make_conv_cls causal C C 1 1 0)
                    [B; C; T; H; W] = Some [B; C; T; H; W]).
  { apply (make_conv_keeps B3d causal C C 1 0 B [T; H; W]);
      [by right | done | repeat constructor; lia]. }
  unfold VidTokAttnBlockWrapper.forward_shape, VidTokAttnBlockWrapper.attention_shape,
    VidTokAttnBlockWrapper.init.
  cbn [VidTokAttnBlockWrapper.norm VidTokAttnBlockWrapper.q VidTokAttnBlockWrapper.k
       VidTokAttnBlockWrapper.v VidTokAttnBlockWrapper.proj_out].
  rewrite layer_norm_ok. cbn [mbind option_bind].
  rewrite !Hconv. cbn [mbind option_bind].
  rewrite decide_True by done. cbn [mbind option_bind].
  rewrite Hconv. cbn [mbind option_bind]. apply shape_add_same.
Qed.

Lemma resnet_block_3d_forward (causal : bool) (B C T H W : Z) :
  1 ≤ T → 1 ≤ H → 1 ≤ W →
  VidTokResnetBlock.forward_shape (VidTokResnetBlock.init C (Some C) false B3d causal)
    [B; C; T; H; W] = Some [B; C; T; H; W].
Proof.
  intros. apply (resnet_block_forward B3d); [done | repeat constructor; lia].
Qed.

Lemma downsample2d_forward (c N h w : Z) :
  VidTokDownsample2D.forward_shape {| VidTokDownsample2D.channels := c |} [N; c; 2 * h; 2 * w]
  = Some [N; c; h; w].
Proof.
  cbn [VidTokDownsample2D.forward_shape VidTokDownsample2D.channels]. rewrite Z.eqb_refl.
  replace (2 * h / 2) with h by lia. by replace (2 * w / 2) with w by lia.
Qed.

Lemma upsample2d_forward (c N h w : Z) :
  VidTokUpsample2D.forward_shape {| VidTokUpsample2D.channels := c |} [N; c; h; w]
  = Some [N; c; 2 * h; 2 * w].
Proof. simpl. by rewrite Z.eqb_refl. Qed.

(** The temporal downsampling block halves an even time length. *)
Lemma downsample3d_forward (causal : bool) (mix : Qc) (B c m H W : Z) :
  1 ≤ m → 1 ≤ H → 1 ≤ W →
  Shape.VidTokDownsample3D_forward (VidTokDownsample3D_init c c mix causal) [B; c; 2 * m; H; W]
  = Some [B; c; m; H; W].
Proof.
  intros Hm HH HW. unfold Shape.VidTokDownsample3D_forward, VidTokDownsample3D_init.
  destruct causal;
    cbn [down_is_causal down_conv Shape.pad_time1 Shape.avg_pool mbind option_bind
         Shape.of_conv_cls Shape.of_causal3d Shape.of_conv3d Shape.conv_forward
         Shape.in_channels Shape.out_channels Shape.axes zip_exact
         VidTokCausalConv3d.init VidTokCausalConv3d.cast_tuple
         VidTokCausalConv3d.in_channels VidTokCausalConv3d.out_channels
         VidTokCausalConv3d.kernel_size VidTokCausalConv3d.dilation VidTokCausalConv3d.stride
         VidTokCausalConv3d.time_causal_padding
         Conv3d.in_channels Conv3d.out_channels Conv3d.kernel_size Conv3d.dilation
         Conv3d.stride Conv3d.padding fst snd];
    rewrite ?Z.eqb_refl;
    change (1 * (3 - 1) + (1 - 2)) with 1;
    change (1 * (3 - 1) + (1 - 1)) with 2;
    change (2 / 2) with 1; change (2 - 1) with 1;
    axis_steps; apply shape_add_same.
Qed.

(** The temporal upsampling block doubles the time length. *)
Lemma upsample3d_forward (causal : bool) (mix : Qc) (B c T H W : Z) :
  1 ≤ B → 1 ≤ T → 1 ≤ H → 1 ≤ W →
  Shape.VidTokUpsample3D_forward (VidTokUpsample3D_init c c mix causal) [B; c; T; H; W]
  = Some [B; c; 2 * T; H; W].
Proof.
  intros HB HT HH HW. unfold Shape.VidTokUpsample3D_forward, VidTokUpsample3D_init.
  destruct (Z.leb_spec B 0); [lia |].
  destruct causal;
    cbn [up_conv mbind option_bind
         Shape.of_conv_cls Shape.of_causal3d Shape.of_conv3d Shape.conv_forward
         Shape.in_channels Shape.out_channels Shape.axes zip_exact
         VidTokCausalConv3d.init VidTokCausalConv3d.cast_tuple
         VidTokCausalConv3d.in_channels VidTokCausalConv3d.out_channels
         VidTokCausalConv3d.kernel_size VidTokCausalConv3d.dilation VidTokCausalConv3d.stride
         VidTokCausalConv3d.time_causal_padding
         Conv3d.in_channels Conv3d.out_channels Conv3d.kernel_size Conv3d.dilation
         Conv3d.stride Conv3d.padding fst snd];
    rewrite ?Z.eqb_refl;
    change (1 * (3 - 1) + (1 - 1)) with 2;
    change (2 / 2) with 1; change (2 - 1) with 1;
    axis_steps; apply shape_add_same.
Qed.

(** ** Loops *)

Lemma loop_fmap {S : Type} (body : nat → S → option S) (g : nat → nat) (l : list nat) (s : S) :
  loop body (g <$> l) s = loop (λ i, body (g i)) l s.
Proof.
  revert s. induction l as [|i l IH]; intros s; [done |].
  simpl. destruct (body (g i) s); simpl; auto.
Qed.

Lemma loop_ext {S : Type} (body body' : nat → S → option S) (l : list nat) (s : S) :
  (∀ i s, body i s = body' i s) → loop body l s = loop body' l s.
Proof.
  intros H. revert s. induction l as [|i l IH]; intros s; [done |].
  simpl. rewrite H. destruct (body' i s); simpl; auto.
Qed.

(** A loop over [range(S n)] that indexes two lists: the first turn uses
    the heads, the other turns run on the tails. *)
Lemma loop_two_lists {S A : Type} (F : S → A → A → option S) (a b : A) (l k : list A)
    (n : nat) (s : S) :
  loop (λ i s, x ← (a :: l) !! i; y ← (b :: k) !! i; F s x y) (seq 0 (Datatypes.S n)) s
  = s ← F s a b; loop (λ i s, x ← l !! i; y ← k !! i; F s x y) (seq 0 n) s.
Proof.
  cbn [seq loop lookup list_lookup mbind option_bind].
  destruct (F s a b) as [s'|]; [cbn [mbind option_bind] | done].
  rewrite <- fmap_S_seq, loop_fmap. by apply loop_ext.
Qed.

(** ** The encoder on shapes *)

Lemma encoder_init_blocks_block_in (n : nat) (bi bo : Z) (causal : bool) :
  (VidTokEncoder3D.init_blocks n bi bo causal).2 = if n is O then bi else bo.
Proof.
  revert bi. induction n as [|n IH]; intros bi; [done |].
  simpl. specialize (IH bo).
  destruct (VidTokEncoder3D.init_blocks n bo bo causal) as [[bl btl] bi'].
  simpl in *. by destruct n.
Qed.

Lemma encoder_blocks_loop (n : nat) (bi bo : Z) (causal : bool) (B T H W : Z) :
  1 ≤ T → 1 ≤ H → 1 ≤ W →
  loop (λ i_block h,
          bs ← (VidTokEncoder3D.init_blocks n bi bo causal).1.1 !! i_block;
          bt ← (VidTokEncoder3D.init_blocks n bi bo causal).1.2 !! i_block;
          spatial_temporal_resblk_shape h bs bt)
    (seq 0 n) [B; bi; T; H; W]
  = Some [B; (VidTokEncoder3D.init_blocks n bi bo causal).2; T; H; W].
Proof.
  intros HT HH HW. revert bi. induction n as [|n IH]; intros bi; [done |].
  cbn [VidTokEncoder3D.init_blocks]. specialize (IH bo).
  destruct (VidTokEncoder3D.init_blocks n bo bo causal) as [[bl btl] bi'].
  cbn [fst snd] in *.
  rewrite (loop_two_lists (λ h bs bt, spatial_temporal_resblk_shape h bs bt)).
  rewrite spatial_temporal_resblk_forward by done. cbn [mbind option_bind].
  exact IH.
Qed.

Section encoder_levels.
Context (ch : Z) (ch_mult : list Z) (nrb : Z) (causal : bool).
Context (enc : VidTokEncoder3D.t).
Let L := length ch_mult.
Let cm (i : nat) : Z := default 0 (ch_mult !! i).
Let icm (i : nat) : Z := default 0 ((1 :: ch_mult) !! i).
Let lvl (i : nat) :=
  VidTokEncoder3D.init_level ch ch_mult nrb causal (Z.of_nat L)
    [Z.of_nat L - 2; Z.of_nat L - 3] i.

Hypothesis Hnrb : 1 ≤ nrb.
Hypothesis Hblocks : VidTokEncoder3D.num_res_blocks enc = nrb.
Hypothesis Hres : VidTokEncoder3D.num_resolutions enc = Z.of_nat L.
Hypothesis Htempo : VidTokEncoder3D.tempo_ds enc = [Z.of_nat L - 2; Z.of_nat L - 3].
Hypothesis Hdown : ∀ i, (i < L)%nat → VidTokEncoder3D.down enc !! i = Some (lvl i).1.1.
Hypothesis Hdownt : ∀ i, (i < L)%nat → VidTokEncoder3D.down_temporal enc !! i = Some (lvl i).1.2.

Lemma encoder_level_forward (i : nat) (B T H W : Z) :
  (i < L)%nat → 1 ≤ T → 1 ≤ H → 1 ≤ W →
  VidTokEncoder3D.level_forward enc i
    ([B; ch * icm i;
      if bool_decide (S i = L) then T else if temporal_level L i then 2 * T else T;
      if bool_decide (S i = L) then H else 2 * H;
      if bool_decide (S i = L) then W else 2 * W], B,
     if bool_decide (S i = L) then T else if temporal_level L i then 2 * T else T)
  = Some ([B; ch * cm i; T; H; W], B, T).
Proof using Hnrb Hblocks Hres Htempo Hdown Hdownt.
  intros Hi HT HH HW. unfold VidTokEncoder3D.level_forward.
  rewrite Hdown, Hdownt by done. cbn [mbind option_bind].
  rewrite Hblocks, Hres, Htempo.
  unfold lvl, VidTokEncoder3D.init_level. fold (icm i). fold (cm i).
  pose proof (encoder_blocks_loop (Z.to_nat nrb) (ch * icm i) (ch * cm i) causal B) as Hloop.
  pose proof (encoder_init_blocks_block_in (Z.to_nat nrb) (ch * icm i) (ch * cm i) causal) as Hbi.
  destruct (VidTokEncoder3D.init_blocks (Z.to_nat nrb) (ch * icm i) (ch * cm i) causal)
    as [[bl btl] bi].
  cbn [fst snd VidTokEncoder3D.block VidTokEncoder3D.tblock VidTokEncoder3D.downsample
       VidTokEncoder3D.tdownsample] in *.
  assert (bi = ch * cm i) as ->.
  { rewrite Hbi. destruct (Z.to_nat nrb) eqn:E; [lia | done]. }
  change (bool_decide (Z.of_nat i ∈ [Z.of_nat L - 2; Z.of_nat L - 3]))
    with (temporal_level L i).
  destruct (decide (S i = L)) as [Hlast | Hlast].
  - rewrite (bool_decide_eq_true_2 (S i = L)) by done.
    rewrite Hloop by done. cbn [mbind option_bind].
    by rewrite bool_decide_eq_false_2 by lia.
  - rewrite (bool_decide_eq_false_2 (S i = L)) by done.
    rewrite Hloop by (destruct (temporal_level L i); lia). cbn [mbind option_bind].
    rewrite bool_decide_eq_true_2 by lia.
    cbn [Shape.merge_bt mbind option_bind andb].
    rewrite downsample2d_forward. cbn [mbind option_bind Shape.split_bt].
    rewrite Z.eqb_refl. cbn [mbind option_bind].
    destruct (temporal_level L i); cbn [mbind option_bind].
    + by rewrite downsample3d_forward by done.
    + done.
Qed.
Lemma temporal_level_spec (n i : nat) :
  temporal_level n i = true ↔ (i + 2 = n ∨ i + 3 = n)%nat.
Proof.
  unfold temporal_level, spec_temporal_levels. rewrite bool_decide_eq_true.
  rewrite !elem_of_cons, elem_of_nil. lia.
Qed.

(** The levels from [i] on, [k] of them: what is left of time, height and
    width after them. *)
Lemma encoder_levels_loop (k i : nat) (B T H W : Z) :
  (i + S k = L)%nat → 1 ≤ T → 1 ≤ H → 1 ≤ W →
  loop (VidTokEncoder3D.level_forward enc) (seq i (S k))
    ([B; ch * icm i; pow2 (k `min` 2) * T; pow2 k * H; pow2 k * W], B, pow2 (k `min` 2) * T)
  = Some ([B; ch * cm (L - 1); T; H; W], B, T).
Proof using Hnrb Hblocks Hres Htempo Hdown Hdownt.
  revert i. induction k as [|k IH]; intros i Hik HT HH HW.
  - cbn [seq loop]. pose proof (encoder_level_forward i B T H W) as Hl.
    rewrite (bool_decide_eq_true_2 (S i = L)) in Hl by lia.
    change (pow2 (0 `min` 2)) with 1. change (pow2 0) with 1. rewrite !Z.mul_1_l.
    rewrite Hl by (done || lia). cbn [mbind option_bind].
    by replace i with (L - 1)%nat by lia.
  - rewrite <- cons_seq. cbn [loop].
    pose proof (encoder_level_forward i B (pow2 (k `min` 2) * T) (pow2 k * H) (pow2 k * W))
      as Hl.
    rewrite (bool_decide_eq_false_2 (S i = L)) in Hl by lia.
    pose proof (pow2_pos (k `min` 2)). pose proof (pow2_pos k).
    assert (Heq : (if temporal_level L i then 2 * (pow2 (k `min` 2) * T)
                   else pow2 (k `min` 2) * T) = pow2 (S k `min` 2) * T).
    { destruct (temporal_level L i) eqn:Ht.
      - apply temporal_level_spec in Ht.
        replace (S k `min` 2)%nat with (S (k `min` 2)) by lia. rewrite pow2_S. lia.
      - replace (S k `min` 2)%nat with (k `min` 2)%nat; [done |].
        destruct (decide (i + 2 = L ∨ i + 3 = L)%nat) as [Hd | Hd]; [| lia].
        apply temporal_level_spec in Hd. congruence. }
    rewrite Heq in Hl. rewrite !(pow2_S k), <- !Z.mul_assoc.
    rewrite Hl by (done || nia). cbn [mbind option_bind].
    change (ch * cm i) with (ch * icm (S i)).
    apply IH; [lia | done..].
Qed.
End encoder_levels.

Lemma last_fmap_seq {A : Type} (f : nat → A) (n : nat) :
  last (f <$> seq 0 (S n)) = Some (f n).
Proof. rewrite seq_S, fmap_app. cbn [fmap list_fmap]. by rewrite last_snoc. Qed.

Lemma encoder_init_level_block_in (ch : Z) (ch_mult : list Z) (nrb : Z) (causal : bool)
    (L : Z) (tempo_ds : list Z) (i : nat) :
  1 ≤ nrb →
  (VidTokEncoder3D.init_level ch ch_mult nrb causal L tempo_ds i).2
  = ch * default 0 (ch_mult !! i).
Proof.
  intros Hnrb. unfold VidTokEncoder3D.init_level.
  pose proof (encoder_init_blocks_block_in (Z.to_nat nrb)
                (ch * default 0 ((1 :: ch_mult) !! i)) (ch * default 0 (ch_mult !! i)) causal)
    as Hbi.
  destruct (VidTokEncoder3D.init_blocks _ _ _ _) as [[bl btl] bi]. simpl in *.
  rewrite Hbi. destruct (Z.to_nat nrb) eqn:E; [lia | done].
Qed.

Lemma Ok_inj {A : Type} (x y : A) : Ok x = Ok y → x = y.
Proof. by intros [= ->]. Qed.

(** The encoder divides the time length by [2 ^ min (L - 1) 2] and height
    and width by [2 ^ (L - 1)]. *)
Lemma encoder_forward_shape (in_ch ch : Z) (ch_mult : list Z) (nrb zc : Z) (dz causal : bool)
    (enc : VidTokEncoder3D.t) (B T H W : Z) :
  VidTokEncoder3D.init in_ch ch ch_mult nrb zc dz causal = Ok enc →
  1 ≤ nrb → 1 ≤ T → 1 ≤ H → 1 ≤ W →
  VidTokEncoder3D.forward_shape enc
    [B; in_ch; pow2 ((length ch_mult - 1) `min` 2) * T;
     pow2 (length ch_mult - 1) * H; pow2 (length ch_mult - 1) * W]
  = Some [B; if dz then 2 * zc else zc; T; H; W].
Proof.
  intros Hinit Hnrb HT HH HW. unfold VidTokEncoder3D.init in Hinit.
  destruct (length ch_mult) as [|n] eqn:HL; [done |].
  rewrite last_fmap_seq in Hinit.
  pose proof (encoder_init_level_block_in ch ch_mult nrb causal (Z.of_nat (S n))
                [Z.of_nat (S n) - 2; Z.of_nat (S n) - 3] n Hnrb) as Hbi.
  destruct (VidTokEncoder3D.init_level _ _ _ _ _ _ n) as [[ln ltn] bi] eqn:Hlvl.
  cbn [snd] in Hbi. subst bi. apply Ok_inj in Hinit. subst enc.
  replace (S n - 1)%nat with n by lia.
  pose proof (pow2_pos n). pose proof (pow2_pos (n `min` 2)).
  unfold VidTokEncoder3D.forward_shape.
  cbn [VidTokEncoder3D.conv_in VidTokEncoder3D.num_resolutions VidTokEncoder3D.mid_block_1
       VidTokEncoder3D.mid_attn_1 VidTokEncoder3D.mid_block_2 VidTokEncoder3D.norm_out
       VidTokEncoder3D.conv_out].
  rewrite (make_conv_keeps B3d) by (auto; repeat constructor; nia).
  cbn [mbind option_bind]. rewrite Nat2Z.id.
  match goal with |- context [loop (VidTokEncoder3D.level_forward ?e) _ _] =>
    pose proof (encoder_levels_loop ch ch_mult nrb causal e Hnrb eq_refl) as Hloop
  end.
  cbn [VidTokEncoder3D.num_resolutions VidTokEncoder3D.tempo_ds VidTokEncoder3D.down
       VidTokEncoder3D.down_temporal] in Hloop.
  rewrite HL in Hloop.
  specialize (Hloop eq_refl eq_refl).
  assert (Hlk : ∀ {X : Type} (g : VidTokEncoder3D.level * VidTokEncoder3D.level_temporal * Z → X)
                  (f : nat → VidTokEncoder3D.level * VidTokEncoder3D.level_temporal * Z) (i : nat),
             (i < S n)%nat → (g <$> (f <$> seq 0 (S n))) !! i = Some (g (f i))).
  { intros X g f i Hi. rewrite !list_lookup_fmap, lookup_seq_lt by done. done. }
  specialize (Hloop (λ i Hi, Hlk _ _ _ i Hi) (λ i Hi, Hlk _ _ _ i Hi)).
  specialize (Hloop n 0%nat B T H W eq_refl HT HH HW).
  change (default 0 ((1 :: ch_mult) !! 0%nat)) with 1 in Hloop.
  rewrite Z.mul_1_r in Hloop. rewrite Hloop. clear Hloop.
  cbn [mbind option_bind fst snd]. replace (S n - 1)%nat with n by lia.
  rewrite resnet_block_3d_forward by done. cbn [mbind option_bind].
  rewrite attention_forward by done. cbn [mbind option_bind].
  rewrite resnet_block_3d_forward by done. cbn [mbind option_bind].
  rewrite layer_norm_ok. cbn [mbind option_bind].
  by rewrite (make_conv_keeps B3d) by (auto; repeat constructor; lia).
Qed.
(** ** The decoder on shapes *)

Lemma decoder_init_blocks_block_in (n : nat) (bt : btype) (bi bo : Z) (causal : bool) :
  (VidTokDecoder3D.init_blocks n bt bi bo causal).2 = if n is O then bi else bo.
Proof.
  revert bi. induction n as [|n IH]; intros bi; [done |].
  simpl. specialize (IH bo).
  destruct (VidTokDecoder3D.init_blocks n bt bo bo causal) as [bl bi'].
  simpl in *. by destruct n.
Qed.

Lemma decoder_blocks_loop (n : nat) (bi bo : Z) (causal : bool) (B T H W : Z) :
  1 ≤ T → 1 ≤ H → 1 ≤ W →
  loop (λ i_block h,
          bs ← (VidTokDecoder3D.init_blocks n B2d bi bo true).1 !! i_block;
          bt ← (VidTokDecoder3D.init_blocks n B1d bo bo causal).1 !! i_block;
          spatial_temporal_resblk_shape h bs bt)
    (seq 0 n) [B; bi; T; H; W]
  = Some [B; if n is O then bi else bo; T; H; W].
Proof.
  intros HT HH HW. revert bi. induction n as [|n IH]; intros bi; [done |].
  cbn [VidTokDecoder3D.init_blocks]. specialize (IH bo).
  destruct (VidTokDecoder3D.init_blocks n B2d bo bo true) as [bl bi'].
  destruct (VidTokDecoder3D.init_blocks n B1d bo bo causal) as [btl bi''].
  cbn [fst snd] in *.
  rewrite (loop_two_lists (λ h bs bt, spatial_temporal_resblk_shape h bs bt)).
  rewrite spatial_temporal_resblk_forward by done. cbn [mbind option_bind].
  rewrite IH. by destruct n.
Qed.

Lemma reverse_seq_S (n : nat) : reverse (seq 0 (S n)) = n :: reverse (seq 0 n).
Proof. by rewrite seq_S, reverse_app. Qed.

(** The first construction loop of the decoder builds [up] in level order. *)
Lemma init_up_spec (ch : Z) (ch_mult : list Z) (nrb : Z) (n : nat) (block_in : Z)
    (up : list VidTokDecoder3D.level) :
  0 ≤ nrb →
  VidTokDecoder3D.init_up (reverse (seq 0 n)) ch ch_mult nrb block_in up
  = ((up_level ch ch_mult nrb n block_in <$> seq 0 n) ++ up,
     if n is O then block_in else ch * default 0 (ch_mult !! 0%nat)).
Proof.
  intros Hnrb. revert block_in up. induction n as [|n IH]; intros block_in up; [done |].
  rewrite reverse_seq_S. cbn [VidTokDecoder3D.init_up].
  pose proof (decoder_init_blocks_block_in (Z.to_nat (nrb + 1)) B2d block_in
                (ch * default 0 (ch_mult !! n)) true) as Hbi.
  destruct (VidTokDecoder3D.init_blocks (Z.to_nat (nrb + 1)) B2d block_in
              (ch * default 0 (ch_mult !! n)) true) as [bl bi] eqn:Hbl.
  cbn [snd] in Hbi.
  assert (bi = ch * default 0 (ch_mult !! n)) as ->.
  { rewrite Hbi. destruct (Z.to_nat (nrb + 1)) eqn:E; [lia | done]. }
  rewrite IH. f_equal.
  - rewrite seq_S, fmap_app, <- app_assoc. f_equal.
    + apply list_fmap_ext. intros j i Hi.
      apply lookup_seq in Hi as [Hij Hi]. cbn [Nat.add] in Hij. subst j. unfold up_level.
      rewrite (bool_decide_eq_false_2 (S i = S n)) by lia.
      destruct (decide (S i = n)) as [<- | Hne].
      * by rewrite bool_decide_eq_true_2 by done.
      * by rewrite bool_decide_eq_false_2 by done.
    + cbn [fmap list_fmap app Nat.add]. f_equal. unfold up_level.
      rewrite (bool_decide_eq_true_2 (S n = S n)) by done. by rewrite Hbl.
  - by destruct n.
Qed.

(** The second construction loop builds [up_temporal] in level order. *)
Lemma init_up_temporal_spec (ch : Z) (ch_mult : list Z) (nrb : Z) (causal : bool)
    (tempo_us : list Z) (n : nat) (block_in : Z) (up : list VidTokDecoder3D.level_temporal) :
  0 ≤ nrb →
  VidTokDecoder3D.init_up_temporal (reverse (seq 0 n)) ch ch_mult nrb causal tempo_us
    block_in up
  = ((up_temporal_level ch ch_mult nrb causal tempo_us <$> seq 0 n) ++ up,
     if n is O then block_in else ch * default 0 (ch_mult !! 0%nat)).
Proof.
  intros Hnrb. revert block_in up. induction n as [|n IH]; intros block_in up; [done |].
  rewrite reverse_seq_S. cbn [VidTokDecoder3D.init_up_temporal].
  pose proof (decoder_init_blocks_block_in (Z.to_nat (nrb + 1)) B1d
                (ch * default 0 (ch_mult !! n)) (ch * default 0 (ch_mult !! n)) causal) as Hbi.
  destruct (VidTokDecoder3D.init_blocks (Z.to_nat (nrb + 1)) B1d
              (ch * default 0 (ch_mult !! n)) (ch * default 0 (ch_mult !! n)) causal)
    as [bl bi] eqn:Hbl.
  cbn [snd] in Hbi.
  assert (bi = ch * default 0 (ch_mult !! n)) as ->.
  { rewrite Hbi. destruct (Z.to_nat (nrb + 1)) eqn:E; [lia | done]. }
  rewrite IH. f_equal.
  - rewrite seq_S, fmap_app, <- app_assoc. f_equal.
    cbn [fmap list_fmap app Nat.add]. f_equal. unfold up_temporal_level. by rewrite Hbl.
  - by destruct n.
Qed.

Section decoder_levels.
Context (ch : Z) (ch_mult : list Z) (nrb : Z) (causal : bool).
Context (dec : VidTokDecoder3D.t) (block_in : Z).
Let L := length ch_mult.
Let cm (i : nat) : Z := default 0 (ch_mult !! i).
Let entry (i : nat) : Z := if bool_decide (S i = L) then block_in else ch * cm (S i).

Hypothesis Hnrb : 0 ≤ nrb.
Hypothesis Hblocks : VidTokDecoder3D.num_res_blocks dec = nrb.
Hypothesis Htempo : VidTokDecoder3D.tempo_us dec = [1; 2].
Hypothesis Hup : ∀ i, (i < L)%nat →
  VidTokDecoder3D.up dec !! i = Some (up_level ch ch_mult nrb L block_in i).
Hypothesis Hupt : ∀ i, (i < L)%nat →
  VidTokDecoder3D.up_temporal dec !! i
  = Some (up_temporal_level ch ch_mult nrb causal [1; 2] i).

Lemma decoder_level_forward (i : nat) (B T H W : Z) :
  (i < L)%nat → 1 ≤ B → 1 ≤ T → 1 ≤ H → 1 ≤ W →
  VidTokDecoder3D.level_forward dec i ([B; entry i; T; H; W], B, T)
  = Some ([B; ch * cm i;
           if bool_decide (i ≠ 0%nat)
           then if bool_decide (Z.of_nat i ∈ [1; 2]) then 2 * T else T else T;
           if bool_decide (i ≠ 0%nat) then 2 * H else H;
           if bool_decide (i ≠ 0%nat) then 2 * W else W], B,
          if bool_decide (i ≠ 0%nat)
          then if bool_decide (Z.of_nat i ∈ [1; 2]) then 2 * T else T else T).
Proof using Hnrb Hblocks Htempo Hup Hupt.
  intros Hi HB HT HH HW. unfold VidTokDecoder3D.level_forward.
  rewrite Hup, Hupt by done. cbn [mbind option_bind].
  rewrite Hblocks, Htempo.
  unfold up_level, up_temporal_level. fold (cm i). fold (cm (S i)). fold (entry i).
  pose proof (decoder_blocks_loop (Z.to_nat (nrb + 1)) (entry i) (ch * cm i) causal B T H W
                HT HH HW) as Hloop.
  pose proof (decoder_init_blocks_block_in (Z.to_nat (nrb + 1)) B2d (entry i) (ch * cm i) true)
    as Hbi.
  pose proof (decoder_init_blocks_block_in (Z.to_nat (nrb + 1)) B1d (ch * cm i) (ch * cm i)
                causal) as Hbit.
  destruct (Z.to_nat (nrb + 1)) as [|m] eqn:E; [lia |].
  destruct (VidTokDecoder3D.init_blocks (S m) B2d (entry i) (ch * cm i) true) as [bl bi].
  destruct (VidTokDecoder3D.init_blocks (S m) B1d (ch * cm i) (ch * cm i) causal) as [btl bit].
  cbn [fst snd VidTokDecoder3D.block VidTokDecoder3D.tblock VidTokDecoder3D.upsample
       VidTokDecoder3D.tupsample] in *.
  subst bi bit. rewrite Hloop. cbn [mbind option_bind].
  destruct (decide (i = 0%nat)) as [-> | Hne].
  - by rewrite !(bool_decide_eq_false_2 (0%nat ≠ 0%nat)) by auto.
  - rewrite !(bool_decide_eq_true_2 (i ≠ 0%nat)) by done.
    cbn [Shape.merge_bt mbind option_bind].
    rewrite upsample2d_forward. cbn [mbind option_bind Shape.split_bt].
    rewrite Z.eqb_refl. cbn [mbind option_bind].
    destruct (bool_decide (Z.of_nat i ∈ [1; 2])); cbn [mbind option_bind].
    + by rewrite upsample3d_forward by lia.
    + done.
Qed.

(** The levels from [k] down to 0: what they make of time, height and width. *)
Lemma decoder_levels_loop (k : nat) (B T H W : Z) :
  (k < L)%nat → 1 ≤ B → 1 ≤ T → 1 ≤ H → 1 ≤ W →
  loop (VidTokDecoder3D.level_forward dec) (reverse (seq 0 (S k)))
    ([B; entry k; T; H; W], B, T)
  = Some ([B; ch * cm 0; pow2 (k `min` 2) * T; pow2 k * H; pow2 k * W], B,
          pow2 (k `min` 2) * T).
Proof using Hnrb Hblocks Htempo Hup Hupt.
  revert T H W. induction k as [|k IH]; intros T H W Hk HB HT HH HW.
  - cbn [seq reverse rev_append loop].
    change (reverse [0%nat]) with [0%nat]. cbn [loop].
    rewrite decoder_level_forward by (done || lia).
    rewrite !(bool_decide_eq_false_2 (0%nat ≠ 0%nat)) by auto.
    change (pow2 (0 `min` 2)) with 1. change (pow2 0) with 1.
    cbn [mbind option_bind]. by rewrite !Z.mul_1_l.
  - rewrite reverse_seq_S. cbn [loop].
    rewrite decoder_level_forward by (done || lia).
    rewrite !(bool_decide_eq_true_2 (S k ≠ 0%nat)) by done.
    cbn [mbind option_bind].
    replace (ch * cm (S k)) with (entry k)
      by (unfold entry; by rewrite bool_decide_eq_false_2 by lia).
    assert (Heq : ∀ T',
      T' = (if bool_decide (Z.of_nat (S k) ∈ [1; 2]) then 2 * T else T) →
      pow2 (k `min` 2) * T' = pow2 (S k `min` 2) * T).
    { intros T' ->. destruct (decide (k < 2)%nat) as [Hlt | Hge].
      - rewrite bool_decide_eq_true_2
          by (rewrite !elem_of_cons; lia).
        replace (S k `min` 2)%nat with (S (k `min` 2)) by lia. rewrite pow2_S. lia.
      - rewrite bool_decide_eq_false_2
          by (rewrite !elem_of_cons, elem_of_nil; lia).
        by replace (S k `min` 2)%nat with (k `min` 2)%nat by lia. }
    rewrite IH.
    + rewrite (Heq _ eq_refl), !(pow2_S k).
      replace (pow2 k * (2 * H)) with (2 * pow2 k * H) by lia.
      by replace (pow2 k * (2 * W)) with (2 * pow2 k * W) by lia.
    + lia.
    + done.
    + destruct (bool_decide (Z.of_nat (S k) ∈ [1; 2])); lia.
    + lia.
    + lia.
Qed.
End decoder_levels.

Lemma last_lookup_length {A : Type} (l : list A) (x : A) :
  last l = Some x → l !! (length l - 1)%nat = Some x.
Proof. rewrite last_lookup. by replace (pred (length l)) with (length l - 1)%nat by lia. Qed.

(** The decoder multiplies the time length by [2 ^ min (L - 1) 2] and height
    and width by [2 ^ (L - 1)]. *)
Lemma decoder_forward_shape (ch : Z) (ch_mult : list Z) (nrb zc out_ch : Z) (causal : bool)
    (dec : VidTokDecoder3D.t) (B T H W : Z) :
  VidTokDecoder3D.init ch ch_mult nrb zc out_ch causal = Ok dec →
  0 ≤ nrb → 1 ≤ B → 1 ≤ T → 1 ≤ H → 1 ≤ W →
  VidTokDecoder3D.forward_shape dec [B; zc; T; H; W]
  = Some [B; out_ch; pow2 ((length ch_mult - 1) `min` 2) * T;
          pow2 (length ch_mult - 1) * H; pow2 (length ch_mult - 1) * W].
Proof.
  intros Hinit Hnrb HB HT HH HW. unfold VidTokDecoder3D.init in Hinit.
  destruct (last ch_mult) as [m|] eqn:Hlast; [| done].
  rewrite init_up_spec, init_up_temporal_spec, !app_nil_r in Hinit by done.
  apply Ok_inj in Hinit. subst dec.
  assert (HL : ∃ n, length ch_mult = S n).
  { destruct ch_mult; [done | eauto]. }
  destruct HL as [n HL].
  unfold VidTokDecoder3D.forward_shape.
  cbn [VidTokDecoder3D.conv_in VidTokDecoder3D.num_resolutions VidTokDecoder3D.mid_block_1
       VidTokDecoder3D.mid_attn_1 VidTokDecoder3D.mid_block_2 VidTokDecoder3D.norm_out
       VidTokDecoder3D.conv_out].
  rewrite (make_conv_keeps B3d) by (auto; repeat constructor; lia).
  cbn [mbind option_bind].
  rewrite resnet_block_3d_forward by done. cbn [mbind option_bind].
  rewrite attention_forward by done. cbn [mbind option_bind].
  rewrite resnet_block_3d_forward by done. cbn [mbind option_bind].
  rewrite Nat2Z.id.
  match goal with |- context [loop (VidTokDecoder3D.level_forward ?d) _ _] =>
    pose proof (decoder_levels_loop ch ch_mult nrb causal d (ch * m) Hnrb eq_refl eq_refl)
      as Hloop
  end.
  cbn [VidTokDecoder3D.up VidTokDecoder3D.up_temporal] in Hloop.
  assert (Hlk : ∀ {X : Type} (f : nat → X) (i : nat),
             (i < length ch_mult)%nat → (f <$> seq 0 (length ch_mult)) !! i = Some (f i)).
  { intros X f i Hi. by rewrite list_lookup_fmap, lookup_seq_lt by done. }
  specialize (Hloop (λ i Hi, Hlk _ _ i Hi) (λ i Hi, Hlk _ _ i Hi) n B T H W).
  rewrite HL in *. rewrite bool_decide_eq_true_2 in Hloop by done.
  rewrite Hloop by (done || lia). clear Hloop.
  cbn [mbind option_bind fst snd]. replace (S n - 1)%nat with n by lia.
  rewrite layer_norm_ok. cbn [mbind option_bind].
  pose proof (pow2_pos n). pose proof (pow2_pos (n `min` 2)).
  by rewrite (make_conv_keeps B3d) by (auto; repeat constructor; nia).
Qed.
(** ** The temporal levels of the encoder *)

Lemma filter_none {A : Type} (P : A → Prop) `{!∀ x, Decision (P x)} (l : list A) :
  Forall (λ x, ¬ P x) l → filter P l = [].
Proof.
  induction 1 as [|x l Hx _ IH]; [done |]. by rewrite filter_cons_False.
Qed.

(** Among the levels [0 .. L - 1], those that are [L - 2] or [L - 3]. *)
Lemma temporal_levels_filter (L : nat) :
  filter (λ i, i + 2 = L ∨ i + 3 = L)%nat (seq 0 L)
  = match L with
    | 0%nat | 1%nat => []
    | 2%nat => [0%nat]
    | S (S (S k)) => [k; S k]
    end.
Proof.
  destruct L as [|[|[|k]]]; [done.. |].
  replace (S (S (S k))) with (k + 3)%nat at 1 by lia.
  rewrite seq_app, filter_app. cbn [seq Nat.add].
  rewrite filter_none by (apply Forall_forall; intros i Hi%elem_of_seq; lia).
  rewrite filter_cons_True by lia. rewrite filter_cons_True by lia.
  by rewrite filter_cons_False by lia.
Qed.

Lemma temporal_levels_count (L : nat) :
  length (filter (λ i, i + 2 = L ∨ i + 3 = L)%nat (seq 0 L)) = ((L - 1) `min` 2)%nat.
Proof. rewrite temporal_levels_filter. destruct L as [|[|[|k]]]; simpl; lia. Qed.

(** What [VidTokEncoder3D.init] makes, for the fields the level loop reads. *)
Lemma encoder_init_fields (in_ch ch : Z) (ch_mult : list Z) (nrb zc : Z) (dz causal : bool)
    (enc : VidTokEncoder3D.t) :
  VidTokEncoder3D.init in_ch ch ch_mult nrb zc dz causal = Ok enc →
  ch_mult ≠ [] ∧
  VidTokEncoder3D.num_resolutions enc = Z.of_nat (length ch_mult) ∧
  VidTokEncoder3D.tempo_ds enc = spec_temporal_levels (Z.of_nat (length ch_mult)) ∧
  VidTokEncoder3D.down_temporal enc
  = (λ i, (VidTokEncoder3D.init_level ch ch_mult nrb causal (Z.of_nat (length ch_mult))
             (spec_temporal_levels (Z.of_nat (length ch_mult))) i).1.2)
    <$> seq 0 (length ch_mult).
Proof.
  intros Hinit. unfold VidTokEncoder3D.init in Hinit.
  destruct (last _) as [[[l lt] bi]|] eqn:Hlast; [| done].
  apply Ok_inj in Hinit. subst enc.
  cbn [VidTokEncoder3D.num_resolutions VidTokEncoder3D.tempo_ds VidTokEncoder3D.down_temporal].
  split; [by intros -> |]. split; [done |]. split; [done |].
  by rewrite <- list_fmap_compose.
Qed.

Lemma encoder_temporal_down_levels (in_ch ch : Z) (ch_mult : list Z) (nrb zc : Z)
    (dz causal : bool) (enc : VidTokEncoder3D.t) :
  VidTokEncoder3D.init in_ch ch ch_mult nrb zc dz causal = Ok enc →
  temporal_down_levels enc
  = filter (λ i, i + 2 = length ch_mult ∨ i + 3 = length ch_mult)%nat
      (seq 0 (length ch_mult)).
Proof.
  intros (_ & Hres & _ & Hdt)%encoder_init_fields.
  unfold temporal_down_levels. rewrite Hres, Nat2Z.id, Hdt.
  apply list_filter_iff. intros i. rewrite list_lookup_fmap.
  destruct (decide (i < length ch_mult)%nat) as [Hi | Hi].
  - rewrite lookup_seq_lt by done. cbn [fmap option_fmap option_map mbind option_bind Nat.add].
    unfold VidTokEncoder3D.init_level.
    destruct (VidTokEncoder3D.init_blocks _ _ _ _) as [[bl btl] bi].
    cbn [fst snd VidTokEncoder3D.tdownsample]. unfold spec_temporal_levels.
    destruct (bool_decide (Z.of_nat i ≠ Z.of_nat (length ch_mult) - 1)) eqn:Hlast;
      [apply bool_decide_eq_true in Hlast | apply bool_decide_eq_false in Hlast];
      (destruct (bool_decide (Z.of_nat i ∈ [Z.of_nat (length ch_mult) - 2;
                                             Z.of_nat (length ch_mult) - 3])) eqn:Hin;
       [apply bool_decide_eq_true in Hin | apply bool_decide_eq_false in Hin]);
      rewrite !elem_of_cons, elem_of_nil in Hin; cbn [andb];
      rewrite ?is_Some_alt; (split; [intros HS | intros HS]); try done; try lia;
      try (by destruct HS).
  - rewrite lookup_seq_ge by lia. cbn [fmap option_fmap option_map mbind option_bind].
    split; [by intros [? ?] | lia].
Qed.

(** The encoder's temporal factor is [2 ^ min (L - 1) 2]. *)
Lemma encoder_temporal_down_factor (in_ch ch : Z) (ch_mult : list Z) (nrb zc : Z)
    (dz causal : bool) (enc : VidTokEncoder3D.t) :
  VidTokEncoder3D.init in_ch ch ch_mult nrb zc dz causal = Ok enc →
  temporal_down_factor enc = pow2 ((length ch_mult - 1) `min` 2).
Proof.
  intros Hinit. unfold temporal_down_factor.
  by rewrite (encoder_temporal_down_levels _ _ _ _ _ _ _ _ Hinit), temporal_levels_count.
Qed.
(** The decoder mirrors the encoder: its forward pass upsamples time at
    the levels 1 and 2 that the pyramid has, by [2 ^ min (L - 1) 2] in all. *)
Lemma decoder_temporal_up_factor (ch : Z) (ch_mult : list Z) (nrb zc out_ch : Z)
    (causal : bool) (dec : VidTokDecoder3D.t) :
  VidTokDecoder3D.init ch ch_mult nrb zc out_ch causal = Ok dec →
  temporal_up_levels dec = filter (λ i, i = 1 ∨ i = 2)%nat (seq 0 (length ch_mult)) ∧
  temporal_up_factor dec = pow2 ((length ch_mult - 1) `min` 2).
Proof.
  intros Hinit. unfold VidTokDecoder3D.init in Hinit.
  destruct (last ch_mult) as [m|]; [| done].
  destruct (VidTokDecoder3D.init_up _ _ _ _ _ _) as [up bi].
  destruct (VidTokDecoder3D.init_up_temporal _ _ _ _ _ _ _ _) as [upt bit].
  apply Ok_inj in Hinit. subst dec.
  unfold temporal_up_factor, temporal_up_levels.
  cbn [VidTokDecoder3D.num_resolutions VidTokDecoder3D.tempo_us]. rewrite Nat2Z.id.
  assert (Hlevels :
    filter (λ i, i ≠ 0%nat ∧ Z.of_nat i ∈ [1; 2]) (seq 0 (length ch_mult))
    = filter (λ i, i = 1 ∨ i = 2)%nat (seq 0 (length ch_mult))).
  { apply list_filter_iff. intros i. rewrite !elem_of_cons, elem_of_nil. lia. }
  rewrite Hlevels. split; [done |]. unfold pow2. do 2 f_equal.
  destruct (length ch_mult) as [|[|[|k]]]; [done.. |].
  replace (S (S (S k))) with (3 + k)%nat by lia.
  rewrite seq_app, filter_app.
  rewrite (filter_none _ (seq _ k)) by (apply Forall_forall; intros i Hi%elem_of_seq; lia).
  rewrite app_nil_r. by replace ((3 + k - 1) `min` 2)%nat with 2%nat by lia.
Qed.

(** ** The autoencoder on shapes *)

Lemma mapM_replicate {A B : Type} (f : A → option B) (n : nat) (x : A) (y : B) :
  f x = Some y → mapM f (replicate n x) = Some (replicate n y).
Proof.
  intros Hf. induction n as [|n IH]; [done |].
  cbn [replicate mapM]. rewrite Hf. cbn [mbind option_bind].
  fold (mapM f). by rewrite IH.
Qed.

(** Concatenating [n] slices of batch size 1 gives a batch of [n]. *)
Lemma cat_batch_slices (n : nat) (dims : list Z) :
  (0 < n)%nat →
  AutoencoderVidTok.cat 0 (replicate n (1 :: dims)) = Some (Z.of_nat n :: dims).
Proof.
  intros Hn. destruct n as [|n]; [lia |]. cbn [replicate AutoencoderVidTok.cat].
  assert (Hfold : ∀ k,
    foldl (λ acc y,
             acc ← acc; a ← acc !! 0%nat; b ← y !! 0%nat;
             if decide (<[0%nat := 0]> acc = <[0%nat := 0]> y)
             then Some (<[0%nat := a + b]> acc) else None)
      (Some (k :: dims)) (replicate n (1 :: dims))
    = Some (k + Z.of_nat n :: dims)).
  { clear Hn. induction n as [|n IH]; intros k.
    - cbn [replicate foldl]. do 2 f_equal. lia.
    - cbn [replicate foldl mbind option_bind lookup list_lookup insert list_insert].
      rewrite decide_True by done. rewrite IH. do 2 f_equal. lia. }
  rewrite Hfold. do 2 f_equal. lia.
Qed.

(** A network that maps a batch of any size sample by sample gives one
    shape with and without slicing. *)
Lemma sliced_shape (net : Shape.shape → option Shape.shape) (slicing : bool) (B : Z)
    (dims dims' : list Z) :
  1 ≤ B →
  (∀ b, 1 ≤ b → net (b :: dims) = Some (b :: dims')) →
  (b ← (B :: dims) !! 0%nat;
   if slicing && (b >? 1)
   then slices ← mapM net (AutoencoderVidTok.split1 (B :: dims)); AutoencoderVidTok.cat 0 slices
   else net (B :: dims))
  = Some (B :: dims').
Proof.
  intros HB Hnet. cbn [lookup list_lookup mbind option_bind].
  destruct (slicing && (B >? 1)) eqn:Hs.
  - cbn [AutoencoderVidTok.split1].
    rewrite (mapM_replicate _ _ _ (1 :: dims')) by (apply Hnet; lia).
    cbn [mbind option_bind]. rewrite cat_batch_slices by lia.
    by rewrite Z2Nat.id by lia.
  - by apply Hnet.
Qed.

(** Left-padding to the next multiple of the ratio [f], and stripping the
    padding again. *)
Lemma time_padding_compensates (f T : Z) :
  1 ≤ f → 1 ≤ T →
  let p := if negb (T mod f =? 0) then f - T mod f else 0 in
  ∃ q, 1 ≤ q ∧ T + p = f * q ∧ 0 ≤ p < f ∧ slice_from_len (f * q) p = T.
Proof.
  intros Hf HT p. subst p. unfold slice_from_len, slice_bound.
  destruct (Z.eqb_spec (T mod f) 0) as [H0 | H0]; cbn [negb].
  - exists (T / f). change (0 <? 0) with false. cbn match. nia.
  - exists (T / f + 1). destruct (Z.ltb_spec (f - T mod f) 0); nia.
Qed.

Lemma check_regularizer_ok (regularizer : string) (zc cb : Z) (dz : bool)
    (reg : option (list Z)) :
  AutoencoderVidTok.check_regularizer regularizer zc cb dz = Ok reg →
  regularizer = "kl" ∨ (regularizer = "fsq" ∧ dz = false).
Proof.
  unfold AutoencoderVidTok.check_regularizer.
  destruct (bool_decide _) eqn:Hin; [| done].
  apply bool_decide_eq_true in Hin. rewrite !elem_of_cons, elem_of_nil in Hin.
  destruct Hin as [-> | [-> | []]]; [by left |].
  change ("fsq" =? "fsq")%string with true. cbn match.
  destruct (cb <=? 0); [done |]. destruct dz; [| by right].
  by rewrite andb_false_r.
Qed.

(** What [AutoencoderVidTok.init] makes. *)
Lemma init_fields (cfg : Config.t) (m : AutoencoderVidTok.t) :
  AutoencoderVidTok.init cfg = Ok m →
  VidTokEncoder3D.init (Config.in_channels cfg) (Config.ch cfg) (Config.ch_mult cfg)
    (Config.num_res_blocks cfg) (Config.z_channels cfg) (Config.double_z cfg)
    (Config.is_causal cfg) = Ok (AutoencoderVidTok.encoder m) ∧
  VidTokDecoder3D.init (Config.ch cfg) (Config.ch_mult cfg) (Config.num_res_blocks cfg)
    (Config.z_channels cfg) (Config.out_channels cfg) (Config.is_causal cfg)
  = Ok (AutoencoderVidTok.decoder m) ∧
  (Config.regularizer cfg = "kl" ∨
   (Config.regularizer cfg = "fsq" ∧ Config.double_z cfg = false)) ∧
  AutoencoderVidTok.regularizer m = Config.regularizer cfg ∧
  AutoencoderVidTok.temporal_compression_ratio m = Config.temporal_compression_ratio cfg ∧
  AutoencoderVidTok.use_tiling m = false ∧
  AutoencoderVidTok.use_slicing m = false.
Proof.
  unfold AutoencoderVidTok.init. intros Hinit.
  destruct (VidTokEncoder3D.init _ _ _ _ _ _ _) as [enc|]; [| done].
  destruct (VidTokDecoder3D.init _ _ _ _ _ _) as [dec|]; [| done].
  destruct (AutoencoderVidTok.check_regularizer _ _ _ _) as [reg|] eqn:Hreg; [| done].
  apply check_regularizer_ok in Hreg.
  cbn [mbind result_bind] in Hinit.
  destruct (int_div_pow2 (Config.sample_height cfg / 2) _) as [tlmh|]; [| done].
  cbn [AutoencoderVidTok.or_overflow mbind result_bind] in Hinit.
  destruct (int_div_pow2 _ _) as [tlmw|]; [| done].
  cbn [AutoencoderVidTok.or_overflow mbind result_bind] in Hinit.
  apply Ok_inj in Hinit. by subst m.
Qed.


(** [forward] on shapes, for networks that divide and multiply time by
    the ratio [f]: the padding and the stripping compensate. *)
Lemma forward_shape_round_trip (self : AutoencoderVidTok.t) (cin zc f B T : Z)
    (dz : bool) (sample_hw latent_hw : list Z) :
  AutoencoderVidTok.temporal_compression_ratio self = f →
  1 ≤ f → 1 ≤ B → 1 ≤ T →
  length sample_hw = 2%nat →
  (AutoencoderVidTok.regularizer self = "kl" ∧ dz = true) ∨
  (AutoencoderVidTok.regularizer self = "fsq" ∧ dz = false) →
  (∀ b q, 1 ≤ b → 1 ≤ q →
     AutoencoderVidTok._encode_shape self (b :: cin :: f * q :: sample_hw)
     = Some (b :: (if dz then 2 * zc else zc) :: q :: latent_hw)) →
  (∀ b q, 1 ≤ b → 1 ≤ q →
     AutoencoderVidTok._decode_shape self (b :: zc :: q :: latent_hw)
     = Some (b :: cin :: f * q :: sample_hw)) →
  AutoencoderVidTok.forward_shape self (B :: cin :: T :: sample_hw)
  = Some (B :: cin :: T :: sample_hw).
Proof.
  intros Htcr Hf HB HT Hhw Hreg Henc_net Hdec_net.
  destruct sample_hw as [|H [|W [|]]]; try done. clear Hhw.
  destruct (time_padding_compensates f T Hf HT) as (q & Hq & Hpad & Hp & Hstrip).
  unfold AutoencoderVidTok.forward_shape.
  cbn [lookup list_lookup mbind option_bind]. rewrite Htcr.
  destruct (Z.eqb_spec f 0) as [? | _]; [lia |].
  set (p := if negb (T mod f =? 0) then f - T mod f else 0) in *.
  assert (Hx : (if negb (T mod f =? 0)
                then x ← AutoencoderVidTok.pad_at_dim_time [B; cin; T; H; W] (f - T mod f);
                     Some (x, f - T mod f)
                else Some ([B; cin; T; H; W], 0))
               = Some ([B; cin; f * q; H; W], p)).
  { subst p. destruct (negb (T mod f =? 0)).
    - cbn [AutoencoderVidTok.pad_at_dim_time].
      destruct (Z.leb_spec T 0); [lia |].
      destruct (Z.ltb_spec (T + (f - T mod f)) 0); [lia |].
      cbn [orb mbind option_bind]. by rewrite Hpad.
    - rewrite Z.add_0_r in Hpad. by rewrite Hpad. }
  rewrite Hx. cbn [mbind option_bind]. clear Hx.
  assert (Hz : (if (AutoencoderVidTok.regularizer self =? "kl")%string
                then AutoencoderVidTok.encode_z_shape self [B; cin; f * q; H; W]
                     ≫= AutoencoderVidTok.posterior_shape
                else AutoencoderVidTok.encode_z_shape self [B; cin; f * q; H; W]
                     ≫= AutoencoderVidTok.quantized_shape)
               = Some (B :: zc :: q :: latent_hw)).
  { unfold AutoencoderVidTok.encode_z_shape.
    rewrite (sliced_shape _ _ B _ _ HB (λ b Hb, Henc_net b q Hb Hq)).
    cbn [mbind option_bind].
    destruct Hreg as [[-> ->] | [-> ->]].
    - change ("kl" =? "kl")%string with true. cbn match.
      cbn [AutoencoderVidTok.posterior_shape].
      destruct (Z.eqb_spec ((2 * zc) mod 2) 0); [| lia].
      do 3 f_equal. lia.
    - change ("fsq" =? "kl")%string with false. by cbn match. }
  rewrite Hz. cbn [mbind option_bind]. clear Hz.
  unfold AutoencoderVidTok.decode_shape.
  rewrite (sliced_shape _ _ B _ _ HB (λ b Hb, Hdec_net b q Hb Hq)).
  cbn [mbind option_bind]. by rewrite Hstrip.
Qed.


(** The shape is kept with tiling and slicing enabled too, on the run of
    [test.py] and on a frame larger than the tiles. *)
Example forward_tiled_run :
  ∃ m, AutoencoderVidTok.init test_config = Ok m ∧
       let m := AutoencoderVidTok.enable_slicing
                  (AutoencoderVidTok.enable_tiling m None None None None) in
       AutoencoderVidTok.forward_shape m [1; 3; 18; 256; 256] = Some [1; 3; 18; 256; 256] ∧
       AutoencoderVidTok.forward_shape m [2; 3; 5; 320; 200] = Some [2; 3; 5; 320; 200].
Proof. eexists. split; [reflexivity |]. split; vm_compute; reflexivity. Qed.

(** C1, as stated for every valid configuration, fails once tiling is
    enabled.  With [sample_height = sample_width = 64] and the other
    arguments at their defaults, [enable_tiling()] leaves sample tiles of 32
    entries, 28 apart, and latent tiles of 4 entries of which all 4 are
    kept: the three tiles along an axis of 64 entries give 4 + 4 + 1 latent
    entries, and [tiled_decode] makes 28 + 28 + 24 entries of these.  A
    64 × 64 input comes back 80 × 80. *)
Lemma forward_tiled_returns_other_shape :
  ∃ m, AutoencoderVidTok.init (config_with_sample_size 64 64) = Ok m ∧
       round_trip_config (config_with_sample_size 64 64) m ∧
       video_shape (config_with_sample_size 64 64) [1; 3; 17; 64; 64] ∧
       let self := AutoencoderVidTok.enable_tiling m None None None None in
       AutoencoderVidTok.tile_sample_min_height self = 32 ∧
       AutoencoderVidTok.tile_latent_min_height self = 4 ∧
       AutoencoderVidTok.encode_z_shape self [1; 3; 20; 64; 64] = Some [1; 8; 5; 9; 9] ∧
       AutoencoderVidTok.forward_shape self [1; 3; 17; 64; 64] = Some [1; 3; 17; 80; 80] ∧
       AutoencoderVidTok.forward_shape self [1; 3; 17; 64; 64] ≠ Some [1; 3; 17; 64; 64].
Proof.
  eexists. split; [reflexivity |]. split; [| split].
  - constructor; [reflexivity | cbn; lia | reflexivity | reflexivity].
  - exists 1, 17, 8, 8. repeat split; lia.
  - cbv zeta. split; [reflexivity |]. split; [reflexivity |].
    split; [vm_compute; reflexivity |]. split; [vm_compute; reflexivity |].
    vm_compute. discriminate.
Qed.

(** ** The temporal factor and the configured ratio *)

(** C4, as stated, fails.  With two pyramid levels the encoder downsamples
    time at level 0 only ([L - 2]; [L - 3] is no level): its factor is 2, not
    [2 ^ 2], and not the configured ratio 4.  With four levels and a
    configured ratio of 8 the factor is 4.  The constructor accepts both
    configurations. *)
Lemma temporal_factor_differs_from_level_set_and_ratio :
  (∃ m, AutoencoderVidTok.init (config_with_pyramid [1; 2] 4) = Ok m ∧
        temporal_down_levels (AutoencoderVidTok.encoder m) = [0%nat] ∧
        temporal_down_factor (AutoencoderVidTok.encoder m) = 2 ∧
        2 ^ Z.of_nat (length (spec_temporal_levels 2)) = 4 ∧
        AutoencoderVidTok.temporal_compression_ratio m = 4 ∧
        VidTokEncoder3D.forward_shape (AutoencoderVidTok.encoder m) [1; 3; 8; 16; 16]
        = Some [1; 8; 4; 8; 8]) ∧
  (∃ m, AutoencoderVidTok.init (config_with_pyramid [1; 2; 4; 4] 8) = Ok m ∧
        temporal_down_factor (AutoencoderVidTok.encoder m) = 4 ∧
        AutoencoderVidTok.temporal_compression_ratio m = 8).
Proof.
  split; (eexists; split; [reflexivity |]); repeat split; vm_compute; reflexivity.
Qed.

(** C4 (amended): for every configuration the constructor accepts, the
    encoder has a temporal downsampling block exactly at those of the levels
    [L - 2] and [L - 3] that are levels of the pyramid; its temporal factor
    is [2 ^ min (L - 1) 2], that is [2 ^ 2] from three levels on; its forward
    pass divides the time length by this factor and height and width by
    [2 ^ (L - 1)]; and the temporal compression ratio is stored as
    configured, whatever the factor. *)
Theorem encoder_temporal_levels_and_factor (cfg : Config.t) (m : AutoencoderVidTok.t) :
  AutoencoderVidTok.init cfg = Ok m →
  let L := length (Config.ch_mult cfg) in
  let enc := AutoencoderVidTok.encoder m in
  (∀ i : nat, i ∈ temporal_down_levels enc
              ↔ (i < L)%nat ∧ Z.of_nat i ∈ spec_temporal_levels (Z.of_nat L)) ∧
  temporal_down_factor enc = 2 ^ Z.min (Z.of_nat L - 1) 2 ∧
  ((3 ≤ L)%nat →
   temporal_down_levels enc = [(L - 3)%nat; (L - 2)%nat] ∧
   temporal_down_factor enc = 2 ^ Z.of_nat (length (spec_temporal_levels (Z.of_nat L)))) ∧
  (∀ B T H W : Z,
     1 ≤ Config.num_res_blocks cfg → 1 ≤ T → 1 ≤ H → 1 ≤ W →
     VidTokEncoder3D.forward_shape enc
       [B; Config.in_channels cfg; temporal_down_factor enc * T;
        2 ^ (Z.of_nat L - 1) * H; 2 ^ (Z.of_nat L - 1) * W]
     = Some [B; if Config.double_z cfg then 2 * Config.z_channels cfg
                else Config.z_channels cfg; T; H; W]) ∧
  AutoencoderVidTok.temporal_compression_ratio m = Config.temporal_compression_ratio cfg.
Proof.
  intros Hinit L enc.
  apply init_fields in Hinit as (Henc & _ & _ & _ & Htcr & _).
  fold enc in Henc.
  pose proof (encoder_temporal_down_levels _ _ _ _ _ _ _ _ Henc) as Hlevels.
  pose proof (encoder_temporal_down_factor _ _ _ _ _ _ _ _ Henc) as Hfactor.
  pose proof (encoder_init_fields _ _ _ _ _ _ _ _ Henc) as (Hne & _).
  fold L in Hlevels, Hfactor.
  assert (HL : (1 ≤ L)%nat).
  { subst L. destruct (Config.ch_mult cfg); [done | simpl; lia]. }
  split; [| split; [| split; [| split]]].
  - intros i. rewrite Hlevels, list_elem_of_filter, elem_of_seq.
    unfold spec_temporal_levels. rewrite !elem_of_cons, elem_of_nil. lia.
  - rewrite Hfactor. unfold pow2. f_equal. lia.
  - intros H3. split.
    + rewrite Hlevels, temporal_levels_filter.
      destruct L as [|[|[|k]]]; [lia.. |].
      replace (S (S (S k)) - 3)%nat with k by lia.
      by replace (S (S (S k)) - 2)%nat with (S k) by lia.
    + rewrite Hfactor. unfold pow2. cbn [spec_temporal_levels length]. f_equal. lia.
  - intros B T H W Hnrb HT HH HW. rewrite Hfactor.
    replace (2 ^ (Z.of_nat L - 1)) with (pow2 (L - 1)) by (unfold pow2; f_equal; lia).
    by apply (encoder_forward_shape _ _ _ _ _ _ _ _ B T H W Henc).
  - done.
Qed.

(** C4 (amended), at the configuration of [test.py]: four levels, temporal
    downsampling at levels 1 and 2, factor 4. *)
Lemma encoder_temporal_levels_and_factor_witness :
  ∃ m, AutoencoderVidTok.init test_config = Ok m ∧
       temporal_down_levels (AutoencoderVidTok.encoder m) = [1%nat; 2%nat] ∧
       temporal_down_factor (AutoencoderVidTok.encoder m) = 4.
Proof.
  eexists. split; [reflexivity |].
  pose proof (encoder_temporal_levels_and_factor test_config _ eq_refl) as (_ & Hf & Hl & _).
  split; [exact (proj1 (Hl ltac:(cbn; lia))) | exact Hf].
Defined.
(** ** Tiled encoding and decoding on shapes *)

(** Concatenating along [dim] tensors that differ in that dimension only
    adds up their extents. *)
Lemma cat_along (dim : nat) (base : Shape.shape) (e0 : Z) (es : list Z) :
  (dim < length base)%nat →
  AutoencoderVidTok.cat dim ((λ e, <[dim := e]> base) <$> (e0 :: es))
  = Some (<[dim := e0 + sumZ es]> base).
Proof.
  intros Hdim. cbn [fmap list_fmap AutoencoderVidTok.cat].
  revert e0. induction es as [|e es IH]; intros e0.
  - cbn [list_fmap foldl sumZ foldr]. by rewrite Z.add_0_r.
  - rewrite fmap_cons. cbn [foldl mbind option_bind].
    rewrite !list_lookup_insert_eq by done. cbn [mbind option_bind].
    rewrite !list_insert_insert_eq, decide_True by done.
    rewrite IH. cbn [sumZ foldr]. by rewrite Z.add_assoc.
Qed.

Lemma cat_along_seq (dim : nat) (base : Shape.shape) (e : nat → Z) (n : nat) :
  (dim < length base)%nat →
  AutoencoderVidTok.cat dim ((λ k, <[dim := e k]> base) <$> seq 0 (S n))
  = Some (<[dim := sumZ (e <$> seq 0 (S n))]> base).
Proof.
  intros Hdim.
  transitivity (AutoencoderVidTok.cat dim ((λ x, <[dim := x]> base) <$> (e <$> seq 0 (S n))));
    [by rewrite <- list_fmap_compose |].
  cbn [seq]. rewrite (fmap_cons e), cat_along by done. done.
Qed.

Lemma imap_pair_fmap_seq {A : Type} (f : nat → A) (n : nat) :
  imap pair (f <$> seq 0 n) = (λ k, (k, f k)) <$> seq 0 n.
Proof.
  apply list_eq. intros i. rewrite list_lookup_imap, !list_lookup_fmap.
  destruct (decide (i < n)%nat);
    [rewrite lookup_seq_lt by done | rewrite lookup_seq_ge by lia]; done.
Qed.

Lemma mapM_fmap_seq {A B : Type} (f : A → option B) (g : nat → A) (h : nat → B) (n : nat) :
  (∀ k, (k < n)%nat → f (g k) = Some (h k)) →
  mapM f (g <$> seq 0 n) = Some (h <$> seq 0 n).
Proof.
  intros Hf. apply mapM_Some_2, Forall2_fmap, Forall_Forall2_diag, Forall_forall.
  intros k Hk%elem_of_seq. apply Hf. lia.
Qed.

(** Stitching a grid of tiles whose heights depend on the row only and
    whose widths depend on the column only: the cropped heights and widths
    add up. *)
Lemma stitch_rows_grid (b c t : Z) (a d : nat → Z) (nh nw : nat)
    (blend_extent_height blend_extent_width row_limit_height row_limit_width : Z) :
  AutoencoderVidTok.stitch_rows
    ((λ k, (λ l, [b; c; t; a k; d l]) <$> seq 0 (S nw)) <$> seq 0 (S nh))
    blend_extent_height blend_extent_width row_limit_height row_limit_width
  = Some [b; c; t;
          sumZ ((λ k, slice_len (a k) 0 (0 + row_limit_height)) <$> seq 0 (S nh));
          sumZ ((λ l, slice_len (d l) 0 (0 + row_limit_width)) <$> seq 0 (S nw))].
Proof.
  unfold AutoencoderVidTok.stitch_rows. rewrite imap_pair_fmap_seq.
  set (rows := (λ k, (λ l, [b; c; t; a k; d l]) <$> seq 0 (S nw)) <$> seq 0 (S nh)).
  set (total_width := sumZ ((λ l, slice_len (d l) 0 (0 + row_limit_width)) <$> seq 0 (S nw))).
  rewrite (mapM_fmap_seq _ _
             (λ k, [b; c; t; slice_len (a k) 0 (0 + row_limit_height); total_width])).
  - cbn [mbind option_bind].
    exact (cat_along_seq 3 [b; c; t; 0; total_width]
             (λ k, slice_len (a k) 0 (0 + row_limit_height)) nh ltac:(simpl; lia)).
  - intros k Hk. cbn beta iota. rewrite imap_pair_fmap_seq.
    rewrite (mapM_fmap_seq _ _
               (λ l, [b; c; t; slice_len (a k) 0 (0 + row_limit_height);
                      slice_len (d l) 0 (0 + row_limit_width)])).
    + cbn [mbind option_bind].
      exact (cat_along_seq 4 [b; c; t; slice_len (a k) 0 (0 + row_limit_height); 0]
               (λ l, slice_len (d l) 0 (0 + row_limit_width)) nw ltac:(simpl; lia)).
    + intros l Hl. cbn beta iota.
      assert (Habove : (if bool_decide (0 < k)%nat
                        then above ← rows !! (k - 1)%nat ≫= (.!! l);
                             AutoencoderVidTok.blend_shape 3 above [b; c; t; a k; d l]
                               blend_extent_height
                        else Some [b; c; t; a k; d l]) = Some [b; c; t; a k; d l]).
      { destruct (bool_decide (0 < k)%nat) eqn:Hk0; [| done].
        apply bool_decide_eq_true in Hk0. subst rows.
        rewrite list_lookup_fmap, lookup_seq_lt by lia. cbn [fmap option_fmap option_map].
        cbn [mbind option_bind]. rewrite list_lookup_fmap, lookup_seq_lt by lia.
        cbn [fmap option_fmap option_map mbind option_bind].
        unfold AutoencoderVidTok.blend_shape.
        cbn [lookup list_lookup mbind option_bind insert list_insert].
        rewrite bool_decide_eq_true_2 by done. by rewrite orb_true_r. }
      rewrite Habove. cbn [mbind option_bind].
      assert (Hleft : (if bool_decide (0 < l)%nat
                       then left ← ((λ l, [b; c; t; a k; d l]) <$> seq 0 (S nw)) !! (l - 1)%nat;
                            AutoencoderVidTok.blend_shape 4 left [b; c; t; a k; d l]
                              blend_extent_width
                       else Some [b; c; t; a k; d l]) = Some [b; c; t; a k; d l]).
      { destruct (bool_decide (0 < l)%nat) eqn:Hl0; [| done].
        apply bool_decide_eq_true in Hl0.
        rewrite list_lookup_fmap, lookup_seq_lt by lia.
        cbn [fmap option_fmap option_map mbind option_bind].
        unfold AutoencoderVidTok.blend_shape.
        cbn [lookup list_lookup mbind option_bind insert list_insert].
        rewrite bool_decide_eq_true_2 by done. by rewrite orb_true_r. }
      rewrite Hleft. cbn [mbind option_bind]. done.
Qed.
Lemma sumZ_app (l k : list Z) : sumZ (l ++ k) = sumZ l + sumZ k.
Proof. unfold sumZ. induction l as [|x l IH]; cbn [app foldr] in *; lia. Qed.

Lemma sumZ_scale (s : Z) (f : nat → Z) (l : list nat) :
  sumZ ((λ k, s * f k) <$> l) = s * sumZ (f <$> l).
Proof. unfold sumZ. induction l as [|x l IH]; cbn [fmap list_fmap foldr] in *; lia. Qed.

(** Tiles [r] apart along an axis of length [h], each cut to its first [r]
    entries: the first [n] of them cover [min h (n * r)] entries. *)
Lemma tiles_cover (h r : Z) (n : nat) :
  0 ≤ h → 1 ≤ r → (Z.of_nat n - 1) * r < h →
  sumZ ((λ k, Z.min r (h - Z.of_nat k * r)) <$> seq 0 n) = Z.min h (Z.of_nat n * r).
Proof.
  intros Hh Hr. induction n as [|n IH]; intros Hn.
  - unfold sumZ. cbn [seq fmap list_fmap foldr]. lia.
  - rewrite seq_S, fmap_app, sumZ_app, IH by nia.
    unfold sumZ. cbn [Nat.add fmap list_fmap foldr]. nia.
Qed.

(** The number of tiles [range(0, h, r)] makes. *)
Lemma tile_count (h r : Z) :
  1 ≤ h → 1 ≤ r →
  let n := Z.to_nat ((h + r - 1) / r) in
  (1 ≤ n)%nat ∧ (Z.of_nat n - 1) * r < h ≤ Z.of_nat n * r.
Proof.
  intros Hh Hr n. subst n.
  assert (1 ≤ (h + r - 1) / r) by (apply Z.div_le_lower_bound; lia).
  rewrite Z2Nat.id by lia. split; [lia |].
  pose proof (Z.mul_div_le (h + r - 1) r ltac:(lia)).
  pose proof (Z.mul_succ_div_gt (h + r - 1) r ltac:(lia)). nia.
Qed.

Lemma tile_count_scale (s h r : Z) :
  1 ≤ s → 1 ≤ h → 1 ≤ r →
  (s * h + s * r - 1) / (s * r) = (h + r - 1) / r.
Proof.
  intros Hs Hh Hr. symmetry.
  pose proof (Z.mul_div_le (h + r - 1) r ltac:(lia)).
  pose proof (Z.mul_succ_div_gt (h + r - 1) r ltac:(lia)).
  apply (Z.div_unique_pos _ _ _ (s * h + s * r - 1 - s * r * ((h + r - 1) / r))); nia.
Qed.

Lemma py_range_tiles (stop step : Z) :
  1 ≤ step →
  py_range stop step
  = Some ((λ k, Z.of_nat k * step) <$> seq 0 (Z.to_nat ((stop + step - 1) / step))).
Proof.
  intros Hs. unfold py_range.
  destruct (Z.eqb_spec step 0); [lia |]. by destruct (Z.ltb_spec 0 step); [| lia].
Qed.

(** The first loop nest on a grid: tile [(k, l)] is the net's image of the
    crop at [(k * overlap_height, l * overlap_width)]. *)
Lemma tile_rows_grid (net : Shape.shape → option Shape.shape) (b c t height width : Z)
    (overlap_height overlap_width tile_height tile_width : Z) (tile : nat → nat → Shape.shape) :
  1 ≤ overlap_height → 1 ≤ overlap_width →
  let nh := Z.to_nat ((height + overlap_height - 1) / overlap_height) in
  let nw := Z.to_nat ((width + overlap_width - 1) / overlap_width) in
  (∀ k l, (k < nh)%nat → (l < nw)%nat →
     net [b; c; t;
          slice_len height (Z.of_nat k * overlap_height)
            (Z.of_nat k * overlap_height + tile_height);
          slice_len width (Z.of_nat l * overlap_width)
            (Z.of_nat l * overlap_width + tile_width)]
     = Some (tile k l)) →
  AutoencoderVidTok.tile_rows net [b; c; t; height; width] height width
    overlap_height overlap_width tile_height tile_width
  = Some ((λ k, tile k <$> seq 0 nw) <$> seq 0 nh).
Proof.
  intros Hoh How nh nw Hnet. unfold AutoencoderVidTok.tile_rows.
  rewrite !py_range_tiles by done. cbn [mbind option_bind].
  fold nh. fold nw.
  apply (mapM_fmap_seq _ _ (λ k, tile k <$> seq 0 nw)). intros k Hk.
  apply (mapM_fmap_seq _ _ (tile k)). intros l Hl.
  cbn [AutoencoderVidTok.crop_hw mbind option_bind]. by apply Hnet.
Qed.
(** The crop of tile [k] along an axis of [s * h] entries, tiles of
    [s * tl] entries [s * r] apart. *)
Lemma slice_len_tile (s h r tl : Z) (k : nat) :
  1 ≤ s → 1 ≤ r → 1 ≤ tl → Z.of_nat k * r < h →
  slice_len (s * h) (Z.of_nat k * (s * r)) (Z.of_nat k * (s * r) + s * tl)
  = s * Z.min tl (h - Z.of_nat k * r).
Proof.
  intros Hs Hr Htl Hk. unfold slice_len, slice_bound.
  replace (Z.of_nat k * (s * r)) with (s * (Z.of_nat k * r)) by lia.
  set (K := Z.of_nat k * r) in *. assert (0 ≤ K) by (subst K; nia).
  destruct (Z.ltb_spec (s * K + s * tl) 0); [nia |].
  destruct (Z.ltb_spec (s * K) 0); [nia |].
  rewrite <- Z.mul_add_distr_l, !Z.mul_min_distr_nonneg_l by lia.
  rewrite <- Z.mul_sub_distr_l. rewrite Z.max_r by nia. f_equal. lia.
Qed.

(** The first [r] entries of a tile of [min tl (h - k * r)] entries. *)
Lemma slice_len_kept (h r tl : Z) (k : nat) :
  1 ≤ r ≤ tl → Z.of_nat k * r < h →
  slice_len (Z.min tl (h - Z.of_nat k * r)) 0 (0 + r) = Z.min r (h - Z.of_nat k * r).
Proof.
  intros Hr Hk. unfold slice_len, slice_bound. set (K := Z.of_nat k * r) in *.
  change (0 <? 0) with false. cbn match.
  destruct (Z.ltb_spec (0 + r) 0); lia.
Qed.

(** A whole axis put together again from its kept tile parts. *)
Lemma kept_tiles_total (h r tl : Z) :
  1 ≤ h → 1 ≤ r ≤ tl →
  sumZ ((λ k, slice_len (Z.min tl (h - Z.of_nat k * r)) 0 (0 + r))
          <$> seq 0 (Z.to_nat ((h + r - 1) / r)))
  = h.
Proof.
  intros Hh Hr. destruct (tile_count h r Hh ltac:(lia)) as [Hn Hcover].
  set (n := Z.to_nat ((h + r - 1) / r)) in *.
  transitivity (sumZ ((λ k, Z.min r (h - Z.of_nat k * r)) <$> seq 0 n)).
  - f_equal. apply list_fmap_ext. intros i k Hk%lookup_seq. cbn beta.
    apply slice_len_kept; [done | nia].
  - rewrite tiles_cover by lia. lia.
Qed.

Lemma kept_tiles_total_scaled (s h r tl : Z) :
  1 ≤ s → 1 ≤ h → 1 ≤ r ≤ tl →
  sumZ ((λ k, slice_len (s * Z.min tl (h - Z.of_nat k * r)) 0 (0 + s * r))
          <$> seq 0 (Z.to_nat ((h + r - 1) / r)))
  = s * h.
Proof.
  intros Hs Hh Hr. destruct (tile_count h r Hh ltac:(lia)) as [Hn Hcover].
  set (n := Z.to_nat ((h + r - 1) / r)) in *.
  transitivity (sumZ ((λ k, s * Z.min r (h - Z.of_nat k * r)) <$> seq 0 n)).
  - f_equal. apply list_fmap_ext. intros i k Hk%lookup_seq. cbn beta.
    assert (Z.of_nat k * r < h) by nia.
    replace (Z.min r (h - Z.of_nat k * r))
      with (Z.min r (Z.min tl (h - Z.of_nat k * r))) by lia.
    assert (HM : 1 ≤ Z.min tl (h - Z.of_nat k * r)) by lia.
    generalize dependent (Z.min tl (h - Z.of_nat k * r)). intros M HM.
    unfold slice_len, slice_bound. change (0 <? 0) with false. cbn match.
    destruct (Z.ltb_spec (0 + s * r) 0); [nia |].
    rewrite Z.add_0_l, Z.mul_min_distr_nonneg_l by lia.
    rewrite (Z.min_l 0) by nia. rewrite Z.sub_0_r. apply Z.max_r. nia.
  - rewrite sumZ_scale, tiles_cover by lia. f_equal. lia.
Qed.
Lemma stitch_rows_tiles (b c t : Z) (a d : nat → Z) (nh nw : nat)
    (blend_extent_height blend_extent_width row_limit_height row_limit_width : Z) :
  (1 ≤ nh)%nat → (1 ≤ nw)%nat →
  AutoencoderVidTok.stitch_rows
    ((λ k, (λ l, [b; c; t; a k; d l]) <$> seq 0 nw) <$> seq 0 nh)
    blend_extent_height blend_extent_width row_limit_height row_limit_width
  = Some [b; c; t;
          sumZ ((λ k, slice_len (a k) 0 (0 + row_limit_height)) <$> seq 0 nh);
          sumZ ((λ l, slice_len (d l) 0 (0 + row_limit_width)) <$> seq 0 nw)].
Proof.
  intros Hnh Hnw. destruct nh as [|nh]; [lia |]. destruct nw as [|nw]; [lia |].
  apply stitch_rows_grid.
Qed.

(** [tiled_encode] gives the shape of the whole-tensor encoder when the
    tile settings fit the spatial factor [s]. *)
Lemma tiled_encode_keeps (self : AutoencoderVidTok.t) (s b c c' t q h w : Z) :
  1 ≤ s → 1 ≤ h → 1 ≤ w →
  tile_axis_fits s (AutoencoderVidTok.tile_sample_min_height self)
    (AutoencoderVidTok.tile_latent_min_height self)
    (AutoencoderVidTok.tile_overlap_factor_height self) →
  tile_axis_fits s (AutoencoderVidTok.tile_sample_min_width self)
    (AutoencoderVidTok.tile_latent_min_width self)
    (AutoencoderVidTok.tile_overlap_factor_width self) →
  (∀ α β, 1 ≤ α → 1 ≤ β →
     VidTokEncoder3D.forward_shape (AutoencoderVidTok.encoder self) [b; c; t; s * α; s * β]
     = Some [b; c'; q; α; β]) →
  AutoencoderVidTok.tiled_encode_shape self [b; c; t; s * h; s * w] = Some [b; c'; q; h; w].
Proof.
  intros Hs Hh Hw [Hth (bh & Hbh & Hoh & Hrh) _] [Htw (bw & Hbw & How & Hrw) _] Hnet.
  unfold AutoencoderVidTok.tiled_encode_shape.
  rewrite Hoh, How, Hbh, Hbw. cbn [mbind option_bind]. cbn zeta. rewrite Hth, Htw.
  set (tlh := AutoencoderVidTok.tile_latent_min_height self) in *.
  set (tlw := AutoencoderVidTok.tile_latent_min_width self) in *.
  set (rh := tlh - bh) in *. set (rw := tlw - bw) in *.
  destruct (tile_count h rh Hh ltac:(lia)) as [Hnh Hcover_h].
  destruct (tile_count w rw Hw ltac:(lia)) as [Hnw Hcover_w].
  pose proof (tile_rows_grid (VidTokEncoder3D.forward_shape (AutoencoderVidTok.encoder self))
                b c t (s * h) (s * w) (s * rh) (s * rw) (s * tlh) (s * tlw)
                (λ k l, [b; c'; q; Z.min tlh (h - Z.of_nat k * rh);
                         Z.min tlw (w - Z.of_nat l * rw)])
                ltac:(nia) ltac:(nia)) as Hrows.
  cbn zeta in Hrows. rewrite !tile_count_scale in Hrows by lia.
  rewrite Hrows.
  - cbn [mbind option_bind]. rewrite stitch_rows_tiles by done.
    by rewrite !kept_tiles_total by lia.
  - intros k l Hk Hl. rewrite !slice_len_tile by (lia || nia). apply Hnet; nia.
Qed.

(** [tiled_decode] gives the shape of the whole-tensor decoder when the
    tile settings fit the spatial factor [s]. *)
Lemma tiled_decode_keeps (self : AutoencoderVidTok.t) (s b c c' t q h w : Z) :
  1 ≤ s → 1 ≤ h → 1 ≤ w →
  tile_axis_fits s (AutoencoderVidTok.tile_sample_min_height self)
    (AutoencoderVidTok.tile_latent_min_height self)
    (AutoencoderVidTok.tile_overlap_factor_height self) →
  tile_axis_fits s (AutoencoderVidTok.tile_sample_min_width self)
    (AutoencoderVidTok.tile_latent_min_width self)
    (AutoencoderVidTok.tile_overlap_factor_width self) →
  (∀ α β, 1 ≤ α → 1 ≤ β →
     VidTokDecoder3D.forward_shape (AutoencoderVidTok.decoder self) [b; c; t; α; β]
     = Some [b; c'; q; s * α; s * β]) →
  AutoencoderVidTok.tiled_decode_shape self [b; c; t; h; w]
  = Some [b; c'; q; s * h; s * w].
Proof.
  intros Hs Hh Hw [_ _ (rh & bh & Hoh & Hbh & Hdh & Hrh)] [_ _ (rw & bw & How & Hbw & Hdw & Hrw)]
    Hnet.
  unfold AutoencoderVidTok.tiled_decode_shape.
  rewrite Hoh, How, Hbh, Hbw. cbn [mbind option_bind]. cbn zeta. rewrite Hdh, Hdw.
  set (tlh := AutoencoderVidTok.tile_latent_min_height self) in *.
  set (tlw := AutoencoderVidTok.tile_latent_min_width self) in *.
  destruct (tile_count h rh Hh ltac:(lia)) as [Hnh Hcover_h].
  destruct (tile_count w rw Hw ltac:(lia)) as [Hnw Hcover_w].
  pose proof (tile_rows_grid (VidTokDecoder3D.forward_shape (AutoencoderVidTok.decoder self))
                b c t h w rh rw tlh tlw
                (λ k l, [b; c'; q; s * Z.min tlh (h - Z.of_nat k * rh);
                         s * Z.min tlw (w - Z.of_nat l * rw)])
                ltac:(lia) ltac:(lia)) as Hrows.
  cbn zeta in Hrows. rewrite Hrows.
  - cbn [mbind option_bind]. rewrite stitch_rows_tiles by done.
    by rewrite !kept_tiles_total_scaled by lia.
  - intros k l Hk Hl.
    pose proof (slice_len_tile 1 h rh tlh k) as Hsh.
    pose proof (slice_len_tile 1 w rw tlw l) as Hsw.
    rewrite !Z.mul_1_l in Hsh, Hsw. rewrite Hsh, Hsw by (lia || nia). apply Hnet; nia.
Qed.
(** With tiling enabled, and tile settings that fit the spatial factor,
    [forward] returns a tensor of the shape of its input as well. *)
Lemma forward_tiled_returns_input_shape (cfg : Config.t) (m : AutoencoderVidTok.t)
    (x : Shape.shape) (slicing : bool)
    (tile_sample_min_height tile_sample_min_width : option Z)
    (tile_overlap_factor_height tile_overlap_factor_width : option Q) :
  AutoencoderVidTok.init cfg = Ok m →
  round_trip_config cfg m →
  video_shape cfg x →
  let self :=
    AutoencoderVidTok.set_use_slicing slicing
      (AutoencoderVidTok.enable_tiling m tile_sample_min_height tile_sample_min_width
         tile_overlap_factor_height tile_overlap_factor_width) in
  let s := pow2 (length (Config.ch_mult cfg) - 1) in
  tile_axis_fits s (AutoencoderVidTok.tile_sample_min_height self)
    (AutoencoderVidTok.tile_latent_min_height self)
    (AutoencoderVidTok.tile_overlap_factor_height self) →
  tile_axis_fits s (AutoencoderVidTok.tile_sample_min_width self)
    (AutoencoderVidTok.tile_latent_min_width self)
    (AutoencoderVidTok.tile_overlap_factor_width self) →
  AutoencoderVidTok.forward_shape self x = Some x.
Proof.
  intros Hinit [Hch Hnrb Hdz Hratio] (B & T & H & W & HB & HT & HH & HW & ->) self s Hfh Hfw.
  apply init_fields in Hinit as (Henc & Hdec & Hreg & Hr & Htcr & _).
  rewrite (encoder_temporal_down_factor _ _ _ _ _ _ _ _ Henc) in Hratio.
  set (n := (length (Config.ch_mult cfg) - 1)%nat) in *.
  pose proof (pow2_pos (n `min` 2)) as Hf. pose proof (pow2_pos n) as Hs.
  apply (forward_shape_round_trip _ _ (Config.z_channels cfg) (pow2 (n `min` 2)) B T
           (Config.double_z cfg) [s * H; s * W] [H; W]);
    [by cbn; rewrite Htcr | done.. | | |].
  - cbn [self AutoencoderVidTok.set_use_slicing AutoencoderVidTok.enable_tiling
         AutoencoderVidTok.regularizer]. rewrite Hr.
    destruct Hreg as [Hkl | Hfsq]; [left; auto | by right].
  - intros b q _ Hq. unfold AutoencoderVidTok._encode_shape.
    destruct (_ && _).
    + apply tiled_encode_keeps; [lia | done.. |]. intros α β Hα Hβ.
      by apply (encoder_forward_shape _ _ _ _ _ _ _ _ b q α β Henc).
    + by apply (encoder_forward_shape _ _ _ _ _ _ _ _ b q H W Henc).
  - intros b q Hb Hq. unfold AutoencoderVidTok._decode_shape. rewrite Hch.
    destruct (_ && _).
    + apply tiled_decode_keeps; [lia | done.. |]. intros α β Hα Hβ.
      apply (decoder_forward_shape _ _ _ _ _ _ _ b q α β Hdec); lia.
    + apply (decoder_forward_shape _ _ _ _ _ _ _ b q H W Hdec); lia.
Qed.

(** The tile settings that [enable_tiling()] leaves on the model of
    [test.py] fit its spatial factor 8: tiles of 128 and 16 entries, 112 and
    14 apart, 14 and 112 of them kept. *)
Example test_config_tiles_fit :
  tile_axis_fits (pow2 3) 128 16 (1 # 8).
Proof.
  constructor.
  - reflexivity.
  - exists 2. split; [reflexivity |]. split; [reflexivity | lia].
  - exists 14, 16. split; [reflexivity |]. split; [reflexivity |]. split; [reflexivity | lia].
Qed.

(** [test.py]: tiling and slicing enabled, every batch size, time length and
    frame size that is a multiple of 8. *)
Example forward_test_py (m : AutoencoderVidTok.t) (B T H W : Z) :
  AutoencoderVidTok.init test_config = Ok m →
  1 ≤ B → 1 ≤ T → 1 ≤ H → 1 ≤ W →
  AutoencoderVidTok.forward_shape
    (AutoencoderVidTok.enable_slicing (AutoencoderVidTok.enable_tiling m None None None None))
    [B; 3; T; 8 * H; 8 * W]
  = Some [B; 3; T; 8 * H; 8 * W].
Proof.
  intros Hinit HB HT HH HW.
  assert (Hm : AutoencoderVidTok.init test_config = Ok m) by done.
  apply init_fields in Hm as (Henc & _).
  apply (forward_tiled_returns_input_shape test_config m _ true None None None None Hinit).
  - constructor; [done | done | done |].
    by rewrite (encoder_temporal_down_factor _ _ _ _ _ _ _ _ Henc).
  - by exists B, T, H, W.
  - injection Hinit as <-. exact test_config_tiles_fit.
  - injection Hinit as <-. exact test_config_tiles_fit.
Qed.

(** * Further properties of the code *)

(** ** Blocks on shapes *)

(** X1: a residual block of any type (1D, 2D, 3D), causal or not, with
    either kind of shortcut, returns a tensor with the batch size and the
    extents of its input and [out_channels] channels ([in_channels] when no
    output channel count is given). *)
Theorem resnet_block_changes_channels_only (bt : btype) (causal conv_shortcut : bool)
    (cin : Z) (cout : option Z) (N : Z) (dims : list Z) :
  length dims = rank_of bt →
  Forall (λ n, 1 ≤ n) dims →
  VidTokResnetBlock.forward_shape (VidTokResnetBlock.init cin cout conv_shortcut bt causal)
    (N :: cin :: dims)
  = Some (N :: default cin cout :: dims).
Proof.
  intros Hlen Hdims. unfold VidTokResnetBlock.forward_shape, VidTokResnetBlock.init.
  cbn [VidTokResnetBlock.norm1 VidTokResnetBlock.conv1 VidTokResnetBlock.norm2
       VidTokResnetBlock.conv2 VidTokResnetBlock.in_channels VidTokResnetBlock.out_channels
       VidTokResnetBlock.use_conv_shortcut VidTokResnetBlock.conv_shortcut
       VidTokResnetBlock.nin_shortcut].
  set (c' := default cin cout).
  rewrite layer_norm_ok. cbn [mbind option_bind].
  rewrite make_conv_keeps by auto. cbn [mbind option_bind].
  rewrite layer_norm_ok. cbn [mbind option_bind].
  rewrite make_conv_keeps by auto. cbn [mbind option_bind].
  destruct (decide (cin = c')) as [Heq | Hne].
  - rewrite bool_decide_eq_false_2 by auto. cbn [mbind option_bind].
    rewrite <- Heq. apply shape_add_same.
  - rewrite bool_decide_eq_true_2 by auto.
    destruct conv_shortcut; cbn [andb negb mbind option_bind];
      rewrite make_conv_keeps by auto; cbn [mbind option_bind]; apply shape_add_same.
Qed.

Lemma resnet_block_changes_channels_only_witness :
  VidTokResnetBlock.forward_shape (VidTokResnetBlock.init 4 (Some 8) true B3d true)
    [1; 4; 5; 6; 7]
  = Some [1; 8; 5; 6; 7].
Proof.
  apply (resnet_block_changes_channels_only B3d true true 4 (Some 8) 1 [5; 6; 7]);
    [reflexivity | repeat constructor; lia].
Defined.

(** X2: [spatial_temporal_resblk] with a 2D block from [C] to [C1]
    channels and a 1D block from [C1] to [C2] channels maps a 5D tensor
    [(B, C, T, H, W)] to [(B, C2, T, H, W)]; a tensor that is not 5D fails
    its assertion. *)
Theorem spatial_temporal_resblk_keeps_extent (causal_s causal_t shortcut_s shortcut_t : bool)
    (B C C1 C2 T H W : Z) :
  1 ≤ T → 1 ≤ H → 1 ≤ W →
  spatial_temporal_resblk_shape [B; C; T; H; W]
    (VidTokResnetBlock.init C (Some C1) shortcut_s B2d causal_s)
    (VidTokResnetBlock.init C1 (Some C2) shortcut_t B1d causal_t)
  = Some [B; C2; T; H; W] ∧
  ∀ (x : Shape.shape) (block_s block_t : VidTokResnetBlock.t),
    length x ≠ 5%nat → spatial_temporal_resblk_shape x block_s block_t = None.
Proof.
  intros HT HH HW. split.
  - unfold spatial_temporal_resblk_shape. cbn [Shape.merge_bt mbind option_bind].
    rewrite (resnet_block_changes_channels_only B2d) by (auto; repeat constructor; lia).
    cbn [default from_option mbind option_bind Shape.split_bt]. rewrite Z.eqb_refl.
    cbn [mbind option_bind Shape.merge_bhw].
    rewrite (resnet_block_changes_channels_only B1d) by (auto; repeat constructor; lia).
    cbn [default from_option mbind option_bind Shape.split_bhw]. by rewrite Z.eqb_refl.
  - intros x bs bt Hx. unfold spatial_temporal_resblk_shape.
    by repeat (destruct x as [|? x]; try done).
Qed.

Lemma spatial_temporal_resblk_keeps_extent_witness :
  spatial_temporal_resblk_shape [2; 4; 3; 6; 7]
    (VidTokResnetBlock.init 4 (Some 8) false B2d true)
    (VidTokResnetBlock.init 8 (Some 8) false B1d true)
  = Some [2; 8; 3; 6; 7].
Proof.
  apply (spatial_temporal_resblk_keeps_extent true true false false 2 4 8 8 3 6 7); lia.
Defined.

(** X3: the temporal downsampling block, causal or not, halves the time
    length rounding down and keeps every other extent; an input of fewer
    than two frames is too short for its pooling window and fails. *)
Theorem downsample3d_halves_time (causal : bool) (mix : Qc) (B c T H W : Z) :
  1 ≤ H → 1 ≤ W →
  Shape.VidTokDownsample3D_forward (VidTokDownsample3D_init c c mix causal) [B; c; T; H; W]
  = if 2 <=? T then Some [B; c; T / 2; H; W] else None.
Proof.
  intros HH HW. unfold Shape.VidTokDownsample3D_forward, VidTokDownsample3D_init.
  assert (Hpool : Shape.axis_out (3, 1, 2, 0, 0) (T + 1)
                  = if 2 <=? T then Some (T / 2) else None).
  { unfold Shape.axis_out. cbn [orb Z.leb]. change (3 <=? 0) with false.
    change (1 <=? 0) with false. change (2 <=? 0) with false. cbn [orb].
    destruct (Z.leb_spec 2 T); case_ltb; try lia; try done. f_equal. lia. }
  assert (Hconv : Shape.axis_out (3, 1, 2, 1, 0) T
                  = if 2 <=? T then Some (T / 2) else None).
  { unfold Shape.axis_out. change (3 <=? 0) with false.
    change (1 <=? 0) with false. change (2 <=? 0) with false. cbn [orb].
    destruct (Z.leb_spec 2 T); case_ltb; try lia; try done. f_equal. lia. }
  destruct causal;
    cbn [down_is_causal down_conv Shape.pad_time1 Shape.avg_pool mbind option_bind
         Shape.of_conv_cls Shape.of_causal3d Shape.of_conv3d Shape.conv_forward
         Shape.in_channels Shape.out_channels Shape.axes zip_exact
         VidTokCausalConv3d.init VidTokCausalConv3d.cast_tuple
         VidTokCausalConv3d.in_channels VidTokCausalConv3d.out_channels
         VidTokCausalConv3d.kernel_size VidTokCausalConv3d.dilation VidTokCausalConv3d.stride
         VidTokCausalConv3d.time_causal_padding
         Conv3d.in_channels Conv3d.out_channels Conv3d.kernel_size Conv3d.dilation
         Conv3d.stride Conv3d.padding fst snd];
    rewrite ?Z.eqb_refl;
    change (1 * (3 - 1) + (1 - 2)) with 1;
    change (1 * (3 - 1) + (1 - 1)) with 2;
    change (2 / 2) with 1; change (2 - 1) with 1;
    rewrite ?Hpool, ?Hconv; destruct (2 <=? T); cbn [mbind option_bind]; try done;
    axis_steps; apply shape_add_same.
Qed.

Lemma downsample3d_halves_time_witness :
  Shape.VidTokDownsample3D_forward (VidTokDownsample3D_init 8 8 (Q2Qc 2) true) [1; 8; 5; 4; 4]
  = Some [1; 8; 2; 4; 4] ∧
  Shape.VidTokDownsample3D_forward (VidTokDownsample3D_init 8 8 (Q2Qc 2) true) [1; 8; 1; 4; 4]
  = None.
Proof.
  split.
  - apply (downsample3d_halves_time true (Q2Qc 2) 1 8 5 4 4); lia.
  - apply (downsample3d_halves_time true (Q2Qc 2) 1 8 1 4 4); lia.
Defined.

(** X4: the temporal upsampling block, causal or not, doubles the time
    length and keeps every other extent; on an empty batch the concatenation
    of the interpolated samples fails. *)
Theorem upsample3d_doubles_time (causal : bool) (mix : Qc) (B c T H W : Z) :
  1 ≤ T → 1 ≤ H → 1 ≤ W →
  Shape.VidTokUpsample3D_forward (VidTokUpsample3D_init c c mix causal) [B; c; T; H; W]
  = if 1 <=? B then Some [B; c; 2 * T; H; W] else None.
Proof.
  intros HT HH HW. unfold Shape.VidTokUpsample3D_forward, VidTokUpsample3D_init.
  destruct (Z.leb_spec B 0), (Z.leb_spec 1 B); try lia; [done |].
  destruct causal;
    cbn [up_conv mbind option_bind
         Shape.of_conv_cls Shape.of_causal3d Shape.of_conv3d Shape.conv_forward
         Shape.in_channels Shape.out_channels Shape.axes zip_exact
         VidTokCausalConv3d.init VidTokCausalConv3d.cast_tuple
         VidTokCausalConv3d.in_channels VidTokCausalConv3d.out_channels
         VidTokCausalConv3d.kernel_size VidTokCausalConv3d.dilation VidTokCausalConv3d.stride
         VidTokCausalConv3d.time_causal_padding
         Conv3d.in_channels Conv3d.out_channels Conv3d.kernel_size Conv3d.dilation
         Conv3d.stride Conv3d.padding fst snd];
    rewrite ?Z.eqb_refl;
    change (1 * (3 - 1) + (1 - 1)) with 2;
    change (2 / 2) with 1; change (2 - 1) with 1;
    axis_steps; apply shape_add_same.
Qed.

Lemma upsample3d_doubles_time_witness :
  Shape.VidTokUpsample3D_forward (VidTokUpsample3D_init 8 8 (Q2Qc 2) true) [2; 8; 3; 4; 4]
  = Some [2; 8; 6; 4; 4].
Proof. apply (upsample3d_doubles_time true (Q2Qc 2) 2 8 3 4 4); lia. Defined.

(** X5: the 3D attention block, causal or not, returns a tensor of the
    shape of its input. *)
Theorem attention_block_keeps_shape (causal : bool) (B C T H W : Z) :
  1 ≤ T → 1 ≤ H → 1 ≤ W →
  VidTokAttnBlockWrapper.forward_shape (VidTokAttnBlockWrapper.init C causal) [B; C; T; H; W]
  = Some [B; C; T; H; W].
Proof.
  intros HT HH HW.
  assert (Hconv : Shape.conv_forward (VidTokAttnBlockWrapper.make_conv_cls causal C C 1 1 0)
                    [B; C; T; H; W] = Some [B; C; T; H; W]).
  { apply (make_conv_keeps B3d causal C C 1 0 B [T; H; W]);
      [by right | done | repeat constructor; lia]. }
  unfold VidTokAttnBlockWrapper.forward_shape, VidTokAttnBlockWrapper.attention_shape,
    VidTokAttnBlockWrapper.init.
  cbn [VidTokAttnBlockWrapper.norm VidTokAttnBlockWrapper.q VidTokAttnBlockWrapper.k
       VidTokAttnBlockWrapper.v VidTokAttnBlockWrapper.proj_out].
  rewrite layer_norm_ok. cbn [mbind option_bind].
  rewrite !Hconv. cbn [mbind option_bind].
  rewrite decide_True by done. cbn [mbind option_bind].
  rewrite Hconv. cbn [mbind option_bind]. apply shape_add_same.
Qed.

Lemma attention_block_keeps_shape_witness :
  VidTokAttnBlockWrapper.forward_shape (VidTokAttnBlockWrapper.init 8 true) [1; 8; 3; 4; 5]
  = Some [1; 8; 3; 4; 5].
Proof. apply (attention_block_keeps_shape true 1 8 3 4 5); lia. Defined.
(** ** Construction *)

Lemma encoder_init_blocks_length (n : nat) (bi bo : Z) (causal : bool) :
  length (VidTokEncoder3D.init_blocks n bi bo causal).1.1 = n ∧
  length (VidTokEncoder3D.init_blocks n bi bo causal).1.2 = n.
Proof.
  revert bi. induction n as [|n IH]; intros bi; [done |].
  cbn [VidTokEncoder3D.init_blocks]. specialize (IH bo).
  destruct (VidTokEncoder3D.init_blocks n bo bo causal) as [[bl btl] b].
  cbn [fst snd length] in *. lia.
Qed.

(** X7: the encoder the constructor builds has one entry of [down] and of
    [down_temporal] per level; level [i] holds [num_res_blocks] spatial and
    as many temporal blocks, a spatial downsampling layer exactly when it is
    not the last level, and a temporal downsampling block exactly when it is
    level [L - 2] or [L - 3]. *)
Theorem encoder_levels_structure (in_ch ch : Z) (ch_mult : list Z) (nrb zc : Z)
    (dz causal : bool) (enc : VidTokEncoder3D.t) :
  VidTokEncoder3D.init in_ch ch ch_mult nrb zc dz causal = Ok enc →
  length (VidTokEncoder3D.down enc) = length ch_mult ∧
  length (VidTokEncoder3D.down_temporal enc) = length ch_mult ∧
  ∀ (i : nat) (d : VidTokEncoder3D.level) (dt : VidTokEncoder3D.level_temporal),
    VidTokEncoder3D.down enc !! i = Some d →
    VidTokEncoder3D.down_temporal enc !! i = Some dt →
    length (VidTokEncoder3D.block d) = Z.to_nat nrb ∧
    length (VidTokEncoder3D.tblock dt) = Z.to_nat nrb ∧
    (is_Some (VidTokEncoder3D.downsample d) ↔ S i ≠ length ch_mult) ∧
    (is_Some (VidTokEncoder3D.tdownsample dt)
     ↔ (i + 2 = length ch_mult ∨ i + 3 = length ch_mult)%nat).
Proof.
  intros Hinit. unfold VidTokEncoder3D.init in Hinit.
  destruct (last _) as [[[l lt] bi]|]; [| done].
  apply Ok_inj in Hinit. subst enc.
  cbn [VidTokEncoder3D.down VidTokEncoder3D.down_temporal].
  rewrite !length_fmap, length_seq. split; [done |]. split; [done |].
  intros i d dt Hd Hdt.
  rewrite !list_lookup_fmap in Hd. rewrite !list_lookup_fmap in Hdt.
  destruct (seq 0 (length ch_mult) !! i) as [j|] eqn:Hj; [| done].
  apply lookup_seq in Hj as [-> Hi]. cbn [Nat.add] in *.
  cbn [fmap option_fmap option_map] in Hd, Hdt.
  injection Hd as <-. injection Hdt as <-.
  unfold VidTokEncoder3D.init_level.
  pose proof (encoder_init_blocks_length (Z.to_nat nrb)
                (ch * default 0 ((1 :: ch_mult) !! i)) (ch * default 0 (ch_mult !! i)) causal)
    as [Hb Hbt].
  destruct (VidTokEncoder3D.init_blocks _ _ _ _) as [[bl btl] b].
  cbn [fst snd VidTokEncoder3D.block VidTokEncoder3D.tblock VidTokEncoder3D.downsample
       VidTokEncoder3D.tdownsample] in *.
  split; [done |]. split; [done |].
  destruct (bool_decide (Z.of_nat i ≠ Z.of_nat (length ch_mult) - 1)) eqn:Hlast;
    [apply bool_decide_eq_true in Hlast | apply bool_decide_eq_false in Hlast];
    (destruct (bool_decide (Z.of_nat i ∈ [Z.of_nat (length ch_mult) - 2;
                                           Z.of_nat (length ch_mult) - 3])) eqn:Hin;
     [apply bool_decide_eq_true in Hin | apply bool_decide_eq_false in Hin]);
    rewrite !elem_of_cons, elem_of_nil in Hin; cbn [andb];
    rewrite ?is_Some_alt; (split; split; intros HS); try done; try lia.
Qed.

Lemma encoder_levels_structure_witness :
  ∃ enc, VidTokEncoder3D.init 3 128 [1; 2; 4; 4] 2 16 true true = Ok enc ∧
         length (VidTokEncoder3D.down enc) = 4%nat.
Proof.
  eexists. split; [reflexivity |].
  exact (proj1 (encoder_levels_structure 3 128 [1; 2; 4; 4] 2 16 true true _ eq_refl)).
Defined.
Lemma decoder_init_blocks_spec (n : nat) (bt : btype) (bi bo : Z) (causal : bool) :
  length (VidTokDecoder3D.init_blocks n bt bi bo causal).1 = n ∧
  VidTokResnetBlock.in_channels <$> head (VidTokDecoder3D.init_blocks n bt bi bo causal).1
  = (if n is O then None else Some bi) ∧
  Forall (λ b, VidTokResnetBlock.out_channels b = bo)
    (VidTokDecoder3D.init_blocks n bt bi bo causal).1.
Proof.
  revert bi. induction n as [|n IH]; intros bi; [by repeat split |].
  cbn [VidTokDecoder3D.init_blocks]. specialize (IH bo).
  destruct (VidTokDecoder3D.init_blocks n bt bo bo causal) as [bl b].
  cbn [fst snd length head fmap option_fmap option_map] in *.
  destruct IH as (Hlen & _ & Hout). repeat split; [lia |].
  by constructor.
Qed.

(** X8: the decoder the constructor builds in reverse level order has its
    levels at their own indices in [up] and [up_temporal]: level [i] holds
    [num_res_blocks + 1] spatial and as many temporal blocks, its first
    spatial block takes the channels the level above returns (those of the
    middle block at the top level), all its spatial blocks return
    [ch * ch_mult[i]] channels, it has a spatial upsampling layer exactly
    when it is not level 0, and a temporal upsampling block exactly when it
    is level 1 or 2. *)
Theorem decoder_levels_structure (ch : Z) (ch_mult : list Z) (nrb zc out_ch : Z)
    (causal : bool) (dec : VidTokDecoder3D.t) :
  VidTokDecoder3D.init ch ch_mult nrb zc out_ch causal = Ok dec →
  0 ≤ nrb →
  length (VidTokDecoder3D.up dec) = length ch_mult ∧
  length (VidTokDecoder3D.up_temporal dec) = length ch_mult ∧
  ∀ (i : nat) (u : VidTokDecoder3D.level) (ut : VidTokDecoder3D.level_temporal),
    VidTokDecoder3D.up dec !! i = Some u →
    VidTokDecoder3D.up_temporal dec !! i = Some ut →
    length (VidTokDecoder3D.block u) = Z.to_nat (nrb + 1) ∧
    length (VidTokDecoder3D.tblock ut) = Z.to_nat (nrb + 1) ∧
    VidTokResnetBlock.in_channels <$> head (VidTokDecoder3D.block u)
    = Some (ch * default 0 (ch_mult !! (S i `min` (length ch_mult - 1))%nat)) ∧
    Forall (λ b, VidTokResnetBlock.out_channels b = ch * default 0 (ch_mult !! i))
      (VidTokDecoder3D.block u) ∧
    (is_Some (VidTokDecoder3D.upsample u) ↔ i ≠ 0%nat) ∧
    (is_Some (VidTokDecoder3D.tupsample ut) ↔ (i = 1 ∨ i = 2)%nat).
Proof.
  intros Hinit Hnrb. unfold VidTokDecoder3D.init in Hinit.
  destruct (last ch_mult) as [m|] eqn:Hlast; [| done].
  rewrite init_up_spec, init_up_temporal_spec, !app_nil_r in Hinit by done.
  apply Ok_inj in Hinit. subst dec.
  cbn [VidTokDecoder3D.up VidTokDecoder3D.up_temporal].
  rewrite !length_fmap, length_seq. split; [done |]. split; [done |].
  intros i u ut Hu Hut.
  rewrite list_lookup_fmap in Hu. rewrite list_lookup_fmap in Hut.
  destruct (seq 0 (length ch_mult) !! i) as [j|] eqn:Hj; [| done].
  apply lookup_seq in Hj as [-> Hi]. cbn [Nat.add] in *.
  cbn [fmap option_fmap option_map] in Hu, Hut.
  injection Hu as <-. injection Hut as <-.
  unfold up_level, up_temporal_level.
  set (bin := if bool_decide (S i = length ch_mult) then ch * m
              else ch * default 0 (ch_mult !! S i)).
  assert (Hbin : bin = ch * default 0 (ch_mult !! (S i `min` (length ch_mult - 1))%nat)).
  { subst bin. destruct (decide (S i = length ch_mult)) as [HS | HS].
    - rewrite bool_decide_eq_true_2 by done.
      replace (S i `min` (length ch_mult - 1))%nat with (pred (length ch_mult)) by lia.
      by rewrite <- last_lookup, Hlast.
    - rewrite bool_decide_eq_false_2 by done.
      by replace (S i `min` (length ch_mult - 1))%nat with (S i) by lia. }
  pose proof (decoder_init_blocks_spec (Z.to_nat (nrb + 1)) B2d bin
                (ch * default 0 (ch_mult !! i)) true) as (Hlen & Hhead & Hout).
  pose proof (decoder_init_blocks_spec (Z.to_nat (nrb + 1)) B1d
                (ch * default 0 (ch_mult !! i)) (ch * default 0 (ch_mult !! i)) causal)
    as (Hlent & _ & _).
  destruct (VidTokDecoder3D.init_blocks (Z.to_nat (nrb + 1)) B2d _ _ _) as [bl b].
  destruct (VidTokDecoder3D.init_blocks (Z.to_nat (nrb + 1)) B1d _ _ _) as [btl b'].
  cbn [fst snd VidTokDecoder3D.block VidTokDecoder3D.tblock VidTokDecoder3D.upsample
       VidTokDecoder3D.tupsample] in *.
  split; [done |]. split; [done |]. split.
  { rewrite Hhead, <- Hbin. destruct (Z.to_nat (nrb + 1)) eqn:E; [lia | done]. }
  split; [done |]. split.
  - destruct (decide (i = 0%nat)) as [-> | Hne].
    + rewrite bool_decide_eq_false_2 by auto. rewrite is_Some_alt. done.
    + rewrite bool_decide_eq_true_2 by done. rewrite is_Some_alt. done.
  - destruct (decide (i = 1 ∨ i = 2)%nat) as [Hi12 | Hi12].
    + rewrite bool_decide_eq_true_2 by (rewrite !elem_of_cons; lia).
      rewrite is_Some_alt. done.
    + rewrite bool_decide_eq_false_2 by (rewrite !elem_of_cons, elem_of_nil; lia).
      rewrite is_Some_alt. done.
Qed.

Lemma decoder_levels_structure_witness :
  ∃ dec, VidTokDecoder3D.init 128 [1; 2; 4; 4] 2 16 3 true = Ok dec ∧
         length (VidTokDecoder3D.up dec) = 4%nat.
Proof.
  eexists. split; [reflexivity |].
  exact (proj1 (decoder_levels_structure 128 [1; 2; 4; 4] 2 16 3 true _ eq_refl
                  ltac:(lia))).
Defined.
(** ** Encoder and decoder as a pair *)

Lemma make_conv_rejects (bt : btype) (causal : bool) (cin cout k s p N c : Z)
    (dims : list Z) :
  c ≠ cin →
  Shape.conv_forward (VidTokResnetBlock.make_conv_cls bt causal cin cout k s p)
    (N :: c :: dims) = None.
Proof.
  intros Hc. unfold Shape.conv_forward.
  assert (Shape.in_channels (VidTokResnetBlock.make_conv_cls bt causal cin cout k s p) = cin)
    as ->.
  { by destruct bt, causal. }
  by destruct (Z.eqb_spec c cin).
Qed.

Lemma decoder_rejects_channels (ch : Z) (ch_mult : list Z) (nrb zc out_ch : Z)
    (causal : bool) (dec : VidTokDecoder3D.t) (B c T H W : Z) :
  VidTokDecoder3D.init ch ch_mult nrb zc out_ch causal = Ok dec →
  c ≠ zc →
  VidTokDecoder3D.forward_shape dec [B; c; T; H; W] = None.
Proof.
  intros Hinit Hc. unfold VidTokDecoder3D.init in Hinit.
  destruct (last ch_mult) as [m|]; [| done].
  destruct (VidTokDecoder3D.init_up _ _ _ _ _ _) as [up b1].
  destruct (VidTokDecoder3D.init_up_temporal _ _ _ _ _ _ _ _) as [upt b2].
  apply Ok_inj in Hinit. subst dec.
  unfold VidTokDecoder3D.forward_shape. cbn [VidTokDecoder3D.conv_in].
  by rewrite make_conv_rejects.
Qed.

(** X9: the decoder maps a latent [(B, z_channels, T, H, W)] to
    [(B, out_channels, 2 ^ min (L - 1) 2 * T, 2 ^ (L - 1) * H,
    2 ^ (L - 1) * W)], and rejects a latent with another channel count at
    its first convolution. *)
Theorem decoder_forward_scales (ch : Z) (ch_mult : list Z) (nrb zc out_ch : Z)
    (causal : bool) (dec : VidTokDecoder3D.t) (B c T H W : Z) :
  VidTokDecoder3D.init ch ch_mult nrb zc out_ch causal = Ok dec →
  0 ≤ nrb → 1 ≤ B → 1 ≤ T → 1 ≤ H → 1 ≤ W →
  VidTokDecoder3D.forward_shape dec [B; c; T; H; W]
  = if c =? zc
    then Some [B; out_ch; pow2 ((length ch_mult - 1) `min` 2) * T;
               pow2 (length ch_mult - 1) * H; pow2 (length ch_mult - 1) * W]
    else None.
Proof.
  intros Hinit Hnrb HB HT HH HW. destruct (Z.eqb_spec c zc) as [-> | Hc].
  - by apply (decoder_forward_shape ch ch_mult nrb zc out_ch causal).
  - by apply (decoder_rejects_channels ch ch_mult nrb zc out_ch causal).
Qed.

Lemma decoder_forward_scales_witness :
  ∃ dec, VidTokDecoder3D.init 128 [1; 2; 4; 4] 2 16 3 true = Ok dec ∧
         VidTokDecoder3D.forward_shape dec [1; 16; 5; 32; 32] = Some [1; 3; 20; 256; 256] ∧
         VidTokDecoder3D.forward_shape dec [1; 32; 5; 32; 32] = None.
Proof.
  eexists. split; [reflexivity |]. split.
  - exact (decoder_forward_scales 128 [1; 2; 4; 4] 2 16 3 true _ 1 16 5 32 32 eq_refl
             ltac:(lia) ltac:(lia) ltac:(lia) ltac:(lia) ltac:(lia)).
  - exact (decoder_forward_scales 128 [1; 2; 4; 4] 2 16 3 true _ 1 32 5 32 32 eq_refl
             ltac:(lia) ltac:(lia) ltac:(lia) ltac:(lia) ltac:(lia)).
Defined.

(** X10: what the decoder makes of the encoder's own output, for the
    encoder and decoder of one model.  Without [double_z] the pair returns
    the input's extents with [out_channels] channels; with [double_z] the
    encoder returns twice the latent channels and the decoder rejects them:
    the latent has to pass the posterior first. *)
Theorem decoder_after_encoder (cfg : Config.t) (m : AutoencoderVidTok.t) (B T H W : Z) :
  AutoencoderVidTok.init cfg = Ok m →
  1 ≤ Config.num_res_blocks cfg → 1 ≤ Config.z_channels cfg →
  1 ≤ B → 1 ≤ T → 1 ≤ H → 1 ≤ W →
  let L := length (Config.ch_mult cfg) in
  let x := [B; Config.in_channels cfg; pow2 ((L - 1) `min` 2) * T;
            pow2 (L - 1) * H; pow2 (L - 1) * W] in
  VidTokEncoder3D.forward_shape (AutoencoderVidTok.encoder m) x
  ≫= VidTokDecoder3D.forward_shape (AutoencoderVidTok.decoder m)
  = if Config.double_z cfg then None
    else Some [B; Config.out_channels cfg; pow2 ((L - 1) `min` 2) * T;
               pow2 (L - 1) * H; pow2 (L - 1) * W].
Proof.
  intros Hinit Hnrb Hzc HB HT HH HW L x. subst x L.
  apply init_fields in Hinit as (Henc & Hdec & _).
  rewrite (encoder_forward_shape _ _ _ _ _ _ _ _ B T H W Henc) by done.
  cbn [mbind option_bind]. destruct (Config.double_z cfg).
  - apply (decoder_rejects_channels _ _ _ _ _ _ _ _ _ _ _ _ Hdec). lia.
  - apply (decoder_forward_shape _ _ _ _ _ _ _ _ _ _ _ Hdec); lia.
Qed.

Lemma decoder_after_encoder_witness :
  ∃ m, AutoencoderVidTok.init test_config = Ok m ∧
       VidTokEncoder3D.forward_shape (AutoencoderVidTok.encoder m) [1; 3; 20; 256; 256]
       ≫= VidTokDecoder3D.forward_shape (AutoencoderVidTok.decoder m)
       = None.
Proof.
  eexists. split; [reflexivity |].
  exact (decoder_after_encoder test_config _ 1 5 32 32 eq_refl
           ltac:(cbn; lia) ltac:(cbn; lia) ltac:(lia) ltac:(lia) ltac:(lia) ltac:(lia)).
Defined.

(** X11: the decoder mirrors the encoder: in every constructed model the
    levels at which the decoder upsamples time are as many as those at which
    the encoder downsamples it, so the two temporal factors are equal. *)
Theorem decoder_mirrors_encoder_temporal_factor (cfg : Config.t) (m : AutoencoderVidTok.t) :
  AutoencoderVidTok.init cfg = Ok m →
  length (temporal_up_levels (AutoencoderVidTok.decoder m))
  = length (temporal_down_levels (AutoencoderVidTok.encoder m)) ∧
  temporal_up_factor (AutoencoderVidTok.decoder m)
  = temporal_down_factor (AutoencoderVidTok.encoder m).
Proof.
  intros Hinit. apply init_fields in Hinit as (Henc & Hdec & _).
  pose proof (decoder_temporal_up_factor _ _ _ _ _ _ _ Hdec) as [Hup Hupf].
  pose proof (encoder_temporal_down_factor _ _ _ _ _ _ _ _ Henc) as Hdownf.
  assert (Hlen : length (temporal_up_levels (AutoencoderVidTok.decoder m))
                 = length (temporal_down_levels (AutoencoderVidTok.encoder m))).
  { apply Nat2Z.inj, (Z.pow_inj_r 2); [lia.. |].
    unfold temporal_up_factor, temporal_down_factor in *. congruence. }
  split; [done |]. congruence.
Qed.

Lemma decoder_mirrors_encoder_temporal_factor_witness :
  ∃ m, AutoencoderVidTok.init test_config = Ok m ∧
       temporal_up_factor (AutoencoderVidTok.decoder m)
       = temporal_down_factor (AutoencoderVidTok.encoder m).
Proof.
  eexists. split; [reflexivity |].
  exact (proj2 (decoder_mirrors_encoder_temporal_factor test_config _ eq_refl)).
Defined.
(** ** The methods of the autoencoder *)

(** X12: in constant mode [pad_at_dim] changes one axis only, by the two
    amounts of [pad]: axis [dim] for [0 <= dim < ndim], axis [ndim + dim] for
    a negative [dim] down to [- ndim], and the last axis for every
    [dim >= ndim], where the tuple of zeros is empty.  Below [- ndim] the
    padding tuple is longer than the tensor has axes and the call fails. *)
Theorem pad_at_dim_pads_one_axis (x : Shape.shape) (before after dim d : Z) :
  let n := Z.of_nat (length x) in
  let axis := Z.to_nat (if dim <? 0 then n + dim else Z.min dim (n - 1)) in
  Forall (λ e, 0 ≤ e) x →
  (- n ≤ dim → x !! axis = Some d → 0 ≤ d + before + after →
   pad_at_dim_constant x (before, after) dim = Some (<[axis := d + before + after]> x)) ∧
  (dim < - n → pad_at_dim_constant x (before, after) dim = None).
Proof.
  intros n axis Hx. unfold pad_at_dim_constant, pad_at_dim_pairs, F_pad_constant.
  fold n. set (k := Z.to_nat (if dim <? 0 then - dim - 1 else n - dim - 1)).
  rewrite length_app, length_replicate. cbn [length]. split.
  - intros Hdim Hd Hpad.
    assert (Hn : (axis < length x)%nat) by (by apply lookup_lt_Some in Hd).
    assert (Hk : (axis + k + 1 = length x)%nat).
    { subst axis k n. destruct (Z.ltb_spec dim 0); lia. }
    rewrite bool_decide_eq_true_2 by lia.
    assert (Hpadded :
      imap (λ i e, let '(b, a) :=
                     default (0, 0)
                       ((replicate k (0, 0) ++ [(before, after)]) !! (length x - 1 - i)%nat) in
                   e + b + a) x
      = <[axis := d + before + after]> x).
    { apply list_eq. intros i. rewrite list_lookup_imap.
      destruct (decide (i = axis)) as [-> | Hi].
      - rewrite list_lookup_insert_eq by done. rewrite Hd. cbn [fmap option_fmap option_map].
        rewrite lookup_app_r by (rewrite length_replicate; lia).
        rewrite length_replicate.
        by replace (length x - 1 - axis - k)%nat with 0%nat by lia.
      - rewrite list_lookup_insert_ne by done.
        destruct (x !! i) as [e|] eqn:He; [| done]. cbn [fmap option_fmap option_map].
        apply lookup_lt_Some in He as Hlt.
        destruct (decide (length x - 1 - i < k)%nat) as [Hlt' | Hge].
        + rewrite lookup_app_l by (rewrite length_replicate; lia).
          rewrite lookup_replicate_2 by done. cbn. f_equal. lia.
        + rewrite lookup_ge_None_2 by (rewrite length_app, length_replicate; cbn; lia).
          cbn. f_equal. lia. }
    rewrite Hpadded.
    assert (forallb (Z.leb 0) (<[axis := d + before + after]> x) = true) as ->; [| done].
    apply Is_true_eq_true, forallb_True, Forall_insert;
      [| by apply Is_true_true, Z.leb_le].
    eapply Forall_impl; [exact Hx |]. intros e He. by apply Is_true_true, Z.leb_le.
  - intros Hdim. rewrite bool_decide_eq_false_2; [done |].
    subst k n. destruct (Z.ltb_spec dim 0); lia.
Qed.

Lemma pad_at_dim_pads_one_axis_witness :
  pad_at_dim_constant [1; 3; 18; 256; 256] (2, 0) 2 = Some [1; 3; 20; 256; 256] ∧
  pad_at_dim_constant [1; 3; 18; 256; 256] (2, 0) 7 = Some [1; 3; 18; 256; 258].
Proof.
  split.
  - refine (proj1 (pad_at_dim_pads_one_axis [1; 3; 18; 256; 256] 2 0 2 18 _) _ _ _);
      [repeat constructor; lia | cbn; lia | reflexivity | lia].
  - refine (proj1 (pad_at_dim_pads_one_axis [1; 3; 18; 256; 256] 2 0 7 256 _) _ _ _);
      [repeat constructor; lia | cbn; lia | reflexivity | lia].
Defined.

(** ** Blending *)

Lemma loop_app {S : Type} (body : nat → S → option S) (l1 l2 : list nat) (s : S) :
  loop body (l1 ++ l2) s = loop body l1 s ≫= loop body l2.
Proof.
  revert s. induction l1 as [|i l1 IH]; intros s; [done |].
  cbn [app loop]. destruct (body i s) as [s'|]; cbn [mbind option_bind]; auto.
Qed.

Lemma zip_exact_total {A B C : Type} (g : A → B → C) (xs : list A) (ys : list B) :
  length xs = length ys →
  zip_exact (λ a b, Some (g a b)) xs ys = Some (zip_with g xs ys).
Proof.
  revert ys. induction xs as [|x xs IH]; intros [|y ys] Hlen; try done.
  cbn [zip_exact zip_with mbind option_bind]. rewrite IH by (simpl in Hlen; lia). done.
Qed.

(** At the first position of a blend the weight of [b] is 0. *)
Lemma mix_first (blend_extent : Z) (a b : Qc) : Tiles.mix 0 blend_extent a b = a.
Proof.
  unfold Tiles.mix. change (Z.of_nat 0) with 0. cbv zeta.
  assert (Q2Qc (0 # Z.to_pos blend_extent) = 0%Qc) as ->.
  { change 0%Qc with (Q2Qc 0). by apply Q2Qc_eq_iff. }
  ring.
Qed.

Lemma zip_with_mix_first (blend_extent : Z) (ra rb : list Qc) :
  length ra = length rb → zip_with (Tiles.mix 0 blend_extent) ra rb = ra.
Proof.
  revert rb. induction ra as [|a ra IH]; intros [|b rb] Hlen; try done.
  cbn [zip_with]. rewrite mix_first, IH by (simpl in Hlen; lia). done.
Qed.

(** The loop of [blend_v] after [k] turns: the first [k] rows of [b] are
    blended, the other rows are as they were. *)
Lemma blend_v_rows (ta tb : Tiles.tile) (e : Z) (w k : nat) :
  Forall (λ r, length r = w) ta → Forall (λ r, length r = w) tb →
  e ≤ Tiles.height ta → e ≤ Tiles.height tb → (k ≤ Z.to_nat e)%nat →
  ∃ t, loop (Tiles.blend_v_row ta e) (seq 0 k) tb = Some t ∧
       length t = length tb ∧
       Forall (λ r, length r = w) t ∧
       (∀ y, (y < k)%nat →
          ∃ ra rb, ta !! Z.to_nat (Tiles.height ta - e + Z.of_nat y) = Some ra ∧
                   tb !! y = Some rb ∧
                   t !! y = Some (zip_with (Tiles.mix y e) ra rb)) ∧
       (∀ y, (k ≤ y)%nat → t !! y = tb !! y).
Proof.
  intros Hta Htb Hea Heb. unfold Tiles.height in *.
  induction k as [|k IH]; intros Hk.
  - exists tb. split; [done |]. split; [done |]. split; [done |].
    split; [intros y Hy; lia | done].
  - destruct IH as (t & Hloop & Hlen & Ht & Hblended & Hrest); [lia |].
    rewrite seq_S, loop_app, Hloop. cbn [Nat.add loop mbind option_bind].
    destruct (lookup_lt_is_Some_2 ta (Z.to_nat (Z.of_nat (length ta) - e + Z.of_nat k)))
      as [ra Hra]; [lia |].
    destruct (lookup_lt_is_Some_2 tb k) as [rb Hrb]; [lia |].
    assert (Hlra : length ra = w).
    { by eapply (proj1 (Forall_lookup _ _) Hta). }
    assert (Hlrb : length rb = w).
    { by eapply (proj1 (Forall_lookup _ _) Htb). }
    unfold Tiles.blend_v_row, Tiles.height.
    rewrite Hra, (Hrest k) by done. rewrite Hrb. cbn [mbind option_bind].
    rewrite zip_exact_total by congruence. cbn [mbind option_bind].
    eexists. split; [reflexivity |]. split; [by rewrite length_insert |]. split.
    { apply Forall_insert; [done |]. rewrite length_zip_with. lia. }
    split.
    + intros y Hy. destruct (decide (y = k)) as [-> | Hne].
      * exists ra, rb. repeat split; [done.. |].
        apply list_lookup_insert_eq. lia.
      * destruct (Hblended y) as (ra' & rb' & ? & ? & ?); [lia |].
        exists ra', rb'. repeat split; [done.. |].
        by rewrite list_lookup_insert_ne.
    + intros y Hy. rewrite list_lookup_insert_ne by lia. apply Hrest. lia.
Qed.

(** X14: [blend_v(a, b, blend_extent)] on two different tile objects of one
    width writes into [b] only.  With [e] the least of the two heights and
    [blend_extent], row [y < e] of [b] becomes the mix of row [y - e] from
    the end of [a] and the old row [y] of [b] with weights [1 - y / e] and
    [y / e]; the rows from [e] on stay as they were; so row 0 of [b] becomes
    row [- e] of [a], and an extent of 0 or less changes nothing. *)
Theorem blend_v_blends_leading_rows (s : Tiles.store) (a b : nat * nat)
    (ta tb : Tiles.tile) (blend_extent : Z) (w : nat) :
  a ≠ b →
  Tiles.get s a = Some ta →
  Tiles.get s b = Some tb →
  Forall (λ r, length r = w) ta →
  Forall (λ r, length r = w) tb →
  let e := Z.min (Z.min (Tiles.height ta) (Tiles.height tb)) blend_extent in
  ∃ tb',
    Tiles.blend_v s a b blend_extent = Some (Tiles.set s b tb') ∧
    length tb' = length tb ∧
    (∀ y, Z.of_nat y < e →
       ∃ ra rb, ta !! Z.to_nat (Tiles.height ta - e + Z.of_nat y) = Some ra ∧
                tb !! y = Some rb ∧
                tb' !! y = Some (zip_with (Tiles.mix y e) ra rb)) ∧
    (∀ y, e ≤ Z.of_nat y → tb' !! y = tb !! y) ∧
    (0 < e → tb' !! 0%nat = ta !! Z.to_nat (Tiles.height ta - e)) ∧
    (e ≤ 0 → tb' = tb) ∧
    (∀ l, l ≠ b → Tiles.get (Tiles.set s b tb') l = Tiles.get s l).
Proof.
  intros Hab Ha Hb Hta Htb e.
  destruct (blend_v_rows ta tb e w (Z.to_nat e) Hta Htb) as (t & Hloop & Hlen & Ht & Hbl & Hrest);
    [lia.. |].
  exists t. rewrite (blend_v_in_place s a b ta tb) by done.
  unfold Tiles.blend_v_val. fold e. rewrite Hloop. cbn [mbind option_bind].
  split; [done |]. split; [done |]. split; [intros y Hy; apply Hbl; lia |].
  split; [intros y Hy; apply Hrest; lia |]. split; [| split].
  - intros He. destruct (Hbl 0%nat) as (ra & rb & Hra & Hrb & Hy); [lia |].
    rewrite Z.add_0_r in Hra. rewrite Hy, Hra. f_equal. apply zip_with_mix_first.
    rewrite (proj1 (Forall_lookup _ _) Hta _ _ Hra).
    by rewrite (proj1 (Forall_lookup _ _) Htb _ _ Hrb).
  - intros He. replace (Z.to_nat e) with 0%nat in Hloop by lia. by injection Hloop.
  - intros l Hl. by apply tiles_get_set_ne.
Qed.

Lemma blend_v_blends_leading_rows_witness :
  ∃ tb',
    Tiles.blend_v Tiles.grid22 (0, 0)%nat (1, 0)%nat 1
    = Some (Tiles.set Tiles.grid22 (1, 0)%nat tb') ∧
    tb' !! 0%nat = Some [Q2Qc 1; Q2Qc 1].
Proof.
  destruct (blend_v_blends_leading_rows Tiles.grid22 (0, 0)%nat (1, 0)%nat
              [[Q2Qc 1; Q2Qc 1]] [[Q2Qc 3; Q2Qc 3]] 1 2
              ltac:(discriminate) eq_refl eq_refl
              ltac:(repeat constructor) ltac:(repeat constructor))
    as (tb' & Hblend & _ & _ & _ & Hseam & _).
  exists tb'. split; [exact Hblend |]. exact (Hseam ltac:(vm_compute; reflexivity)).
Defined.
Lemma zip_exact_lookup {A B C : Type} (f : A → B → option C) (g : A → B → C)
    (xs : list A) (ys : list B) :
  length xs = length ys →
  (∀ i x y, xs !! i = Some x → ys !! i = Some y → f x y = Some (g x y)) →
  zip_exact f xs ys = Some (zip_with g xs ys).
Proof.
  revert ys. induction xs as [|x xs IH]; intros [|y ys] Hlen Hf; try done.
  cbn [zip_exact zip_with]. rewrite (Hf 0%nat x y) by done. cbn [mbind option_bind].
  rewrite IH; [done | simpl in Hlen; lia |].
  intros i x' y' Hx Hy. by apply (Hf (S i)).
Qed.

(** The loop of [blend_h] after [k] turns: in every row the first [k]
    entries of [b] are blended, the other entries are as they were. *)
Lemma blend_h_cols (ta tb : Tiles.tile) (e : Z) (wa wb k : nat) :
  Forall (λ r, length r = wa) ta → Forall (λ r, length r = wb) tb →
  length ta = length tb →
  e ≤ Z.of_nat wa → e ≤ Z.of_nat wb → (k ≤ Z.to_nat e)%nat →
  ∃ t, loop (Tiles.blend_h_col ta e) (seq 0 k) tb = Some t ∧
       length t = length tb ∧
       Forall (λ r, length r = wb) t ∧
       ∀ i ra rb, ta !! i = Some ra → tb !! i = Some rb →
         ∃ r, t !! i = Some r ∧
              (∀ x, (x < k)%nat →
                 ∃ a b, ra !! Z.to_nat (Z.of_nat wa - e + Z.of_nat x) = Some a ∧
                        rb !! x = Some b ∧
                        r !! x = Some (Tiles.mix x e a b)) ∧
              (∀ x, (k ≤ x)%nat → r !! x = rb !! x).
Proof.
  intros Hta Htb Hlen Hea Heb.
  induction k as [|k IH]; intros Hk.
  - exists tb. split; [done |]. split; [done |]. split; [done |].
    intros i ra rb Hra Hrb. exists rb. split; [done |].
    split; [intros x Hx; lia | done].
  - destruct IH as (t & Hloop & Hlent & Ht & Hrows); [lia |].
    rewrite seq_S, loop_app, Hloop. cbn [Nat.add loop mbind option_bind].
    set (idx := Z.to_nat (Z.of_nat wa - e + Z.of_nat k)).
    set (G := λ (ra r : list Qc),
                <[k := Tiles.mix k e (default 0%Qc (ra !! idx)) (default 0%Qc (r !! k))]> r).
    assert (Hcol : Tiles.blend_h_col ta e k t = Some (zip_with G ta t)).
    { unfold Tiles.blend_h_col. apply zip_exact_lookup; [congruence |].
      intros i ra r Hra Hr.
      assert (Hw : Tiles.width ta = Z.of_nat wa).
      { destruct ta as [|r0 ta']; [done |]. cbn [Tiles.width].
        by rewrite (Forall_inv Hta). }
      rewrite Hw. fold idx.
      destruct (lookup_lt_is_Some_2 ra idx) as [a Ha].
      { rewrite (proj1 (Forall_lookup _ _) Hta _ _ Hra). lia. }
      destruct (lookup_lt_is_Some_2 r k) as [b Hb].
      { rewrite (proj1 (Forall_lookup _ _) Ht _ _ Hr). lia. }
      subst G. cbn beta. by rewrite Ha, Hb. }
    rewrite Hcol. cbn [mbind option_bind].
    eexists. split; [reflexivity |].
    split; [rewrite length_zip_with; lia |]. split.
    { apply Forall_lookup. intros i r Hr.
      apply lookup_zip_with_Some in Hr as (ra & r0 & -> & Hra & Hr0).
      subst G. cbn beta. rewrite length_insert.
      by apply (proj1 (Forall_lookup _ _) Ht _ _ Hr0). }
    intros i ra rb Hra Hrb.
    destruct (Hrows i ra rb Hra Hrb) as (r & Hr & Hbl & Hrest).
    exists (G ra r). split.
    { rewrite lookup_zip_with, Hra, Hr. done. }
    assert (Hlr : length r = wb) by (by apply (proj1 (Forall_lookup _ _) Ht _ _ Hr)).
    assert (Hlra : length ra = wa) by (by apply (proj1 (Forall_lookup _ _) Hta _ _ Hra)).
    split.
    + intros x Hx. destruct (decide (x = k)) as [-> | Hne].
      * destruct (lookup_lt_is_Some_2 ra idx) as [a Ha]; [lia |].
        destruct (lookup_lt_is_Some_2 r k) as [b Hb]; [lia |].
        exists a, b. split; [done |]. split; [by rewrite <- Hrest |].
        subst G. cbn beta. rewrite Ha, Hb. apply list_lookup_insert_eq. lia.
      * destruct (Hbl x) as (a & b & ? & ? & ?); [lia |].
        exists a, b. split; [done |]. split; [done |].
        subst G. cbn beta. by rewrite list_lookup_insert_ne.
    + intros x Hx. subst G. cbn beta.
      rewrite list_lookup_insert_ne by lia. apply Hrest. lia.
Qed.

(** X15: [blend_h(a, b, blend_extent)] on two different tile objects of one
    height writes into [b] only.  With [e] the least of the two widths and
    [blend_extent], in every row entry [x < e] of [b] becomes the mix of
    entry [x - e] from the end of the row of [a] and the old entry [x] of
    [b] with weights [1 - x / e] and [x / e]; the entries from [e] on stay
    as they were, and so does every other tile. *)
Theorem blend_h_blends_leading_columns (s : Tiles.store) (a b : nat * nat)
    (ta tb : Tiles.tile) (blend_extent : Z) (wa wb : nat) :
  a ≠ b →
  Tiles.get s a = Some ta →
  Tiles.get s b = Some tb →
  Forall (λ r, length r = wa) ta →
  Forall (λ r, length r = wb) tb →
  length ta = length tb →
  ta ≠ [] →
  let e := Z.min (Z.min (Z.of_nat wa) (Z.of_nat wb)) blend_extent in
  ∃ tb',
    Tiles.blend_h s a b blend_extent = Some (Tiles.set s b tb') ∧
    length tb' = length tb ∧
    (∀ i ra rb, ta !! i = Some ra → tb !! i = Some rb →
       ∃ r, tb' !! i = Some r ∧
            (∀ x, Z.of_nat x < e →
               ∃ va vb, ra !! Z.to_nat (Z.of_nat wa - e + Z.of_nat x) = Some va ∧
                        rb !! x = Some vb ∧
                        r !! x = Some (Tiles.mix x e va vb)) ∧
            (∀ x, e ≤ Z.of_nat x → r !! x = rb !! x)) ∧
    (∀ l, l ≠ b → Tiles.get (Tiles.set s b tb') l = Tiles.get s l).
Proof.
  intros Hab Ha Hb Hta Htb Hlen Hne e.
  assert (Hwa : Tiles.width ta = Z.of_nat wa).
  { destruct ta as [|r0 ta']; [done |]. cbn [Tiles.width]. by rewrite (Forall_inv Hta). }
  assert (Hwb : Tiles.width tb = Z.of_nat wb).
  { destruct tb as [|r0 tb']; [by destruct ta |]. cbn [Tiles.width].
    by rewrite (Forall_inv Htb). }
  destruct (blend_h_cols ta tb e wa wb (Z.to_nat e) Hta Htb Hlen)
    as (t & Hloop & Hlent & _ & Hrows); [lia.. |].
  exists t. rewrite (blend_h_in_place s a b ta tb) by done.
  unfold Tiles.blend_h_val. rewrite Hwa, Hwb. fold e. rewrite Hloop.
  cbn [mbind option_bind]. split; [done |]. split; [done |]. split.
  - intros i ra rb Hra Hrb. destruct (Hrows i ra rb Hra Hrb) as (r & Hr & Hbl & Hrest).
    exists r. split; [done |].
    split; [intros x Hx; apply Hbl; lia | intros x Hx; apply Hrest; lia].
  - intros l Hl. by apply tiles_get_set_ne.
Qed.

Lemma blend_h_blends_leading_columns_witness :
  ∃ tb',
    Tiles.blend_h Tiles.grid22 (0, 0)%nat (0, 1)%nat 1
    = Some (Tiles.set Tiles.grid22 (0, 1)%nat tb') ∧
    length tb' = 1%nat.
Proof.
  destruct (blend_h_blends_leading_columns Tiles.grid22 (0, 0)%nat (0, 1)%nat
              [[Q2Qc 1; Q2Qc 1]] [[Q2Qc 2; Q2Qc 2]] 1 2 2
              ltac:(discriminate) eq_refl eq_refl
              ltac:(repeat constructor) ltac:(repeat constructor) eq_refl
              ltac:(discriminate))
    as (tb' & Hblend & Hlen & _).
  exists tb'. split; [exact Hblend | exact Hlen].
Defined.

(** ** Tiling and slicing *)

(** X16: with tiling enabled and tile settings that fit the spatial factor,
    and with or without slicing, [encode] gives the latent the shape the
    encoder alone gives it: time divided by [2 ^ min (L - 1) 2], height and
    width by [2 ^ (L - 1)], whichever of the tiled and the whole-tensor path
    a call takes. *)
Theorem encode_shape_unchanged_by_tiling (cfg : Config.t) (m : AutoencoderVidTok.t)
    (slicing : bool) (tile_sample_min_height tile_sample_min_width : option Z)
    (tile_overlap_factor_height tile_overlap_factor_width : option Q) (B T H W : Z) :
  AutoencoderVidTok.init cfg = Ok m →
  1 ≤ Config.num_res_blocks cfg →
  1 ≤ B → 1 ≤ T → 1 ≤ H → 1 ≤ W →
  let self :=
    AutoencoderVidTok.set_use_slicing slicing
      (AutoencoderVidTok.enable_tiling m tile_sample_min_height tile_sample_min_width
         tile_overlap_factor_height tile_overlap_factor_width) in
  let L := length (Config.ch_mult cfg) in
  tile_axis_fits (pow2 (L - 1)) (AutoencoderVidTok.tile_sample_min_height self)
    (AutoencoderVidTok.tile_latent_min_height self)
    (AutoencoderVidTok.tile_overlap_factor_height self) →
  tile_axis_fits (pow2 (L - 1)) (AutoencoderVidTok.tile_sample_min_width self)
    (AutoencoderVidTok.tile_latent_min_width self)
    (AutoencoderVidTok.tile_overlap_factor_width self) →
  AutoencoderVidTok.encode_z_shape self
    [B; Config.in_channels cfg; pow2 ((L - 1) `min` 2) * T; pow2 (L - 1) * H; pow2 (L - 1) * W]
  = Some [B; if Config.double_z cfg then 2 * Config.z_channels cfg else Config.z_channels cfg;
          T; H; W].
Proof.
  intros Hinit Hnrb HB HT HH HW self L Hfh Hfw. subst L.
  apply init_fields in Hinit as (Henc & _).
  pose proof (pow2_pos (length (Config.ch_mult cfg) - 1)) as Hs.
  unfold AutoencoderVidTok.encode_z_shape.
  apply (sliced_shape (AutoencoderVidTok._encode_shape self)); [done |].
  intros b Hb. unfold AutoencoderVidTok._encode_shape. destruct (_ && _).
  - apply tiled_encode_keeps; [lia | done.. |]. intros α β Hα Hβ.
    by apply (encoder_forward_shape _ _ _ _ _ _ _ _ b T α β Henc).
  - by apply (encoder_forward_shape _ _ _ _ _ _ _ _ b T H W Henc).
Qed.

Lemma encode_shape_unchanged_by_tiling_witness :
  ∃ m, AutoencoderVidTok.init test_config = Ok m ∧
       AutoencoderVidTok.encode_z_shape
         (AutoencoderVidTok.set_use_slicing true
            (AutoencoderVidTok.enable_tiling m None None None None))
         [2; 3; 20; 320; 200]
       = Some [2; 32; 5; 40; 25].
Proof.
  eexists. split; [reflexivity |].
  exact (encode_shape_unchanged_by_tiling test_config _ true None None None None 2 5 40 25
           eq_refl ltac:(cbn; lia) ltac:(lia) ltac:(lia) ltac:(lia) ltac:(lia)
           test_config_tiles_fit test_config_tiles_fit).
Defined.

(** X17: with tiling enabled and tile settings that fit the spatial factor,
    and with or without slicing, [decode] gives the sample the shape the
    decoder alone gives it: time multiplied by [2 ^ min (L - 1) 2], height
    and width by [2 ^ (L - 1)]. *)
Theorem decode_shape_unchanged_by_tiling (cfg : Config.t) (m : AutoencoderVidTok.t)
    (slicing : bool) (tile_sample_min_height tile_sample_min_width : option Z)
    (tile_overlap_factor_height tile_overlap_factor_width : option Q) (B T H W : Z) :
  AutoencoderVidTok.init cfg = Ok m →
  0 ≤ Config.num_res_blocks cfg →
  1 ≤ B → 1 ≤ T → 1 ≤ H → 1 ≤ W →
  let self :=
    AutoencoderVidTok.set_use_slicing slicing
      (AutoencoderVidTok.enable_tiling m tile_sample_min_height tile_sample_min_width
         tile_overlap_factor_height tile_overlap_factor_width) in
  let L := length (Config.ch_mult cfg) in
  tile_axis_fits (pow2 (L - 1)) (AutoencoderVidTok.tile_sample_min_height self)
    (AutoencoderVidTok.tile_latent_min_height self)
    (AutoencoderVidTok.tile_overlap_factor_height self) →
  tile_axis_fits (pow2 (L - 1)) (AutoencoderVidTok.tile_sample_min_width self)
    (AutoencoderVidTok.tile_latent_min_width self)
    (AutoencoderVidTok.tile_overlap_factor_width self) →
  AutoencoderVidTok.decode_shape self [B; Config.z_channels cfg; T; H; W]
  = Some [B; Config.out_channels cfg; pow2 ((L - 1) `min` 2) * T;
          pow2 (L - 1) * H; pow2 (L - 1) * W].
Proof.
  intros Hinit Hnrb HB HT HH HW self L Hfh Hfw. subst L.
  apply init_fields in Hinit as (_ & Hdec & _).
  pose proof (pow2_pos (length (Config.ch_mult cfg) - 1)) as Hs.
  unfold AutoencoderVidTok.decode_shape.
  apply (sliced_shape (AutoencoderVidTok._decode_shape self)); [done |].
  intros b Hb. unfold AutoencoderVidTok._decode_shape. destruct (_ && _).
  - apply tiled_decode_keeps; [lia | done.. |]. intros α β Hα Hβ.
    by apply (decoder_forward_shape _ _ _ _ _ _ _ b T α β Hdec).
  - by apply (decoder_forward_shape _ _ _ _ _ _ _ b T H W Hdec).
Qed.

Lemma decode_shape_unchanged_by_tiling_witness :
  ∃ m, AutoencoderVidTok.init test_config = Ok m ∧
       AutoencoderVidTok.decode_shape
         (AutoencoderVidTok.set_use_slicing true
            (AutoencoderVidTok.enable_tiling m None None None None))
         [2; 16; 5; 40; 25]
       = Some [2; 3; 20; 320; 200].
Proof.
  eexists. split; [reflexivity |].
  exact (decode_shape_unchanged_by_tiling test_config _ true None None None None 2 5 40 25
           eq_refl ltac:(cbn; lia) ltac:(lia) ltac:(lia) ltac:(lia) ltac:(lia)
           test_config_tiles_fit test_config_tiles_fit).
Defined.

(** X18: [disable_tiling] keeps the tile sizes and overlap factors, so
    enabling tiling again without arguments gives back the model as it was
    with tiling on; enabling it twice without new arguments is enabling it
    once; and switching slicing on and off again is switching it off. *)
Theorem tiling_switches_keep_settings (self : AutoencoderVidTok.t)
    (tile_sample_min_height tile_sample_min_width : option Z)
    (tile_overlap_factor_height tile_overlap_factor_width : option Q) :
  let tiled :=
    AutoencoderVidTok.enable_tiling self tile_sample_min_height tile_sample_min_width
      tile_overlap_factor_height tile_overlap_factor_width in
  AutoencoderVidTok.enable_tiling (AutoencoderVidTok.disable_tiling tiled) None None None None
  = tiled ∧
  AutoencoderVidTok.enable_tiling tiled None None None None = tiled ∧
  AutoencoderVidTok.use_tiling (AutoencoderVidTok.disable_tiling tiled) = false ∧
  Batch.tile_settings (AutoencoderVidTok.disable_tiling tiled) = Batch.tile_settings tiled ∧
  AutoencoderVidTok.disable_slicing (AutoencoderVidTok.enable_slicing self)
  = AutoencoderVidTok.disable_slicing self.
Proof.
  cbv zeta. unfold AutoencoderVidTok.disable_tiling, AutoencoderVidTok.enable_slicing,
    AutoencoderVidTok.disable_slicing, AutoencoderVidTok.set_use_tiling,
    AutoencoderVidTok.set_use_slicing, AutoencoderVidTok.enable_tiling, Batch.tile_settings.
  cbn [AutoencoderVidTok.config AutoencoderVidTok.tile_sample_min_height
       AutoencoderVidTok.tile_sample_min_width AutoencoderVidTok.tile_latent_min_height
       AutoencoderVidTok.tile_latent_min_width AutoencoderVidTok.tile_overlap_factor_height
       AutoencoderVidTok.tile_overlap_factor_width AutoencoderVidTok.use_tiling
       AutoencoderVidTok.use_slicing or_int or_float].
  set (tlmh := int_div_pow2
                 (or_int tile_sample_min_height (AutoencoderVidTok.tile_sample_min_height self))
                 _).
  set (tlmw := int_div_pow2
                 (or_int tile_sample_min_width (AutoencoderVidTok.tile_sample_min_width self))
                 _).
  destruct tlmh as [h|]; [destruct tlmw as [w|] |]; cbn [mbind option_bind default];
    (split; [done |]; split; [done |]; split; [done |]; split; done).
Qed.

(** X19: with tiling enabled and tile settings that fit the spatial factor,
    and with or without slicing, [forward] returns what it returns on the
    model as constructed: a tensor of the shape of its input. *)
Theorem forward_shape_unchanged_by_tiling (cfg : Config.t) (m : AutoencoderVidTok.t)
    (x : Shape.shape) (slicing : bool)
    (tile_sample_min_height tile_sample_min_width : option Z)
    (tile_overlap_factor_height tile_overlap_factor_width : option Q) :
  AutoencoderVidTok.init cfg = Ok m →
  round_trip_config cfg m →
  video_shape cfg x →
  let self :=
    AutoencoderVidTok.set_use_slicing slicing
      (AutoencoderVidTok.enable_tiling m tile_sample_min_height tile_sample_min_width
         tile_overlap_factor_height tile_overlap_factor_width) in
  let s := pow2 (length (Config.ch_mult cfg) - 1) in
  tile_axis_fits s (AutoencoderVidTok.tile_sample_min_height self)
    (AutoencoderVidTok.tile_latent_min_height self)
    (AutoencoderVidTok.tile_overlap_factor_height self) →
  tile_axis_fits s (AutoencoderVidTok.tile_sample_min_width self)
    (AutoencoderVidTok.tile_latent_min_width self)
    (AutoencoderVidTok.tile_overlap_factor_width self) →
  AutoencoderVidTok.forward_shape self x = AutoencoderVidTok.forward_shape m x ∧
  AutoencoderVidTok.forward_shape self x = Some x.
Proof.
  intros Hinit Hcfg Hx self s Hfh Hfw.
  assert (Htiled : AutoencoderVidTok.forward_shape self x = Some x).
  { by apply (forward_tiled_returns_input_shape cfg m x slicing). }
  split; [| done]. rewrite Htiled. symmetry.
  destruct Hcfg as [Hch Hnrb Hdz Hratio].
  destruct Hx as (B & T & H & W & HB & HT & HH & HW & ->).
  apply init_fields in Hinit as (Henc & Hdec & Hreg & Hr & Htcr & Htile & _).
  rewrite (encoder_temporal_down_factor _ _ _ _ _ _ _ _ Henc) in Hratio.
  set (n := (length (Config.ch_mult cfg) - 1)%nat) in *.
  pose proof (pow2_pos (n `min` 2)) as Hf.
  apply (forward_shape_round_trip _ _ (Config.z_channels cfg) (pow2 (n `min` 2)) B T
           (Config.double_z cfg) [pow2 n * H; pow2 n * W] [H; W]);
    [by rewrite Htcr | done.. | | |].
  - rewrite Hr. destruct Hreg as [Hkl | Hfsq]; [left; auto | by right].
  - intros b q _ Hq. unfold AutoencoderVidTok._encode_shape. rewrite Htile. cbn [andb].
    by apply (encoder_forward_shape _ _ _ _ _ _ _ _ b q H W Henc).
  - intros b q Hb Hq. unfold AutoencoderVidTok._decode_shape. rewrite Htile. cbn [andb].
    rewrite Hch. apply (decoder_forward_shape _ _ _ _ _ _ _ b q H W Hdec); lia.
Qed.

Lemma forward_shape_unchanged_by_tiling_witness :
  ∃ m, AutoencoderVidTok.init test_config = Ok m ∧
       AutoencoderVidTok.forward_shape
         (AutoencoderVidTok.set_use_slicing true
            (AutoencoderVidTok.enable_tiling m None None None None))
         [1; 3; 18; 256; 256]
       = Some [1; 3; 18; 256; 256].
Proof.
  eexists. split; [reflexivity |].
  match goal with |- AutoencoderVidTok.forward_shape
                       (AutoencoderVidTok.set_use_slicing _
                          (AutoencoderVidTok.enable_tiling ?m _ _ _ _)) _ = _ =>
    assert (Hcfg : round_trip_config test_config m)
  end.
  { constructor; [reflexivity | cbn; lia | reflexivity | reflexivity]. }
  assert (Hx : video_shape test_config [1; 3; 18; 256; 256]).
  { exists 1, 18, 32, 32. repeat split; lia. }
  exact (proj2 (forward_shape_unchanged_by_tiling test_config _ [1; 3; 18; 256; 256] true
                  None None None None eq_refl Hcfg Hx
                  test_config_tiles_fit test_config_tiles_fit)).
Defined.

(** X20: when the distance between tiles, [int(tile_min * (1 - factor))],
    is 0 on the height or the width axis (an overlap factor of 1, or a tile
    of one entry), the tile loops of [tiled_encode] and [tiled_decode] are
    over a [range] with step 0 and the call fails, whatever the input. *)
Theorem tiled_paths_fail_on_zero_stride (self : AutoencoderVidTok.t) (x : Shape.shape) :
  (tile_overlap (AutoencoderVidTok.tile_sample_min_height self)
     (AutoencoderVidTok.tile_overlap_factor_height self) = Some 0 ∨
   tile_overlap (AutoencoderVidTok.tile_sample_min_width self)
     (AutoencoderVidTok.tile_overlap_factor_width self) = Some 0 →
   AutoencoderVidTok.tiled_encode_shape self x = None) ∧
  (tile_overlap (AutoencoderVidTok.tile_latent_min_height self)
     (AutoencoderVidTok.tile_overlap_factor_height self) = Some 0 ∨
   tile_overlap (AutoencoderVidTok.tile_latent_min_width self)
     (AutoencoderVidTok.tile_overlap_factor_width self) = Some 0 →
   AutoencoderVidTok.tiled_decode_shape self x = None).
Proof.
  assert (Hrows : ∀ net x height width oh ow th tw,
            oh = 0 ∨ ow = 0 →
            AutoencoderVidTok.tile_rows net x height width oh ow th tw = None).
  { intros net x0 height width oh ow th tw [-> | ->]; unfold AutoencoderVidTok.tile_rows;
      [done | by destruct (py_range height oh)]. }
  split; intros Hzero;
    unfold AutoencoderVidTok.tiled_encode_shape, AutoencoderVidTok.tiled_decode_shape;
    repeat (destruct x as [|? x]; try done).
  - destruct (tile_overlap (AutoencoderVidTok.tile_sample_min_height self) _) as [oh|];
      [| reflexivity].
    destruct (tile_overlap (AutoencoderVidTok.tile_sample_min_width self) _) as [ow|];
      [| reflexivity].
    cbn [mbind option_bind].
    destruct (tile_blend_extent (AutoencoderVidTok.tile_latent_min_height self) _) as [bh|];
      [| reflexivity].
    destruct (tile_blend_extent (AutoencoderVidTok.tile_latent_min_width self) _) as [bw|];
      [| reflexivity].
    cbn [mbind option_bind]. rewrite Hrows; [done |].
    destruct Hzero as [H | H]; injection H as ->; auto.
  - destruct (tile_overlap (AutoencoderVidTok.tile_latent_min_height self) _) as [oh|];
      [| reflexivity].
    destruct (tile_overlap (AutoencoderVidTok.tile_latent_min_width self) _) as [ow|];
      [| reflexivity].
    cbn [mbind option_bind].
    destruct (tile_blend_extent (AutoencoderVidTok.tile_sample_min_height self) _) as [bh|];
      [| reflexivity].
    destruct (tile_blend_extent (AutoencoderVidTok.tile_sample_min_width self) _) as [bw|];
      [| reflexivity].
    cbn [mbind option_bind]. rewrite Hrows; [done |].
    destruct Hzero as [H | H]; injection H as ->; auto.
Qed.

Lemma tiled_paths_fail_on_zero_stride_witness :
  ∃ m, AutoencoderVidTok.init test_config = Ok m ∧
       AutoencoderVidTok.tiled_encode_shape
         (AutoencoderVidTok.enable_tiling m None None (Some 1%Q) (Some 1%Q))
         [1; 3; 17; 256; 256]
       = None.
Proof.
  eexists. split; [reflexivity |].
  apply (proj1 (tiled_paths_fail_on_zero_stride _ [1; 3; 17; 256; 256])).
  left. reflexivity.
Defined.

(** ** Length of the causal convolutions along time *)

Lemma pad_front_length {A : Type} (zero : A) (mode : string) (p : Z) (xs : list A) :
  0 ≤ p →
  mode ∈ ["constant"; "replicate"; "reflect"; "circular"] →
  p < Z.of_nat (length xs) ∨ mode = "constant" →
  ∃ ys, Torch.pad_front zero mode p xs = Some ys ∧
        length ys = (Z.to_nat p + length xs)%nat.
Proof.
  intros Hp Hmode Hlen. unfold Torch.pad_front.
  destruct (Z.ltb_spec p 0) as [? | _]; [lia |].
  assert (Hcases : mode = "constant" ∨
            (p < Z.of_nat (length xs) ∧
             (mode = "replicate" ∨ mode = "reflect" ∨ mode = "circular"))).
  { destruct Hlen as [Hlt | ->]; [| by left].
    rewrite !elem_of_cons, elem_of_nil in Hmode.
    destruct Hmode as [-> | [-> | [-> | [-> | []]]]]; auto. }
  destruct Hcases as [-> | [Hlt [-> | [-> | ->]]]]; cbn [String.eqb Ascii.eqb Bool.eqb].
  - eexists. split; [done |]. by rewrite length_app, length_replicate.
  - destruct xs as [|x0 xs]; [cbn in Hlt; lia |].
    eexists. split; [done |]. by rewrite length_app, length_replicate.
  - destruct (Z.ltb_spec p (Z.of_nat (length xs))) as [_ | ?]; [| lia].
    eexists. split; [done |].
    rewrite length_app, length_reverse, length_take, length_drop. lia.
  - destruct (Z.leb_spec p (Z.of_nat (length xs))) as [_ | ?]; [| lia].
    eexists. split; [done |]. rewrite length_app, length_drop. lia.
Qed.

Lemma conv_time_length {A B : Type} (zero : A) (K : list A → B) (k d s : Z) (xs : list A) :
  1 ≤ k → 1 ≤ d → 1 ≤ s →
  let n := Z.of_nat (length xs) in
  let span := d * (k - 1) + 1 in
  (Z.of_nat ∘ length) <$> Torch.conv_time zero K k d s xs
  = if span <=? n then Some ((n - span) / s + 1) else None.
Proof.
  intros Hk Hd Hs n span. unfold Torch.conv_time.
  destruct (Z.leb_spec k 0); [lia |]. destruct (Z.leb_spec d 0); [lia |].
  destruct (Z.leb_spec s 0); [lia |]. cbn [orb].
  unfold Torch.slide, Torch.out_len.
  assert (Hspan : Z.of_nat (Z.to_nat d * (Z.to_nat k - 1) + 1) = span).
  { subst span. nia. }
  destruct (decide _) as [Hbad | Hok]; cbn [mbind option_bind fmap option_fmap option_map].
  - destruct (Z.leb_spec span n); [| done]. subst n. lia.
  - destruct (Z.leb_spec span n) as [Hle | Hgt]; [| subst n; lia].
    cbn [compose]. f_equal. rewrite length_fmap, length_seq.
    rewrite Nat2Z.inj_add, Nat2Z.inj_div, Nat2Z.inj_sub by (subst n; lia).
    rewrite Hspan. by rewrite Z2Nat.id by lia.
Qed.

Lemma causal_length_arith (k d s T : Z) :
  1 ≤ s → s ≤ T →
  (d * (k - 1) + (1 - s) + T - (d * (k - 1) + 1)) / s + 1 = T / s.
Proof.
  intros Hs HT.
  replace (d * (k - 1) + (1 - s) + T - (d * (k - 1) + 1)) with (T + (-1) * s) by lia.
  rewrite Z.div_add by lia. lia.
Qed.

(** X21: a [VidTokCausalConv1d] whose stride is at most the span of its
    kernel gives, on [T] time steps, [T // stride] outputs when the stride is
    at most [T], and fails on a shorter input; at stride 1 the time length is
    kept.  This holds in each of the four padding modes. *)
Theorem causal_conv1d_time_length {A B : Type} (zero : A) (K : list A → B)
    (cin cout k d s : Z) (mode : string) (x : list A) :
  1 ≤ k → 1 ≤ d → 1 ≤ s → s ≤ d * (k - 1) + 1 →
  mode ∈ ["constant"; "replicate"; "reflect"; "circular"] →
  let self := VidTokCausalConv1d.init cin cout k mode d s in
  let T := Z.of_nat (length x) in
  (Z.of_nat ∘ length) <$> VidTokCausalConv1d.forward zero K self x
  = if s <=? T then Some (T / s) else None.
Proof.
  intros Hk Hd Hs Hspan Hmode self T.
  unfold VidTokCausalConv1d.forward, VidTokCausalConv1d.forward_pad_mode.
  cbn [self VidTokCausalConv1d.init VidTokCausalConv1d.time_pad
       VidTokCausalConv1d.time_causal_padding VidTokCausalConv1d.pad_mode
       VidTokCausalConv1d.kernel_size VidTokCausalConv1d.dilation
       VidTokCausalConv1d.stride fst].
  fold T. set (p := d * (k - 1) + (1 - s)).
  destruct (pad_front_length zero (if p <? T then mode else "constant") p x)
    as (ys & -> & Hys); [lia | | |].
  { destruct (p <? T); [done | by left]. }
  { destruct (Z.ltb_spec p T); [by left | by right]. }
  cbn [mbind option_bind]. rewrite conv_time_length by lia. cbv zeta.
  rewrite Hys, Nat2Z.inj_add, Z2Nat.id by lia. fold T.
  destruct (Z.leb_spec s T), (Z.leb_spec (d * (k - 1) + 1) (p + T)); try lia.
  - f_equal. by apply causal_length_arith.
  - done.
Qed.

Lemma causal_conv1d_time_length_witness :
  (Z.of_nat ∘ length) <$>
    VidTokCausalConv1d.forward 0 sumZ (VidTokCausalConv1d.init 1 1 3 "replicate" 1 2)
      [1; 2; 3; 4; 5]
  = Some 2.
Proof.
  exact (causal_conv1d_time_length 0 sumZ 1 1 3 1 2 "replicate" [1; 2; 3; 4; 5]
           ltac:(lia) ltac:(lia) ltac:(lia) ltac:(lia) ltac:(right; left)).
Defined.


